(** * The joint prior of the ST-U model for PSR J0740+6620

    A shallow embedding of [CustomPrior] from
    [STU/CustomPrior_GLS_compressed_scaling.py]: the support evaluator
    [__call__], [density], [inverse_sample] and [transform].

    - Python floats are IEEE 754 binary64 numbers, and so are Rocq's
      primitive floats: every literal below denotes the same double as in
      the source, and [+], [-], [*], [/], [sqrt] and the comparisons round
      and compare as Python's do (NaN included).
    - Code that can raise returns a [result].  Division of Python floats
      raises on a zero divisor and the functions of [math] raise on a domain
      or range error; a division by a non-zero literal is written [/].
    - The parameter container that [inverse_sample] mutates is threaded
      explicitly, and so is the state of numpy's random generator.
    - The collaborators (xpsi, scipy, libm, numpy.random) are interfaces:
      every theorem holds for every instance of them.  The container is
      taken to hold the free parameters of the vector, each with a value, a
      cache, bounds and strict bounds, assigning a value leaving the cache
      alone. *)

From Stdlib Require Import Floats ZArith Lia List String Bool.
Import ListNotations.

Set Warnings "-inexact-float".

Open Scope string_scope.
Open Scope list_scope.
Open Scope float_scope.

(** ** Python exceptions and the result of a call *)

Inductive exn : Type :=
| KeyError (key : string)
| IndexError
| ZeroDivisionError
| ValueError
| OverflowError.

Inductive result (A : Type) : Type :=
| Ok (a : A)
| Raise (e : exn).

Arguments Ok {A} a.
Arguments Raise {A} e.

Definition bind {A B : Type} (c : result A) (k : A -> result B) : result B :=
  match c with
  | Ok a => k a
  | Raise e => Raise e
  end.

Notation "x <- c ;; k" := (bind c (fun x => k))
  (at level 61, c at next level, right associativity).
Notation "' pat <- c ;; k" := (bind c (fun x => match x with pat => k end))
  (at level 61, pat pattern, c at next level, right associativity).

Definition returns {A : Type} (c : result A) : Prop := exists a, c = Ok a.

(** [try: body  except KeyError: handler  else: orelse]; any other exception
    of the body propagates. *)
Definition try_except_KeyError {A B : Type}
  (body : result A) (handler : result B) (orelse : A -> result B) : result B :=
  match body with
  | Ok a => orelse a
  | Raise (KeyError _) => handler
  | Raise e => Raise e
  end.

(** ** Python's arithmetic on floats *)

(** [x / y] on Python floats: a zero divisor raises. *)
Definition truediv (x y : float) : result float :=
  if is_zero y then Raise ZeroDivisionError else Ok (x / y).

(** The builtin [min(a, b)] on two floats: [b] when [b < a], else [a]. *)
Definition py_min (a b : float) : float := if b <? a then b else a.

(** [x > y] is [y < x]; [x >= y] is [y <= x]. *)
Definition gtb (x y : float) : bool := y <? x.
Definition geb (x y : float) : bool := y <=? x.

Infix ">?" := gtb (at level 70, no associativity) : float_scope.
Infix ">=?" := geb (at level 70, no associativity) : float_scope.

(** CPython's wrapper around a libm function of one argument ([math_1]): a
    NaN result from a number is a domain error, an infinite result from a
    finite number a range error (or a domain error where the function cannot
    overflow). *)
Definition math_1 (func : float -> float) (can_overflow : bool) (x : float)
  : result float :=
  let r := func x in
  if is_nan r && negb (is_nan x) then Raise ValueError
  else if is_infinity r && is_finite x
       then Raise (if can_overflow then OverflowError else ValueError)
       else Ok r.

(** [math.sqrt]: the square root is correctly rounded. *)
Definition math_sqrt : float -> result float := math_1 sqrt false.

(** [math.pi]. *)
Definition math_pi : float := 3.141592653589793.

(** ** The collaborators

    The xpsi package, scipy's distributions, the transcendental functions of
    libm and numpy's random generator are not part of the module; the model
    takes them as interfaces. *)

Record Param : Type := {
  name : string;
  value : float;
  cached : option float;
  bounds : float * float;
  strict_bounds : float * float
}.

(** The container of the free parameters, in vector order. *)
Definition ParameterSubspace : Type := list Param.

Record Spacetime : Type := {
  epsilon : float;
  zeta : float;
  R : float;
  R_r_s : float
}.

Class Xpsi : Type := {
  (** [xpsi.Prior.__call__]: the bounds check of the base class *)
  Prior__call__ : option (list float) -> ParameterSubspace -> float;
  (** what [xpsi.Prior.inverse_sample] assigns to one parameter from its
      coordinate of the hypercube *)
  Prior_inverse_sample_1 : Param -> float -> float;
  (** [xpsi.surface_radiation_field.effective_gravity], on arrays *)
  effective_gravity :
    list float -> list float -> list float -> list float -> list float;
  (** [xpsi.HotRegion.psi] *)
  psi : float -> float -> float -> float;
  _2pi : float;
  gravradius : float -> float
}.

Class Scipy : Type := {
  (** [skewnorm.pdf(x, a, loc, scale)] *)
  skewnorm_pdf : float -> float -> float -> float -> float;
  (** [skewnorm.ppf(q, a, loc, scale)] *)
  skewnorm_ppf : float -> float -> float -> float -> float;
  (** [truncnorm.pdf(x, a, b, loc, scale)] *)
  truncnorm_pdf : float -> float -> float -> float -> float -> float;
  (** [truncnorm.ppf(q, a, b, loc, scale)] *)
  truncnorm_ppf : float -> float -> float -> float -> float -> float
}.

Class Libm : Type := {
  libm_cos : float -> float;
  libm_acos : float -> float;
  libm_exp : float -> float
}.

Class NumpyRandom : Type := {
  rng : Type;
  (** [np.random.rand(n)]: [n] draws and the generator's next state *)
  random_rand : nat -> rng -> list float * rng
}.

Definition math_cos `{Libm} : float -> result float := math_1 libm_cos false.
Definition math_acos `{Libm} : float -> result float := math_1 libm_acos false.
Definition math_exp `{Libm} : float -> result float := math_1 libm_exp true.

(** ** The parameter container *)

Module Subspace.

(** [ref.get_param(key)] *)
Fixpoint get_param (ref : ParameterSubspace) (key : string)
  : result Param :=
  match ref with
  | [] => Raise (KeyError key)
  | q :: ref' => if String.eqb (name q) key then Ok q else get_param ref' key
  end.

(** [ref[key]] *)
Definition getitem (ref : ParameterSubspace) (key : string) : result float :=
  q <- get_param ref key ;; Ok (value q).

Definition set_value (q : Param) (v : float) : Param :=
  {| name := name q; value := v; cached := cached q;
     bounds := bounds q; strict_bounds := strict_bounds q |}.

Definition set_cached (q : Param) (c : float) : Param :=
  {| name := name q; value := value q; cached := Some c;
     bounds := bounds q; strict_bounds := strict_bounds q |}.

(** [ref[key] = v] *)
Fixpoint setitem (ref : ParameterSubspace) (key : string) (v : float)
  : result ParameterSubspace :=
  match ref with
  | [] => Raise (KeyError key)
  | q :: ref' =>
      if String.eqb (name q) key then Ok (set_value q v :: ref')
      else ref'' <- setitem ref' key v ;; Ok (q :: ref'')
  end.

(** The container [setitem] leaves behind when [key] is present. *)
Fixpoint update (ref : ParameterSubspace) (key : string) (v : float)
  : ParameterSubspace :=
  match ref with
  | [] => []
  | q :: ref' =>
      if String.eqb (name q) key then set_value q v :: ref'
      else q :: update ref' key v
  end.

(** What no assignment of a value or of a cache changes. *)
Definition shape (q : Param) : string * (float * float) * (float * float) :=
  (name q, bounds q, strict_bounds q).

(** [ref.index(key)] *)
Fixpoint index (ref : ParameterSubspace) (key : string) : result nat :=
  match ref with
  | [] => Raise (KeyError key)
  | q :: ref' =>
      if String.eqb (name q) key then Ok O
      else i <- index ref' key ;; Ok (S i)
  end.

(** [ref.vector] *)
Definition vector (ref : ParameterSubspace) : list float := map value ref.

(** [ref.names] *)
Definition names (ref : ParameterSubspace) : list string := map name ref.

End Subspace.

(** [hypercube[idx]] *)
Definition item (hypercube : list float) (idx : nat) : result float :=
  match nth_error hypercube idx with
  | Some u => Ok u
  | None => Raise IndexError
  end.

(** ** Module constants *)

Definition _corr : float := 0.800.
Definition _mu_m : float := 2.082.
Definition _std_m : float := 0.0703.
Definition _mu_cosi : float := 0.0427.
Definition _std_cosi : float := 0.00304.
Definition _cond_std : float :=
  sqrt ((1.0 - _corr * _corr) * _std_cosi * _std_cosi).
Definition _cond_std_alpha : float :=
  sqrt ((1.0 - 0.916 * 0.916) * 0.104 * 0.104).

(** ** The prior *)

(** [spacetime] is what [self.parameters.star.spacetime] presents to
    [__call__] when it is called: xpsi derives it from the parameters by
    code that is not part of the module, so the model takes its four
    quantities as they come.  Nothing but [__call__] reads it. *)
Record CustomPrior : Type := {
  parameters : ParameterSubspace;
  spacetime : Spacetime
}.

Section Prior.

Context `{Xpsi} `{Scipy} `{Libm}.

(** The normalised polar radius of [__call__]. *)
Definition R_p (ref : Spacetime) : float :=
  1.0 + epsilon ref * (-0.788 + 1.030 * zeta ref).

(** The [mu] of [__call__]. *)
Definition mu (ref : Spacetime) : result float :=
  q <- truediv (-1.0) (3.0 * epsilon ref * (-0.788 + 1.030 * zeta ref)) ;;
  math_sqrt q.

(** The array [grav] of [__call__]: pole first, equator second. *)
Definition grav (ref : Spacetime) : list float :=
  effective_gravity [1.0; 0.0] [R ref; R ref] [zeta ref; zeta ref]
                    [epsilon ref; epsilon ref].

Definition in_NSX_limits (g : float) : bool := (13.7 <=? g) && (g <=? 15.0).

(** The angular separation of the two hot-region centres. *)
Definition ang_sep (ref : ParameterSubspace) : result float :=
  p_shift <- Subspace.getitem ref "p__phase_shift" ;;
  s_shift <- Subspace.getitem ref "s__phase_shift" ;;
  let phi := (p_shift - 0.5 - s_shift) * _2pi in
  s_colat <- Subspace.getitem ref "s__super_colatitude" ;;
  p_colat <- Subspace.getitem ref "p__super_colatitude" ;;
  Ok (psi s_colat phi p_colat).

Definition __call__ (self : CustomPrior) (p : option (list float))
  : result float :=
  let temp := Prior__call__ p (parameters self) in
  if negb (is_finite temp) then Ok temp else
  distance <- Subspace.getitem (parameters self) "distance" ;;
  if negb ((0.0 <? distance) && (distance <=? 1.7)) then Ok neg_infinity else
  radius <- Subspace.getitem (parameters self) "radius" ;;
  if negb (radius <=? 16.0) then Ok neg_infinity else
  let ref := spacetime self in
  photon <- truediv 1.505 (R_r_s ref) ;;
  if R_p ref <? photon then Ok neg_infinity else
  mu <- mu ref ;;
  if mu <? 1.0 then Ok neg_infinity else
  if existsb (fun g => negb (in_NSX_limits g)) (grav ref)
  then Ok neg_infinity else
  let ref := parameters self in
  p_colat <- Subspace.getitem ref "p__super_colatitude" ;;
  s_colat <- Subspace.getitem ref "s__super_colatitude" ;;
  if p_colat >? s_colat then Ok neg_infinity else
  ang_sep <- ang_sep ref ;;
  p_radius <- Subspace.getitem ref "p__super_radius" ;;
  s_radius <- Subspace.getitem ref "s__super_radius" ;;
  if ang_sep <? p_radius + s_radius then Ok neg_infinity else
  Ok 0.0.

(** The location of cos(inclination) given the mass, and the lower
    truncation bound, as both [density] and [inverse_sample] compute them. *)
Definition cosi_loc (mass : float) : float :=
  _mu_cosi + (_std_cosi / _std_m) * _corr * (mass - _mu_m).

Definition cosi_lower (_strict : float * float) (_loc : float) : float :=
  py_min (-10.0) ((fst _strict - _loc) / _cond_std).

Definition density (self : CustomPrior) (point : list float)
  : result float :=
  logp <- __call__ self (Some point) ;;
  if negb (is_finite logp) then Ok 0.0 else
  let ref := parameters self in
  let density := 1.0 in
  distance <- Subspace.getitem ref "distance" ;;
  let density := density * skewnorm_pdf distance 1.7 1.002 0.227 in
  mass <- Subspace.getitem ref "mass" ;;
  let density := density * truncnorm_pdf mass (-5.0) 5.0 _mu_m _std_m in
  cos_inclination <- Subspace.get_param ref "cos_inclination" ;;
  let _strict := strict_bounds cos_inclination in
  mass <- Subspace.getitem ref "mass" ;;
  let _loc := cosi_loc mass in
  let _lower := cosi_lower _strict _loc in
  cosi <- Subspace.getitem ref "cos_inclination" ;;
  let density := density * truncnorm_pdf cosi _lower 10.0 _loc _cond_std in
  try_except_KeyError (Subspace.getitem ref "PN__alpha") (Ok density)
    (fun _ =>
       let _rho := 0.916 in
       let _std := 0.104 in
       xti <- Subspace.getitem ref "XTI__alpha" ;;
       let _a := (xti - 1.0) / _std in
       pn <- Subspace.getitem ref "PN__alpha" ;;
       let _b := (pn - 1.0) / _std in
       let _exponent := _a * _a in
       let _exponent := _exponent + _b * _b in
       let _exponent := _exponent - 2.0 * _rho * _a * _b in
       let _exponent := _exponent / (2.0 * (1.0 - _rho * _rho)) in
       e <- math_exp (-1.0 * _exponent) ;;
       let density := density * e in
       root <- math_sqrt (1.0 - _rho * _rho) ;;
       let density := density / (2.0 * math_pi * _std * _std * root) in
       Ok density).

(** [xpsi.Prior.inverse_sample]: every parameter gets its default
    transform of its own coordinate. *)
Fixpoint Prior_inverse_sample (hypercube : list float)
  (ref : ParameterSubspace) {struct ref} : result ParameterSubspace :=
  match ref with
  | [] => Ok []
  | q :: ref' =>
      match hypercube with
      | [] => Raise IndexError
      | u :: hypercube' =>
          ref'' <- Prior_inverse_sample hypercube' ref' ;;
          Ok (Subspace.set_value q (Prior_inverse_sample_1 q u) :: ref'')
      end
  end.

(** The flat-in-cosine draw of one hot-region colatitude. *)
Definition sample_colatitude (ref : ParameterSubspace) (key : string)
  (hypercube : list float) : result ParameterSubspace :=
  idx <- Subspace.index ref key ;;
  q <- Subspace.get_param ref key ;;
  let '(a, b) := bounds q in
  a <- math_cos a ;;
  b <- math_cos b ;;
  u <- item hypercube idx ;;
  colatitude <- math_acos (b + (a - b) * u) ;;
  Subspace.setitem ref key colatitude.

(** [for parameter, cache in zip(self.parameters, to_cache)]. *)
Fixpoint restore_cache (ref : ParameterSubspace) (to_cache : list float)
  {struct ref} : ParameterSubspace :=
  match ref, to_cache with
  | q :: ref', cache :: to_cache' =>
      Subspace.set_cached q cache :: restore_cache ref' to_cache'
  | _, _ => ref
  end.

(** The blocks of [inverse_sample], in the order of the source. *)

Definition sample_distance (ref : ParameterSubspace)
  (hypercube : list float) : result ParameterSubspace :=
  idx <- Subspace.index ref "distance" ;;
  u <- item hypercube idx ;;
  Subspace.setitem ref "distance" (skewnorm_ppf u 1.7 1.002 0.227).

Definition sample_mass (ref : ParameterSubspace)
  (hypercube : list float) : result ParameterSubspace :=
  idx <- Subspace.index ref "mass" ;;
  u <- item hypercube idx ;;
  Subspace.setitem ref "mass" (truncnorm_ppf u (-5.0) 5.0 _mu_m _std_m).

Definition sample_cos_inclination (ref : ParameterSubspace)
  (hypercube : list float) : result ParameterSubspace :=
  idx <- Subspace.index ref "cos_inclination" ;;
  cos_inclination <- Subspace.get_param ref "cos_inclination" ;;
  let _strict := strict_bounds cos_inclination in
  mass <- Subspace.getitem ref "mass" ;;
  let _loc := cosi_loc mass in
  let _lower := cosi_lower _strict _loc in
  u <- item hypercube idx ;;
  Subspace.setitem ref "cos_inclination"
    (truncnorm_ppf u _lower 10.0 _loc _cond_std).

Definition sample_XTI_alpha (ref : ParameterSubspace)
  (hypercube : list float) : result ParameterSubspace :=
  try_except_KeyError (Subspace.getitem ref "XTI__alpha") (Ok ref)
    (fun _ =>
       idx <- Subspace.index ref "XTI__alpha" ;;
       u <- item hypercube idx ;;
       Subspace.setitem ref "XTI__alpha"
         (truncnorm_ppf u (-5.0) 5.0 1.0 0.104)).

Definition sample_PN_alpha (ref : ParameterSubspace)
  (hypercube : list float) : result ParameterSubspace :=
  try_except_KeyError (Subspace.getitem ref "PN__alpha") (Ok ref)
    (fun _ =>
       idx <- Subspace.index ref "PN__alpha" ;;
       '(_loc, _scale) <-
         try_except_KeyError (Subspace.getitem ref "XTI__alpha")
           (Ok (1.0, 0.104))
           (fun _ =>
              xti <- Subspace.getitem ref "XTI__alpha" ;;
              Ok (1.0 + 0.916 * (xti - 1.0), _cond_std_alpha)) ;;
       u <- item hypercube idx ;;
       Subspace.setitem ref "PN__alpha"
         (truncnorm_ppf u (-5.0) 5.0 _loc _scale)).

(** The body of [inverse_sample] once the hypercube is known. *)
Definition sample_at (ref : ParameterSubspace) (hypercube : list float)
  : result ParameterSubspace :=
  ref <- Prior_inverse_sample hypercube ref ;;
  ref <- sample_distance ref hypercube ;;
  ref <- sample_mass ref hypercube ;;
  ref <- sample_cos_inclination ref hypercube ;;
  ref <- sample_colatitude ref "p__super_colatitude" hypercube ;;
  ref <- sample_colatitude ref "s__super_colatitude" hypercube ;;
  ref <- sample_XTI_alpha ref hypercube ;;
  sample_PN_alpha ref hypercube.

Definition inverse_sample `{NumpyRandom} (self : CustomPrior)
  (hypercube : option (list float)) (state : rng)
  : result (list float * CustomPrior * rng) :=
  let to_cache := Subspace.vector (parameters self) in
  let '(hypercube, state) :=
    match hypercube with
    | None => random_rand (List.length (parameters self)) state
    | Some u => (u, state)
    end in
  ref <- sample_at (parameters self) hypercube ;;
  let ref := restore_cache ref to_cache in
  Ok (Subspace.vector ref,
      {| parameters := ref; spacetime := spacetime self |},
      state).

(** [dict(zip(names, p))]: a later pair replaces an earlier one with the
    same key. *)
Fixpoint dict_getitem (d : list (string * float)) (key : string)
  : result float :=
  match d with
  | [] => Raise (KeyError key)
  | (k, v) :: d' =>
      match dict_getitem d' key with
      | Ok v' => Ok v'
      | Raise e => if String.eqb k key then Ok v else Raise e
      end
  end.

(** What [transform] appends for one phase shift. *)
Definition shifted (phase_shift : float) : float :=
  if phase_shift >? 0.5 then phase_shift - 1.0 else phase_shift.

Definition transform (self : CustomPrior) (p : list float)
  : result (list float) :=
  let ref := combine (Subspace.names (parameters self)) p in
  mass <- dict_getitem ref "mass" ;;
  radius <- dict_getitem ref "radius" ;;
  compactness <- truediv (gravradius mass) radius ;;
  let p := p ++ [compactness] in
  p_shift <- dict_getitem ref "p__phase_shift" ;;
  let p := p ++ [shifted p_shift] in
  s_shift <- dict_getitem ref "s__phase_shift" ;;
  let p := p ++ [shifted s_shift] in
  Ok p.

End Prior.

(** ** The support, as the specification lists it *)

Inductive constraint : Type :=
| Distance          (* distance in (0, 1.7] *)
| Radius            (* radius <= 16.0 *)
| PhotonSphere      (* R_p >= 1.505 / R_r_s *)
| SingleMaximum     (* mu >= 1 *)
| Gravity           (* log10 effective gravity in [13.7, 15.0] *)
| ColatitudeOrder   (* primary colatitude <= secondary colatitude *)
| NoOverlap.        (* angular separation >= sum of the angular radii *)

Section Support.

Context `{Xpsi}.

(** The constraint holds: its quantities are computed and compare as the
    specification says. *)
Definition holds (self : CustomPrior) (c : constraint) : Prop :=
  let ref := parameters self in
  match c with
  | Distance =>
      exists d, Subspace.getitem ref "distance" = Ok d /\
                (0.0 <? d) = true /\ (d <=? 1.7) = true
  | Radius =>
      exists r, Subspace.getitem ref "radius" = Ok r /\ (r <=? 16.0) = true
  | PhotonSphere =>
      exists q, truediv 1.505 (R_r_s (spacetime self)) = Ok q /\
                (R_p (spacetime self) >=? q) = true
  | SingleMaximum =>
      exists m, mu (spacetime self) = Ok m /\ (m >=? 1.0) = true
  | Gravity =>
      Forall (fun g => (13.7 <=? g) = true /\ (g <=? 15.0) = true)
             (grav (spacetime self))
  | ColatitudeOrder =>
      exists p s, Subspace.getitem ref "p__super_colatitude" = Ok p /\
                  Subspace.getitem ref "s__super_colatitude" = Ok s /\
                  (p <=? s) = true
  | NoOverlap =>
      exists a rp rs, ang_sep ref = Ok a /\
                      Subspace.getitem ref "p__super_radius" = Ok rp /\
                      Subspace.getitem ref "s__super_radius" = Ok rs /\
                      (a >=? rp + rs) = true
  end.

(** The constraint is violated: its quantities are computed and compare
    the other way.  For a quantity that must lie in a range this is any
    value outside the range; for an inequality [x >= y] it is [x < y]. *)
Definition violated (self : CustomPrior) (c : constraint) : Prop :=
  let ref := parameters self in
  match c with
  | Distance =>
      exists d, Subspace.getitem ref "distance" = Ok d /\
                (0.0 <? d) && (d <=? 1.7) = false
  | Radius =>
      exists r, Subspace.getitem ref "radius" = Ok r /\ (r <=? 16.0) = false
  | PhotonSphere =>
      exists q, truediv 1.505 (R_r_s (spacetime self)) = Ok q /\
                (R_p (spacetime self) <? q) = true
  | SingleMaximum =>
      exists m, mu (spacetime self) = Ok m /\ (m <? 1.0) = true
  | Gravity =>
      Exists (fun g => (13.7 <=? g) && (g <=? 15.0) = false)
             (grav (spacetime self))
  | ColatitudeOrder =>
      exists p s, Subspace.getitem ref "p__super_colatitude" = Ok p /\
                  Subspace.getitem ref "s__super_colatitude" = Ok s /\
                  (p >? s) = true
  | NoOverlap =>
      exists a rp rs, ang_sep ref = Ok a /\
                      Subspace.getitem ref "p__super_radius" = Ok rp /\
                      Subspace.getitem ref "s__super_radius" = Ok rs /\
                      (a <? rp + rs) = true
  end.

(** The quantities of the constraint are computed and are numbers. *)
Definition computed (self : CustomPrior) (c : constraint) : Prop :=
  let ref := parameters self in
  match c with
  | Distance => exists d, Subspace.getitem ref "distance" = Ok d
  | Radius => exists r, Subspace.getitem ref "radius" = Ok r
  | PhotonSphere =>
      exists q, truediv 1.505 (R_r_s (spacetime self)) = Ok q /\
                is_nan q = false /\ is_nan (R_p (spacetime self)) = false
  | SingleMaximum =>
      exists m, mu (spacetime self) = Ok m /\ is_nan m = false
  | Gravity => True
  | ColatitudeOrder =>
      exists p s, Subspace.getitem ref "p__super_colatitude" = Ok p /\
                  Subspace.getitem ref "s__super_colatitude" = Ok s /\
                  is_nan p = false /\ is_nan s = false
  | NoOverlap =>
      exists a rp rs, ang_sep ref = Ok a /\
                      Subspace.getitem ref "p__super_radius" = Ok rp /\
                      Subspace.getitem ref "s__super_radius" = Ok rs /\
                      is_nan a = false /\ is_nan (rp + rs) = false
  end.

End Support.

(** ** Inverse sampling, as the specification describes it *)

Section Sampling.

Import Subspace.

Context `{Xpsi} `{Scipy} `{Libm} `{NumpyRandom}.

(** [ref'] is [ref] after at most one assignment, to [key]. *)
Definition touches (key : string) (ref ref' : ParameterSubspace) : Prop :=
  ref' = ref \/ exists v, ref' = update ref key v.

(** A parameter named [key] exists. *)
Definition present (ref : ParameterSubspace) (key : string) : Prop :=
  exists q, get_param ref key = Ok q.

(** The draw of a colatitude, as the specification writes it:
    acos(cos(b) + (cos(a) - cos(b)) * u). *)
Definition colatitude_draw (a b u : float) : result float :=
  ca <- math_cos a ;;
  cb <- math_cos b ;;
  math_acos (cb + (ca - cb) * u).

(** The location and scale of the draw of [PN__alpha]. *)
Definition PN_alpha_loc_scale (ref : ParameterSubspace) : float * float :=
  match getitem ref "XTI__alpha" with
  | Ok xti => (1.0 + 0.916 * (xti - 1.0), _cond_std_alpha)
  | Raise _ => (1.0, 0.104)
  end.

(** The five parameters [inverse_sample] always assigns. *)
Definition sampled_keys : list string :=
  ["distance"; "mass"; "cos_inclination";
   "p__super_colatitude"; "s__super_colatitude"].

Definition colatitude_keys : list string :=
  ["p__super_colatitude"; "s__super_colatitude"].

(** The seven parameters whose default draw [inverse_sample] replaces. *)
Definition overwritten_keys : list string :=
  sampled_keys ++ ["XTI__alpha"; "PN__alpha"].

(** What [inverse_sample] needs of the parameters and of the hypercube so as
    not to raise: a coordinate for every parameter, the parameters it always
    assigns, and no domain error of [math.cos] or [math.acos] in the draw of
    a colatitude. *)
Definition samplable (ref : ParameterSubspace) (hypercube : list float)
  : Prop :=
  (List.length ref <= List.length hypercube)%nat /\
  (forall key, In key sampled_keys -> present ref key) /\
  (forall key q idx u,
      In key colatitude_keys ->
      get_param ref key = Ok q -> index ref key = Ok idx ->
      nth_error hypercube idx = Some u ->
      returns (colatitude_draw (fst (bounds q)) (snd (bounds q)) u)).

(** The hypercube a call works on: the one it is given, or a fresh draw. *)
Definition hypercube_of (self : CustomPrior) (hypercube : option (list float))
  (state : rng) : list float * rng :=
  match hypercube with
  | None => random_rand (List.length (parameters self)) state
  | Some u => (u, state)
  end.

(** After a successful call: the container [ref'] the blocks produced, of
    which the call returns the vector, and which the restoration of the
    cache turns into the parameters left behind. *)
Record sampled (self self' : CustomPrior) (u : list float)
  (vec : list float) (ref' : ParameterSubspace) : Prop := {
  sampled_at : sample_at (parameters self) u = Ok ref';
  sampled_shape : map shape ref' = map shape (parameters self);
  sampled_parameters :
    parameters self' = restore_cache ref' (vector (parameters self));
  sampled_spacetime : spacetime self' = spacetime self;
  sampled_vector : vec = vector ref'
}.

(** The vector a call returns, or the exception it raises. *)
Definition output {S T : Type} (r : result (list float * S * T))
  : result (list float) :=
  '(v, _, _) <- r ;; Ok v.

End Sampling.

(** ** The density, as the specification describes it *)

Section DensitySpec.

Import Subspace.

Context `{Xpsi} `{Scipy} `{Libm}.

(** The exponent of the bivariate normal density of [x] and [y], both of
    mean [mu] and standard deviation [sigma], with correlation [rho]; the
    density is [exp (- exponent) / norm]. *)
Definition bivariate_normal_exponent (x y mu sigma rho : float) : float :=
  let a := (x - mu) / sigma in
  let b := (y - mu) / sigma in
  (a * a + b * b - 2.0 * rho * a * b) / (2.0 * (1.0 - rho * rho)).

Definition bivariate_normal_norm (sigma rho : float) : float :=
  2.0 * math_pi * sigma * sigma * sqrt (1.0 - rho * rho).

(** The skew-normal density of the distance. *)
Definition distance_factor (distance : float) : float :=
  skewnorm_pdf distance 1.7 1.002 0.227.

(** The truncated-normal density of the mass. *)
Definition mass_factor (mass : float) : float :=
  truncnorm_pdf mass (-5.0) 5.0 2.082 0.0703.

(** The truncated-normal density of cos(inclination) given the mass;
    [lower_bound] is the strict lower bound of cos(inclination).  The
    scale is the conditional standard deviation as the program
    precomputes it, sqrt ((1 - 0.8^2) 0.00304^2). *)
Definition cos_inclination_factor (cosi mass lower_bound : float) : float :=
  let location := 0.0427 + (0.00304 / 0.0703) * 0.800 * (mass - 2.082) in
  let scale := sqrt ((1.0 - 0.800 * 0.800) * 0.00304 * 0.00304) in
  truncnorm_pdf cosi (py_min (-10.0) ((lower_bound - location) / scale)) 10.0
                location scale.

(** The factor [exp (- exponent)] of the two instrument scale factors. *)
Definition alpha_factor (xti pn : float) : float :=
  libm_exp (-1.0 * bivariate_normal_exponent xti pn 1.0 0.104 0.916).

(** The bound the factors of the density are asked to respect: 2^64. *)
Definition factor_bound : float := 18446744073709551616.0.

(** A number in [0, 2^64]. *)
Definition bounded_factor (x : float) : Prop :=
  (0.0 <=? x) = true /\ (x <=? factor_bound) = true.

(** Every factor of the density, at the parameters held, is a number in
    [0, 2^64]. *)
Definition factors_bounded (ref : ParameterSubspace) : Prop :=
  (forall d, getitem ref "distance" = Ok d ->
             bounded_factor (distance_factor d)) /\
  (forall m, getitem ref "mass" = Ok m -> bounded_factor (mass_factor m)) /\
  (forall m q, getitem ref "mass" = Ok m ->
               get_param ref "cos_inclination" = Ok q ->
               bounded_factor
                 (cos_inclination_factor (value q) m
                                         (fst (strict_bounds q)))) /\
  (forall xti pn, getitem ref "XTI__alpha" = Ok xti ->
                  getitem ref "PN__alpha" = Ok pn ->
                  bounded_factor (alpha_factor xti pn)).

(** The parameters the support evaluator reads. *)
Definition call_keys : list string :=
  ["distance"; "radius"; "p__super_colatitude"; "s__super_colatitude";
   "p__phase_shift"; "s__phase_shift"; "p__super_radius"; "s__super_radius"].

(** The quantities the support evaluator derives from the spacetime are
    defined: [R_r_s] is not zero and [mu] is a number. *)
Definition spacetime_defined (ref : Spacetime) : Prop :=
  returns (truediv 1.505 (R_r_s ref)) /\ returns (mu ref).

End DensitySpec.

(** ** The support, in the words of the specification

    The quantities and the seven constraints written out from the
    specification, with its formulas and its numbers, independently of the
    definitions of the model above: what [__call__] computes is compared
    with them. *)

Section Claimed.

Context `{Xpsi}.

(** The normalised polar radius: R_p = 1 + epsilon (-0.788 + 1.030 zeta). *)
Definition polar_radius (st : Spacetime) : float :=
  1.0 + epsilon st * (-0.788 + 1.030 * zeta st).

(** The bound of the photon sphere: 1.505 / R_r_s. *)
Definition photon_sphere (st : Spacetime) : result float :=
  truediv 1.505 (R_r_s st).

(** mu = sqrt (-1 / (3 epsilon (-0.788 + 1.030 zeta))). *)
Definition maximum_mu (st : Spacetime) : result float :=
  quotient <- truediv (-1.0) (3.0 * epsilon st * (-0.788 + 1.030 * zeta st)) ;;
  math_sqrt quotient.

(** The effective gravity at the pole (cosine of the colatitude 1) and at
    the equator (cosine 0), from the radius, zeta and epsilon at each. *)
Definition surface_gravity (st : Spacetime) : list float :=
  effective_gravity [1.0; 0.0] [R st; R st] [zeta st; zeta st]
                    [epsilon st; epsilon st].

(** The angular separation of the two centres: the spherical distance of
    the secondary colatitude, the azimuth
    (primary phase shift - 0.5 - secondary phase shift) 2 pi, and the
    primary colatitude. *)
Definition separation (ref : ParameterSubspace) : result float :=
  primary <- Subspace.getitem ref "p__super_colatitude" ;;
  secondary <- Subspace.getitem ref "s__super_colatitude" ;;
  p_shift <- Subspace.getitem ref "p__phase_shift" ;;
  s_shift <- Subspace.getitem ref "s__phase_shift" ;;
  Ok (psi secondary ((p_shift - 0.5 - s_shift) * _2pi) primary).

(** The constraint, as the specification states it, is true. *)
Definition satisfied (self : CustomPrior) (c : constraint) : Prop :=
  let ref := parameters self in
  let st := spacetime self in
  match c with
  | Distance =>
      exists d, Subspace.getitem ref "distance" = Ok d /\
                (0.0 <? d) = true /\ (d <=? 1.7) = true
  | Radius =>
      exists r, Subspace.getitem ref "radius" = Ok r /\ (r <=? 16.0) = true
  | PhotonSphere =>
      exists bound, photon_sphere st = Ok bound /\
                    (polar_radius st >=? bound) = true
  | SingleMaximum =>
      exists m, maximum_mu st = Ok m /\ (m >=? 1.0) = true
  | Gravity =>
      Forall (fun g => (13.7 <=? g) = true /\ (g <=? 15.0) = true)
             (surface_gravity st)
  | ColatitudeOrder =>
      exists p s, Subspace.getitem ref "p__super_colatitude" = Ok p /\
                  Subspace.getitem ref "s__super_colatitude" = Ok s /\
                  (p <=? s) = true
  | NoOverlap =>
      exists a rp rs, separation ref = Ok a /\
                      Subspace.getitem ref "p__super_radius" = Ok rp /\
                      Subspace.getitem ref "s__super_radius" = Ok rs /\
                      (a >=? rp + rs) = true
  end.

(** The constraint, as the specification states it, is false of the
    quantities computed: the plain negation, which a NaN makes true. *)
Definition unsatisfied (self : CustomPrior) (c : constraint) : Prop :=
  let ref := parameters self in
  let st := spacetime self in
  match c with
  | Distance =>
      exists d, Subspace.getitem ref "distance" = Ok d /\
                (0.0 <? d) && (d <=? 1.7) = false
  | Radius =>
      exists r, Subspace.getitem ref "radius" = Ok r /\ (r <=? 16.0) = false
  | PhotonSphere =>
      exists bound, photon_sphere st = Ok bound /\
                    (polar_radius st >=? bound) = false
  | SingleMaximum =>
      exists m, maximum_mu st = Ok m /\ (m >=? 1.0) = false
  | Gravity =>
      Exists (fun g => (13.7 <=? g) && (g <=? 15.0) = false)
             (surface_gravity st)
  | ColatitudeOrder =>
      exists p s, Subspace.getitem ref "p__super_colatitude" = Ok p /\
                  Subspace.getitem ref "s__super_colatitude" = Ok s /\
                  (p <=? s) = false
  | NoOverlap =>
      exists a rp rs, separation ref = Ok a /\
                      Subspace.getitem ref "p__super_radius" = Ok rp /\
                      Subspace.getitem ref "s__super_radius" = Ok rs /\
                      (a >=? rp + rs) = false
  end.

(** The two sides of the comparison the constraint makes are numbers.
    Nothing is asked of the distance, the radius and the gravities. *)
Definition numbers (self : CustomPrior) (c : constraint) : Prop :=
  let ref := parameters self in
  let st := spacetime self in
  match c with
  | Distance | Radius | Gravity => True
  | PhotonSphere =>
      forall bound, photon_sphere st = Ok bound ->
                    is_nan bound = false /\ is_nan (polar_radius st) = false
  | SingleMaximum =>
      forall m, maximum_mu st = Ok m -> is_nan m = false
  | ColatitudeOrder =>
      forall p s, Subspace.getitem ref "p__super_colatitude" = Ok p ->
                  Subspace.getitem ref "s__super_colatitude" = Ok s ->
                  is_nan p = false /\ is_nan s = false
  | NoOverlap =>
      forall a rp rs, separation ref = Ok a ->
                      Subspace.getitem ref "p__super_radius" = Ok rp ->
                      Subspace.getitem ref "s__super_radius" = Ok rs ->
                      is_nan a = false /\ is_nan (rp + rs) = false
  end.

End Claimed.

(** ** What the collaborators are asked for the sign of the density *)

Section DensityContract.

Import Subspace.

Context `{Xpsi} `{Scipy} `{Libm}.

(** [x] is not a negative number: it is >= 0, or NaN. *)
Definition not_negative (x : float) : Prop := (x <? 0.0) = false.

(** No factor of the density, at the parameters held, is a negative
    number. *)
Definition factors_not_negative (ref : ParameterSubspace) : Prop :=
  (forall d, getitem ref "distance" = Ok d ->
             not_negative (distance_factor d)) /\
  (forall m, getitem ref "mass" = Ok m -> not_negative (mass_factor m)) /\
  (forall m q, getitem ref "mass" = Ok m ->
               get_param ref "cos_inclination" = Ok q ->
               not_negative
                 (cos_inclination_factor (value q) m
                                         (fst (strict_bounds q)))) /\
  (forall xti pn, getitem ref "XTI__alpha" = Ok xti ->
                  getitem ref "PN__alpha" = Ok pn ->
                  not_negative (alpha_factor xti pn)).

End DensityContract.

(** ** Predicates used in the proofs *)

Section Magnitude.

Open Scope Z_scope.

(** [x] is zero, or positive with [x < 2 ^ k]. *)
Definition below (k : Z) (x : spec_float) : Prop :=
  match x with
  | S754_zero _ => True
  | S754_finite false m e => Z.pos (digits2_pos m) + e <= k
  | _ => False
  end.

(** [x] is zero, infinite or finite, of sign [s] unless zero. *)
Definition signed (s : bool) (x : spec_float) : Prop :=
  match x with
  | S754_zero _ => True
  | S754_infinity s' | S754_finite s' _ _ => s' = s
  | S754_nan => False
  end.

End Magnitude.

Section Chain.

Context `{Xpsi} `{Scipy} `{Libm}.

(** The containers between the blocks of a successful [sample_at]. *)
Record chain (ref : ParameterSubspace) (u : list float)
  (r0 r1 r2 r3 r4 r5 r6 ref' : ParameterSubspace) : Prop := {
  base_step : Prior_inverse_sample u ref = Ok r0;
  distance_step : sample_distance r0 u = Ok r1;
  mass_step : sample_mass r1 u = Ok r2;
  cos_inclination_step : sample_cos_inclination r2 u = Ok r3;
  p_colatitude_step : sample_colatitude r3 "p__super_colatitude" u = Ok r4;
  s_colatitude_step : sample_colatitude r4 "s__super_colatitude" u = Ok r5;
  XTI_step : sample_XTI_alpha r5 u = Ok r6;
  PN_step : sample_PN_alpha r6 u = Ok ref'
}.

End Chain.

Section Sign.

(** [x] is NaN, zero, or a number of positive sign: not a negative number. *)
Definition not_neg (x : spec_float) : Prop :=
  match x with
  | S754_infinity s | S754_finite s _ _ => s = false
  | _ => True
  end.

End Sign.

(** ** The order of the checks, and the tests made on a NaN *)

(** The place of a constraint in the sequence of tests of [__call__]. *)
Definition rank (c : constraint) : nat :=
  match c with
  | Distance => 0
  | Radius => 1
  | PhotonSphere => 2
  | SingleMaximum => 3
  | Gravity => 4
  | ColatitudeOrder => 5
  | NoOverlap => 6
  end.

(** The constraints [__call__] tests as [not lo <= x <= hi]; the others it
    tests with one comparison, [x < y] or [x > y]. *)
Definition range_check (c : constraint) : bool :=
  match c with
  | Distance | Radius | Gravity => true
  | _ => false
  end.

Section NaN.

Context `{Xpsi}.

(** The quantities of the constraint are computed, one of them being NaN. *)
Definition on_nan (self : CustomPrior) (c : constraint) : Prop :=
  let ref := parameters self in
  match c with
  | Distance =>
      exists d, Subspace.getitem ref "distance" = Ok d /\ is_nan d = true
  | Radius =>
      exists r, Subspace.getitem ref "radius" = Ok r /\ is_nan r = true
  | PhotonSphere =>
      exists q, truediv 1.505 (R_r_s (spacetime self)) = Ok q /\
                (is_nan q = true \/ is_nan (R_p (spacetime self)) = true)
  | SingleMaximum =>
      exists m, mu (spacetime self) = Ok m /\ is_nan m = true
  | Gravity =>
      Exists (fun g => is_nan g = true) (grav (spacetime self))
  | ColatitudeOrder =>
      exists p s, Subspace.getitem ref "p__super_colatitude" = Ok p /\
                  Subspace.getitem ref "s__super_colatitude" = Ok s /\
                  (is_nan p = true \/ is_nan s = true)
  | NoOverlap =>
      exists a rp rs, ang_sep ref = Ok a /\
                      Subspace.getitem ref "p__super_radius" = Ok rp /\
                      Subspace.getitem ref "s__super_radius" = Ok rs /\
                      (is_nan a = true \/ is_nan (rp + rs) = true)
  end.

End NaN.

(** ** Containers that differ in their caches only *)

(** Two parameters of the same name, bounds, strict bounds and value. *)
Definition alike (q q' : Param) : Prop :=
  Subspace.shape q = Subspace.shape q' /\ value q = value q'.

(** Two results that raise the same exception, or return containers whose
    parameters are alike one by one. *)
Definition agree (c c' : result ParameterSubspace) : Prop :=
  match c, c' with
  | Ok r, Ok r' => Forall2 alike r r'
  | Raise e, Raise e' => e = e'
  | _, _ => False
  end.

(** ** What a block of [inverse_sample] raises, and the derived names *)

(** An IndexError, a ValueError, or a KeyError for the block's own key,
    which is absent. *)
Definition block_error (ref : ParameterSubspace) (key : string) (e : exn)
  : Prop :=
  e = IndexError \/ e = ValueError \/
  (e = KeyError key /\ ~ present ref key).

(** [CustomPrior.__derived_names__]: what [transform] appends. *)
Definition __derived_names__ : list string :=
  ["compactness"; "p__phase_shift_shifted"; "s__phase_shift_shifted"].

(** ** Stand-ins for the collaborators

    Simple instances of the interfaces and a parameter set of the ST-U
    model, to run the model on concrete inputs.  No theorem depends on
    them: each is stated for every instance. *)

Module Fixture.

Definition within_bounds (q : Param) : bool :=
  (fst (bounds q) <=? value q) && (value q <=? snd (bounds q)).

#[export] Instance xpsi : Xpsi := {|
  Prior__call__ := fun _ ref =>
    if forallb within_bounds ref then 0.0 else neg_infinity;
  Prior_inverse_sample_1 := fun q u =>
    fst (bounds q) + (snd (bounds q) - fst (bounds q)) * u;
  effective_gravity := fun _ _ zetas _ => map (fun z => 14.0 + z) zetas;
  psi := fun theta phi colatitude => abs (theta - colatitude) + abs phi;
  _2pi := 6.283185307179586;
  gravradius := fun M => 1.4766250385 * M
|}.

#[export] Instance scipy : Scipy := {|
  skewnorm_pdf := fun x a loc scale => (a + abs (x - loc)) / scale;
  skewnorm_ppf := fun q a loc scale => loc + scale * (q - 0.5);
  truncnorm_pdf := fun x a b loc scale => (b - a + abs (x - loc)) / scale;
  truncnorm_ppf := fun q a b loc scale => loc + scale * (a + (b - a) * q)
|}.

#[export] Instance libm : Libm := {|
  libm_cos := fun x => 1.0 - x * x / 2.0;
  libm_acos := fun x => 1.5707963267948966 - x;
  libm_exp := fun x => 1.0 / (1.0 - x)
|}.

(** A generator whose state is its next draw. *)
#[export] Instance numpy_random : NumpyRandom := {|
  rng := float;
  random_rand := fun n state => (repeat state n, state * 0.5)
|}.

Definition seed : @rng numpy_random := 0.5.
Definition seed' : @rng numpy_random := 0.25.

Definition param (key : string) (v lo hi : float) : Param :=
  {| name := key; value := v; cached := None;
     bounds := (lo, hi); strict_bounds := (lo, hi) |}.

(** The fifteen parameters of the docstring, in vector order. *)
Definition ref : ParameterSubspace :=
  [ param "mass" 2.082 1.0 3.0;
    param "radius" 12.0 4.0 16.0;
    param "distance" 1.0 0.0 1.7;
    param "cos_inclination" 0.0427 0.0 1.0;
    param "p__phase_shift" 0.0 (-0.25) 0.75;
    param "p__super_colatitude" 1.0 0.001 3.14;
    param "p__super_radius" 0.1 0.001 1.57;
    param "p__super_temperature" 6.0 5.1 6.8;
    param "s__phase_shift" 0.0 (-0.25) 0.75;
    param "s__super_colatitude" 2.0 0.001 3.14;
    param "s__super_radius" 0.1 0.001 1.57;
    param "s__super_temperature" 6.0 5.1 6.8;
    param "XTI__alpha" 1.0 0.1 1.9;
    param "column_density" 1.0 0.0 10.0;
    param "PN__alpha" 1.0 0.1 1.9 ].

Definition star : Spacetime :=
  {| epsilon := 0.05; zeta := 0.25; R := 12000.0; R_r_s := 2.0 |}.

Definition prior : CustomPrior := {| parameters := ref; spacetime := star |}.

(** The same parameters with the value of [key] replaced. *)
Definition with_value (key : string) (v : float) (self : CustomPrior)
  : CustomPrior :=
  {| parameters :=
       map (fun q => if String.eqb (name q) key
                     then Subspace.set_value q v else q) (parameters self);
     spacetime := spacetime self |}.

(** The same parameters without [key]. *)
Definition without (key : string) (self : CustomPrior) : CustomPrior :=
  {| parameters :=
       filter (fun q => negb (String.eqb (name q) key)) (parameters self);
     spacetime := spacetime self |}.

Definition with_spacetime (ref : Spacetime) (self : CustomPrior)
  : CustomPrior :=
  {| parameters := parameters self; spacetime := ref |}.

(** The same star with the primary hot region below the secondary one:
    outside the support, inside the bounds. *)
Definition outside : CustomPrior :=
  with_value "p__super_colatitude" 2.5 prior.

(** A spacetime for which [mu] is not a real number: the polar radius
    (3.178) is above the bound 1.505 / 0.5 = 3.01, and
    -1 / (3 * 9 * (-0.788 + 1.030)) is negative. *)
Definition beyond : Spacetime :=
  {| epsilon := 9.0; zeta := 1.0; R := 12000.0; R_r_s := 0.5 |}.

(** A spacetime without rotation. *)
Definition static : Spacetime :=
  {| epsilon := 0.0; zeta := 0.25; R := 12000.0; R_r_s := 2.0 |}.

(** A hypercube of the right length. *)
Definition hypercube : list float :=
  [0.5; 0.25; 0.75; 0.5; 0.1; 0.2; 0.3; 0.4; 0.5; 0.6; 0.7; 0.8; 0.9;
   0.35; 0.65].

End Fixture.

(** ** More concrete cases *)

Module Cases.

(** The stand-in for xpsi, with an angular separation that is never a
    number. *)
Definition blind : Xpsi := {|
  Prior__call__ := @Prior__call__ Fixture.xpsi;
  Prior_inverse_sample_1 := @Prior_inverse_sample_1 Fixture.xpsi;
  effective_gravity := @effective_gravity Fixture.xpsi;
  psi := fun _ _ _ => nan;
  _2pi := @_2pi Fixture.xpsi;
  gravradius := @gravradius Fixture.xpsi
|}.

(** A spacetime whose polar radius (3.178) is inside the photon sphere
    (1.505 / 0.4 = 3.7625), and for which [mu] is not a real number. *)
Definition inside_photon_sphere : Spacetime :=
  {| epsilon := 9.0; zeta := 1.0; R := 12000.0; R_r_s := 0.4 |}.

(** The spacetime of [Fixture.star] with a ratio [R_r_s] that is not a
    number. *)
Definition undefined_ratio : Spacetime :=
  {| epsilon := 0.05; zeta := 0.25; R := 12000.0; R_r_s := nan |}.

(** The parameters of [Fixture.ref] holding other values, with caches. *)
Definition moved : ParameterSubspace :=
  map (fun q => {| name := name q; value := value q + 0.125;
                   cached := Some 0.0; bounds := bounds q;
                   strict_bounds := strict_bounds q |}) Fixture.ref.

(** The parameters of [Fixture.ref] with the two instrument scale factors
    far out, inside wide bounds. *)
Definition far : CustomPrior :=
  {| parameters :=
       map (fun q => if String.eqb (name q) "XTI__alpha"
                        || String.eqb (name q) "PN__alpha"
                     then Fixture.param (name q) 1e200 0.1 1e300 else q)
           Fixture.ref;
     spacetime := Fixture.star |}.

End Cases.

(** ** Order on floats

    Facts about the comparisons of binary64 numbers, through their
    specification on [spec_float]. *)

Section FloatOrder.

Lemma compare_cont_flip (p q : positive) :
  Pos.compare_cont Eq q p = CompOpp (Pos.compare_cont Eq p q).
Proof. rewrite (Pos.compare_cont_antisym p q Eq); reflexivity. Qed.

Lemma SFcompare_antisym (x y : spec_float) (c : comparison) :
  SFcompare x y = Some c -> SFcompare y x = Some (CompOpp c).
Proof.
  destruct x as [sx | sx | | sx mx ex], y as [sy | sy | | sy my ey];
    cbn; try discriminate;
    try (intros E; injection E as <-; destruct sx; try destruct sy;
         reflexivity).
  intros E; injection E as <-; f_equal.
  rewrite (Z.compare_antisym ex ey), (compare_cont_flip mx my).
  destruct sx, sy; cbn; try reflexivity;
    destruct (ex ?= ey)%Z; cbn; try reflexivity;
    now rewrite CompOpp_involutive.
Qed.

Lemma leb_not_gtb (x y : float) : (x <=? y) = true -> (x >? y) = false.
Proof.
  unfold gtb; rewrite leb_spec, ltb_spec; unfold SFleb, SFltb.
  destruct (SFcompare (Prim2SF x) (Prim2SF y)) as [c |] eqn:E;
    [| discriminate].
  rewrite (SFcompare_antisym _ _ _ E).
  destruct c; cbn; congruence.
Qed.

Lemma geb_not_ltb (x y : float) : (x >=? y) = true -> (x <? y) = false.
Proof. unfold geb; intros L; exact (leb_not_gtb _ _ L). Qed.

Lemma SFcompare_refl (x : spec_float) :
  x <> S754_nan -> SFcompare x x = Some Eq.
Proof.
  destruct x as [s | s | | s m e]; cbn; try congruence; intros _.
  - destruct s; reflexivity.
  - rewrite Z.compare_refl, Pos.compare_cont_refl; destruct s; reflexivity.
Qed.

Lemma is_nan_false (x : float) :
  is_nan x = false <-> Prim2SF x <> S754_nan.
Proof.
  unfold is_nan; rewrite FloatAxioms.eqb_spec; unfold SFeqb; split.
  - intros E N; rewrite N in E; discriminate.
  - intros N; rewrite (SFcompare_refl _ N); reflexivity.
Qed.

(** A comparison with NaN is false whichever way it is asked. *)
Lemma ltb_number_l (x y : float) : (x <? y) = true -> is_nan x = false.
Proof.
  rewrite ltb_spec, is_nan_false; unfold SFltb.
  intros L N; rewrite N in L; discriminate.
Qed.

(** Among numbers the order is total: when [x >= y] fails, [x < y]. *)
Lemma not_geb_ltb (x y : float) :
  is_nan x = false -> is_nan y = false ->
  (x >=? y) = false -> (x <? y) = true.
Proof.
  rewrite !is_nan_false; unfold geb; rewrite leb_spec, ltb_spec.
  unfold SFleb, SFltb; intros Nx Ny.
  destruct (SFcompare (Prim2SF y) (Prim2SF x)) as [c |] eqn:E.
  - rewrite (SFcompare_antisym _ _ _ E); destruct c; cbn; congruence.
  - destruct (Prim2SF x), (Prim2SF y); cbn in *; congruence.
Qed.

End FloatOrder.

(** ** Rounding to binary64

    Facts about the specification of the arithmetic: the sign of a rounded
    result, and a bound on its magnitude that excludes overflow. *)

Section Rounding.

Open Scope Z_scope.

Lemma digits2_size (p : positive) : digits2_pos p = Pos.size p.
Proof. induction p; cbn; congruence. Qed.

Lemma digits2_bounds (p : positive) :
  2 ^ (Z.pos (digits2_pos p) - 1) <= Z.pos p < 2 ^ Z.pos (digits2_pos p).
Proof.
  rewrite digits2_size; split.
  - pose proof (Pos.size_le p) as L.
    apply Pos2Z.pos_le_pos in L; rewrite Pos2Z.inj_pow in L.
    change (Z.pos p~0) with (2 * Z.pos p) in L.
    replace (Z.pos (Pos.size p)) with (Z.succ (Z.pos (Pos.size p) - 1)) in L
      by lia.
    rewrite Z.pow_succ_r in L by lia; lia.
  - pose proof (Pos.size_gt p) as G.
    apply Pos2Z.pos_lt_pos in G; rewrite Pos2Z.inj_pow in G; exact G.
Qed.

Lemma Zdigits2_nonneg (m : Z) : 0 <= Zdigits2 m.
Proof. destruct m; cbn; lia. Qed.

(** The number of digits of a positive number is where it sits between two
    powers of two. *)
Lemma digits2_le (p : positive) (d : Z) :
  Z.pos p < 2 ^ d -> Z.pos (digits2_pos p) <= d.
Proof.
  intros U; destruct (digits2_bounds p) as (L & _).
  destruct (Z.le_gt_cases (Z.pos (digits2_pos p)) d) as [A | A];
    [exact A | exfalso].
  assert (2 ^ d <= 2 ^ (Z.pos (digits2_pos p) - 1))
    by (apply Z.pow_le_mono_r; lia).
  lia.
Qed.

Lemma digits2_mul (p q : positive) :
  Z.pos (digits2_pos (p * q))
  <= Z.pos (digits2_pos p) + Z.pos (digits2_pos q).
Proof.
  apply digits2_le; rewrite Pos2Z.inj_mul, Z.pow_add_r by lia.
  destruct (digits2_bounds p) as (_ & P), (digits2_bounds q) as (_ & Q).
  apply Z.mul_lt_mono_nonneg; lia.
Qed.

Lemma Zdigits2_succ (m : Z) : 0 <= m -> Zdigits2 (m + 1) <= Zdigits2 m + 1.
Proof.
  intros N; destruct m as [| p | p]; [cbn; lia | | lia].
  change (Z.pos p + 1) with (Z.pos (p + 1)); cbn [Zdigits2].
  apply digits2_le; destruct (digits2_bounds p) as (_ & U).
  rewrite Z.pow_add_r, Z.pow_1_r by lia; lia.
Qed.

(** *** Shifting right *)

Lemma shr_1_spec (mrs : shr_record) :
  0 <= shr_m mrs ->
  0 <= shr_m (shr_1 mrs) /\
  Zdigits2 (shr_m (shr_1 mrs)) = Z.max (Zdigits2 (shr_m mrs) - 1) 0.
Proof.
  destruct mrs as [m r s]; cbn [shr_m]; intros N.
  destruct m as [| [p | p |] | p];
    cbn [shr_1 shr_m Zdigits2 digits2_pos]; rewrite ?Pos2Z.inj_succ; lia.
Qed.

Lemma iter_shr_1_spec (n : positive) (mrs : shr_record) :
  0 <= shr_m mrs ->
  0 <= shr_m (SpecFloat.iter_pos shr_1 n mrs) /\
  Zdigits2 (shr_m (SpecFloat.iter_pos shr_1 n mrs))
  = Z.max (Zdigits2 (shr_m mrs) - Z.pos n) 0.
Proof.
  revert mrs; induction n as [n IH | n IH |]; intros mrs N; cbn.
  - destruct (shr_1_spec mrs N) as (N1 & D1).
    destruct (IH _ N1) as (N2 & D2); destruct (IH _ N2) as (N3 & D3).
    split; [exact N3 | rewrite D3, D2, D1; lia].
  - destruct (IH _ N) as (N2 & D2); destruct (IH _ N2) as (N3 & D3).
    split; [exact N3 | rewrite D3, D2; lia].
  - apply shr_1_spec, N.
Qed.

Lemma shr_spec (mrs : shr_record) (e n : Z) :
  0 <= shr_m mrs ->
  let '(mrs', e') := shr mrs e n in
  0 <= shr_m mrs' /\ e' = e + Z.max n 0 /\
  Zdigits2 (shr_m mrs') = Z.max (Zdigits2 (shr_m mrs) - Z.max n 0) 0.
Proof.
  intros N; pose proof (Zdigits2_nonneg (shr_m mrs)) as P.
  destruct n as [| n | n]; cbn [shr]; cbv beta iota.
  - repeat split; lia.
  - destruct (iter_shr_1_spec n mrs N) as (N' & D).
    repeat split; try assumption; try lia; rewrite D; lia.
  - repeat split; lia.
Qed.

Lemma shr_record_of_loc_m (m : Z) (l : location) :
  shr_m (shr_record_of_loc m l) = m.
Proof. destruct l as [| []]; reflexivity. Qed.

Lemma round_nearest_even_spec (m : Z) (l : location) :
  round_nearest_even m l = m \/ round_nearest_even m l = m + 1.
Proof.
  destruct l as [| []]; cbn; auto.
  destruct (Z.even m); auto.
Qed.

(** *** The rounded result *)

Lemma binary_round_aux_signed (s : bool) (m e : Z) (l : location) :
  0 <= m -> signed s (binary_round_aux prec emax s m e l).
Proof.
  intros N; unfold binary_round_aux, shr_fexp.
  pose proof (shr_spec (shr_record_of_loc m l) e
                (fexp prec emax (Zdigits2 m + e) - e)) as S1.
  destruct (shr (shr_record_of_loc m l) e _) as [mrs1 e1].
  rewrite shr_record_of_loc_m in S1; destruct (S1 N) as (N1 & _).
  set (m1 := round_nearest_even (shr_m mrs1) (loc_of_shr_record mrs1)).
  assert (M1 : 0 <= m1).
  { destruct (round_nearest_even_spec (shr_m mrs1) (loc_of_shr_record mrs1))
      as [E | E]; unfold m1; rewrite E; lia. }
  pose proof (shr_spec (shr_record_of_loc m1 loc_Exact) e1
                (fexp prec emax (Zdigits2 m1 + e1) - e1)) as S2.
  destruct (shr (shr_record_of_loc m1 loc_Exact) e1 _) as [mrs2 e2].
  cbn [shr_record_of_loc shr_m] in S2; destruct (S2 M1) as (N2 & _).
  destruct (shr_m mrs2) as [| p | p]; [exact I | | lia].
  destruct (e2 <=? emax - prec); reflexivity.
Qed.

Lemma binary_round_aux_below (m e k : Z) (l : location) :
  0 <= m -> Zdigits2 m + e <= k -> -1074 <= k -> k <= 971 ->
  below (k + 1) (binary_round_aux prec emax false m e l).
Proof.
  intros N B Lo Hi; unfold binary_round_aux, shr_fexp.
  pose proof (shr_spec (shr_record_of_loc m l) e
                (fexp prec emax (Zdigits2 m + e) - e)) as S1.
  destruct (shr (shr_record_of_loc m l) e _) as [mrs1 e1].
  rewrite shr_record_of_loc_m in S1; destruct (S1 N) as (N1 & E1 & D1).
  set (m1 := round_nearest_even (shr_m mrs1) (loc_of_shr_record mrs1)).
  assert (M1 : 0 <= m1 /\ Zdigits2 m1 <= Zdigits2 (shr_m mrs1) + 1).
  { destruct (round_nearest_even_spec (shr_m mrs1) (loc_of_shr_record mrs1))
      as [E | E]; unfold m1; rewrite E.
    - split; lia.
    - split; [lia | apply Zdigits2_succ, N1]. }
  destruct M1 as (M1 & D1').
  pose proof (shr_spec (shr_record_of_loc m1 loc_Exact) e1
                (fexp prec emax (Zdigits2 m1 + e1) - e1)) as S2.
  destruct (shr (shr_record_of_loc m1 loc_Exact) e1 _) as [mrs2 e2].
  cbn [shr_record_of_loc shr_m] in S2; destruct (S2 M1) as (N2 & E2 & D2).
  assert (F : forall x, fexp prec emax x = Z.max (x - 53) (-1074))
    by reflexivity.
  rewrite F in E1, D1, E2, D2.
  pose proof (Zdigits2_nonneg m) as Dm.
  destruct (shr_m mrs2) as [| p | p] eqn:P; cbn [below]; [exact I | | lia].
  cbn [Zdigits2] in D2.
  assert (Z.pos (digits2_pos p) + e2 <= k + 1) by lia.
  assert (e2 <= emax - prec) by (change (emax - prec) with 971; lia).
  apply Z.leb_le in H0; rewrite H0; cbn [below]; lia.
Qed.

End Rounding.
(** ** Products and quotients of non-negative floats *)

Section NonNegative.

Lemma mul_below (a b : Z) (x y : float) :
  (-1074 <= a + b)%Z -> (a + b <= 971)%Z ->
  below a (Prim2SF x) -> below b (Prim2SF y) ->
  below (a + b + 1) (Prim2SF (x * y)).
Proof.
  intros Lo Hi; rewrite mul_spec; unfold SF64mul.
  destruct (Prim2SF x) as [sx | sx | | [] mx ex],
           (Prim2SF y) as [sy | sy | | [] my ey];
    cbn [below SFmul]; try contradiction; try (intros; exact I).
  intros X Y; apply binary_round_aux_below; try lia.
  cbn [Zdigits2]; pose proof (digits2_mul mx my); lia.
Qed.

Lemma below_nonneg (k : Z) (x : float) :
  below k (Prim2SF x) -> (0.0 <=? x) = true.
Proof.
  rewrite leb_spec; change (Prim2SF 0.0) with (S754_zero false).
  destruct (Prim2SF x) as [s | s | | [] m e]; cbn; try contradiction;
    reflexivity.
Qed.

Lemma signed_nonneg (x : float) :
  signed false (Prim2SF x) -> (0.0 <=? x) = true.
Proof.
  rewrite leb_spec; change (Prim2SF 0.0) with (S754_zero false).
  destruct (Prim2SF x) as [s | s | | s m e]; cbn; try contradiction;
    try reflexivity; intros ->; reflexivity.
Qed.

Lemma bounded_factor_below (x : float) :
  bounded_factor x -> below 65 (Prim2SF x).
Proof.
  intros (Lo & Hi); pose proof (Prim2SF_valid x) as V.
  rewrite leb_spec in Lo, Hi.
  change (Prim2SF 0.0) with (S754_zero false) in Lo.
  change (Prim2SF factor_bound)
    with (S754_finite false 4503599627370496 12) in Hi.
  destruct (Prim2SF x) as [s | s | | s m e]; unfold below.
  - exact I.
  - destruct s; unfold SFleb, SFcompare in Lo, Hi; discriminate.
  - unfold SFleb, SFcompare in Lo; discriminate.
  - destruct s; [unfold SFleb, SFcompare in Lo; discriminate |].
    unfold SpecFloat.valid_binary, bounded, canonical_mantissa in V.
    apply andb_prop in V as (C & _); apply Z.eqb_eq in C.
    change (fexp prec emax (Z.pos (digits2_pos m) + e))
      with (Z.max (Z.pos (digits2_pos m) + e - 53) (-1074)) in C.
    unfold SFleb, SFcompare in Hi.
    destruct (Z.compare_spec e 12) as [E | E | E]; [lia | lia | discriminate].
Qed.

(** The quotient of a non-negative finite number by a positive one is not
    negative (and is a number). *)
Lemma div_signed (k : Z) (x y : float) :
  below k (Prim2SF x) -> (0.0 <? y) = true -> is_finite y = true ->
  signed false (Prim2SF (x / y)).
Proof.
  intros X; rewrite div_spec, ltb_spec; unfold SF64div, is_finite.
  change (Prim2SF 0.0) with (S754_zero false).
  intros P F.
  assert (Y : exists my ey, Prim2SF y = S754_finite false my ey).
  { destruct (Prim2SF y) as [s | s | | s my ey] eqn:E; cbn in P;
      try discriminate.
    - exfalso; destruct s; [discriminate |].
      assert (y = infinity).
      { apply Prim2SF_inj; rewrite E; reflexivity. }
      subst y; vm_compute in F; discriminate.
    - destruct s; [discriminate |]; eauto. }
  destruct Y as (my & ey & ->).
  destruct (Prim2SF x) as [sx | sx | | [] mx ex]; cbn [below SFdiv] in *;
    try contradiction; [exact I |].
  unfold SFdiv_core_binary.
  set (s := (ex - ey - _)%Z).
  set (m' := match s with
             | 0%Z => Z.pos mx
             | Z.pos _ => Z.shiftl (Z.pos mx) s
             | Z.neg _ => 0%Z
             end).
  assert (M : (0 <= m')%Z).
  { unfold m'; destruct s; try lia; apply Z.shiftl_nonneg; lia. }
  pose proof (Z.div_pos m' (Z.pos my) M ltac:(lia)) as Q.
  unfold Z.div in Q.
  destruct (Z.div_eucl m' (Z.pos my)) as [q r]; cbn [xorb].
  apply binary_round_aux_signed, Q.
Qed.

End NonNegative.
(** ** Two exact operations *)

Section Exact.

Open Scope Z_scope.

Lemma digits2_ge (p : positive) (d : Z) :
  2 ^ (d - 1) <= Z.pos p -> d <= Z.pos (digits2_pos p).
Proof.
  intros L; destruct (digits2_bounds p) as (_ & U).
  destruct (Z.le_gt_cases d (Z.pos (digits2_pos p))) as [A | A];
    [exact A | exfalso].
  assert (2 ^ Z.pos (digits2_pos p) <= 2 ^ (d - 1))
    by (apply Z.pow_le_mono_r; lia).
  lia.
Qed.

Lemma digits2_shift (p : positive) (n : Z) :
  0 <= n ->
  forall q, Z.pos q = 2 ^ n * Z.pos p ->
            Z.pos (digits2_pos q) = Z.pos (digits2_pos p) + n.
Proof.
  intros N q E; destruct (digits2_bounds p) as (L & U).
  apply Z.le_antisymm.
  - apply digits2_le; rewrite E, Z.pow_add_r by lia.
    rewrite Z.mul_comm; apply Z.mul_lt_mono_pos_r; lia.
  - apply digits2_ge; rewrite E.
    replace (Z.pos (digits2_pos p) + n - 1)
      with (n + (Z.pos (digits2_pos p) - 1)) by lia.
    rewrite Z.pow_add_r by lia.
    apply Z.mul_le_mono_nonneg_l; lia.
Qed.

(** A canonical mantissa and exponent are what rounding returns for them. *)
Lemma binary_round_aux_canonical (s : bool) (m : positive) (e : Z) :
  bounded prec emax m e = true ->
  binary_round_aux prec emax s (Z.pos m) e loc_Exact = S754_finite s m e.
Proof.
  unfold bounded, canonical_mantissa; intros B.
  apply andb_prop in B as (C & B); apply Z.eqb_eq in C.
  unfold binary_round_aux, shr_fexp; cbn [Zdigits2].
  rewrite C, Z.sub_diag; cbn [shr shr_record_of_loc shr_m loc_of_shr_record
                                round_nearest_even Zdigits2].
  rewrite C, Z.sub_diag; cbn [shr shr_record_of_loc shr_m].
  rewrite B; reflexivity.
Qed.

End Exact.

Section ExactFloat.

(** Multiplying by 1.0 changes nothing. *)
Lemma mul_1_l (x : float) : 1.0 * x = x.
Proof.
  apply Prim2SF_inj; rewrite mul_spec; unfold SF64mul.
  change (Prim2SF 1.0) with (S754_finite false 4503599627370496 (-52)).
  pose proof (Prim2SF_valid x) as V.
  destruct (Prim2SF x) as [s | s | | s m e]; try reflexivity.
  unfold SFmul; cbn [xorb].
  unfold SpecFloat.valid_binary in V.
  assert (B := V); unfold bounded, canonical_mantissa in B.
  apply andb_prop in B as (C & B); apply Z.eqb_eq in C.
  assert (D : Z.pos (digits2_pos (4503599627370496 * m))
              = (Z.pos (digits2_pos m) + 52)%Z).
  { apply digits2_shift; [lia |]; rewrite Pos2Z.inj_mul; reflexivity. }
  unfold binary_round_aux at 1, shr_fexp at 1; cbn [Zdigits2].
  rewrite D.
  replace (Z.pos (digits2_pos m) + 52 + (-52 + e))%Z
    with (Z.pos (digits2_pos m) + e)%Z by lia.
  rewrite C.
  replace (e - (-52 + e))%Z with 52%Z by lia.
  cbn [shr shr_record_of_loc].
  replace (SpecFloat.iter_pos shr_1 52
             {| shr_m := Z.pos (4503599627370496 * m);
                shr_r := false; shr_s := false |})
    with {| shr_m := Z.pos m; shr_r := false; shr_s := false |}
    by (cbv; reflexivity).
  cbn [shr_m loc_of_shr_record round_nearest_even].
  replace (-52 + e + 52)%Z with e by lia.
  unfold shr_fexp; cbn [Zdigits2].
  rewrite C, Z.sub_diag; cbn [shr shr_record_of_loc shr_m].
  rewrite B; reflexivity.
Qed.

End ExactFloat.
(** ** Subtracting 1.0 from a phase above one half *)

Section Fold.

Lemma iter_xO (p k : positive) :
  Z.pos (Pos.iter xO k p) = (2 ^ Z.pos p * Z.pos k)%Z.
Proof.
  induction p as [| p IH] using Pos.peano_ind.
  - reflexivity.
  - rewrite Pos.iter_succ, Pos2Z.inj_xO, IH, Pos2Z.inj_succ.
    rewrite Z.pow_succ_r by lia; lia.
Qed.

(** Between one half and one a double is [m * 2^-53] with
    [2^52 < m < 2^53]. *)
Lemma half_to_one (v : float) :
  (0.5 <? v) = true -> (v <? 1.0) = true ->
  exists m, Prim2SF v = S754_finite false m (-53) /\
            (4503599627370496 < Z.pos m < 9007199254740992)%Z.
Proof.
  rewrite !ltb_spec; pose proof (Prim2SF_valid v) as V.
  change (Prim2SF 0.5) with (S754_finite false 4503599627370496 (-53)).
  change (Prim2SF 1.0) with (S754_finite false 4503599627370496 (-52)).
  destruct (Prim2SF v) as [s | s | | s m e]; unfold SFltb, SFcompare;
    try discriminate.
  - destruct s; discriminate.
  - destruct s; [discriminate |].
    unfold SpecFloat.valid_binary, bounded, canonical_mantissa in V.
    apply andb_prop in V as (C & _); apply Z.eqb_eq in C.
    change (fexp prec emax (Z.pos (digits2_pos m) + e))
      with (Z.max (Z.pos (digits2_pos m) + e - 53) (-1074)) in C.
    destruct (digits2_bounds m) as (L & U).
    rewrite !Pos.compare_cont_spec; unfold Pos.switch_Eq.
    destruct (Z.compare_spec (-53) e) as [E | E | E]; try discriminate;
      destruct (Z.compare_spec e (-52)) as [F | F | F]; try discriminate;
      try lia.
    + subst e.
      destruct (Pos.compare_spec 4503599627370496 m) as [A | A | A];
        try discriminate.
      intros _ _; exists m; split; [reflexivity |].
      apply Pos2Z.pos_lt_pos in A.
      replace (Z.pos (digits2_pos m)) with 53%Z in U by lia.
      change (2 ^ 53)%Z with 9007199254740992%Z in U; lia.
    + subst e.
      destruct (Pos.compare_spec m 4503599627370496) as [A | A | A];
        try discriminate.
      exfalso; apply Pos2Z.pos_lt_pos in A.
      replace (Z.pos (digits2_pos m) - 1)%Z with 52%Z in L by lia.
      change (2 ^ 52)%Z with 4503599627370496%Z in L; lia.
Qed.

(** For such a double, [v - 1.0] is exact: a negative double above
    [-0.5]. *)
Lemma sub_1_half_to_one (v : float) :
  (0.5 <? v) = true -> (v <? 1.0) = true ->
  exists k e, Prim2SF (v - 1.0) = S754_finite true k e /\ (e < -53)%Z.
Proof.
  intros Lo Hi; destruct (half_to_one v Lo Hi) as (m & E & M1 & M2).
  rewrite sub_spec, E; unfold SF64sub.
  change (Prim2SF 1.0) with (S754_finite false 4503599627370496 (-52)).
  unfold SFsub.
  change (IntDef.Z.min (-53) (-52)) with (-53)%Z.
  cbv zeta; unfold shl_align.
  change (-53 - -53)%Z with 0%Z; change (-53 - -52)%Z with (-1)%Z.
  cbv beta iota; unfold cond_Zopp, fst.
  change (PosDef.Pos.iter xO 4503599627370496%positive 1)
    with 9007199254740992%positive.
  destruct (Z.pos m - 9007199254740992)%Z as [| k | k] eqn:K; try lia.
  assert (K1 : (Z.pos k < 4503599627370496)%Z) by lia.
  unfold binary_normalize, binary_round.
  assert (D : (Z.pos (digits2_pos k) <= 52)%Z).
  { apply digits2_le; change (2 ^ 52)%Z with 4503599627370496%Z; exact K1. }
  change (fexp prec emax (Z.pos (digits2_pos k) + -53))
    with (Z.max (Z.pos (digits2_pos k) + -53 - 53) (-1074)).
  replace (Z.max (Z.pos (digits2_pos k) + -53 - 53) (-1074))
    with (Z.pos (digits2_pos k) - 106)%Z by lia.
  unfold shl_align.
  destruct (Z.pos (digits2_pos k) - 106 - -53)%Z as [| p | p] eqn:P;
    try lia.
  assert (S : Z.pos (digits2_pos (Pos.iter xO k p)) = 53%Z).
  { rewrite (digits2_shift k (Z.pos p)); [lia | lia | apply iter_xO]. }
  exists (Pos.iter xO k p), (Z.pos (digits2_pos k) - 106)%Z.
  split; [| lia].
  apply binary_round_aux_canonical.
  unfold bounded, canonical_mantissa; rewrite S.
  change (fexp prec emax (53 + (Z.pos (digits2_pos k) - 106)))
    with (Z.max (53 + (Z.pos (digits2_pos k) - 106) - 53) (-1074)).
  apply andb_true_intro; split.
  - apply Z.eqb_eq; lia.
  - apply Z.leb_le; change (emax - prec)%Z with 971%Z; lia.
Qed.

Lemma not_gtb_leb (x y : float) :
  is_nan x = false -> is_nan y = false ->
  (x >? y) = false -> (x <=? y) = true.
Proof.
  intros Nx Ny G; destruct (x <=? y) eqn:L; [reflexivity |].
  unfold gtb in G; rewrite (not_geb_ltb y x Ny Nx L) in G; discriminate.
Qed.

Lemma leb_number_r (x y : float) : (x <=? y) = true -> is_nan y = false.
Proof.
  rewrite leb_spec, is_nan_false; unfold SFleb.
  intros L N; rewrite N in L; destruct (Prim2SF x); discriminate.
Qed.

End Fold.
(** ** The parameter container: lookups after assignments *)

Section SubspaceFacts.

Import Subspace.

Lemma get_param_name (ref : ParameterSubspace) (key : string) (q : Param) :
  get_param ref key = Ok q -> name q = key.
Proof.
  induction ref as [| q0 ref IH]; cbn; [discriminate |].
  destruct (String.eqb (name q0) key) eqn:E; [| exact IH].
  intros [= <-]; apply String.eqb_eq, E.
Qed.

Lemma get_param_index (ref : ParameterSubspace) (key : string) (q : Param) :
  get_param ref key = Ok q ->
  exists i, index ref key = Ok i /\ nth_error ref i = Some q.
Proof.
  induction ref as [| q0 ref IH]; cbn; [discriminate |].
  destruct (String.eqb (name q0) key).
  - intros [= <-]; exists O; split; reflexivity.
  - intros G; destruct (IH G) as (i & -> & N); exists (S i); split;
      [reflexivity | exact N].
Qed.

Lemma index_get_param (ref : ParameterSubspace) (key : string) (i : nat) :
  index ref key = Ok i ->
  exists q, get_param ref key = Ok q /\ nth_error ref i = Some q.
Proof.
  revert i; induction ref as [| q0 ref IH]; cbn; [discriminate |]; intros i.
  destruct (String.eqb (name q0) key).
  - intros [= <-]; exists q0; split; reflexivity.
  - destruct (index ref key) as [j |] eqn:E; cbn; [| discriminate].
    intros [= <-]; exact (IH j eq_refl).
Qed.

Lemma get_param_missing (ref : ParameterSubspace) (key : string) (e : exn) :
  get_param ref key = Raise e ->
  e = KeyError key /\ index ref key = Raise (KeyError key) /\
  forall v, setitem ref key v = Raise (KeyError key).
Proof.
  induction ref as [| q0 ref IH]; cbn.
  - intros [= <-]; repeat split.
  - destruct (String.eqb (name q0) key); [discriminate |].
    intros G; destruct (IH G) as (-> & -> & S); repeat split.
    intros v; rewrite S; reflexivity.
Qed.

Lemma getitem_missing (ref : ParameterSubspace) (key : string) (e : exn) :
  getitem ref key = Raise e -> get_param ref key = Raise (KeyError key).
Proof.
  unfold getitem; destruct (get_param ref key) as [q | e'] eqn:G; cbn;
    [discriminate |].
  intros _; destruct (get_param_missing _ _ _ G) as (-> & _); reflexivity.
Qed.

Lemma getitem_KeyError (ref : ParameterSubspace) (key : string) (e : exn) :
  getitem ref key = Raise e -> e = KeyError key.
Proof.
  unfold getitem; destruct (get_param ref key) as [q | e'] eqn:G; cbn;
    [discriminate |].
  intros [= <-]; destruct (get_param_missing _ _ _ G) as (-> & _); reflexivity.
Qed.

Lemma index_lt (ref : ParameterSubspace) (key : string) (i : nat) :
  index ref key = Ok i -> (i < List.length ref)%nat.
Proof.
  intros I; destruct (index_get_param _ _ _ I) as (q & _ & N).
  apply nth_error_Some; congruence.
Qed.

Lemma setitem_update (ref : ParameterSubspace) (key : string) (v : float) :
  setitem ref key v = (_ <- get_param ref key ;; Ok (update ref key v)).
Proof.
  induction ref as [| q0 ref IH]; cbn; [reflexivity |].
  destruct (String.eqb (name q0) key); [reflexivity |].
  rewrite IH; destruct (get_param ref key); reflexivity.
Qed.

Lemma get_param_update_same
  (ref : ParameterSubspace) (key : string) (v : float) (q : Param) :
  get_param ref key = Ok q ->
  get_param (update ref key v) key = Ok (set_value q v).
Proof.
  induction ref as [| q0 ref IH]; cbn; [discriminate |].
  destruct (String.eqb (name q0) key) eqn:E; cbn.
  - rewrite E; intros [= <-]; reflexivity.
  - rewrite E; exact IH.
Qed.

Lemma get_param_update_other
  (ref : ParameterSubspace) (key key' : string) (v : float) :
  String.eqb key key' = false ->
  get_param (update ref key v) key' = get_param ref key'.
Proof.
  intros D; induction ref as [| q0 ref IH]; cbn; [reflexivity |].
  destruct (String.eqb (name q0) key) eqn:E; cbn.
  - apply String.eqb_eq in E; rewrite E, D; reflexivity.
  - rewrite IH; reflexivity.
Qed.

Lemma shape_update (ref : ParameterSubspace) (key : string) (v : float) :
  map shape (update ref key v) = map shape ref.
Proof.
  induction ref as [| q0 ref IH]; cbn; [reflexivity |].
  destruct (String.eqb (name q0) key); cbn; [reflexivity |].
  rewrite IH; reflexivity.
Qed.

(** Containers of the same shape answer [index] alike and find parameters
    of the same shape under a key. *)
Lemma shape_index (ref ref' : ParameterSubspace) (key : string) :
  map shape ref' = map shape ref -> index ref' key = index ref key.
Proof.
  revert ref'; induction ref as [| q0 ref IH]; intros [| q0' ref']; cbn;
    try discriminate; [reflexivity |].
  intros [= N _ _ S]; rewrite N, (IH _ S); reflexivity.
Qed.

Lemma shape_get_param
  (ref ref' : ParameterSubspace) (key : string) (q : Param) :
  map shape ref' = map shape ref -> get_param ref key = Ok q ->
  exists q', get_param ref' key = Ok q' /\ shape q' = shape q.
Proof.
  revert ref'; induction ref as [| q0 ref IH]; intros [| q0' ref']; cbn;
    try discriminate.
  intros [= N B SB S]; rewrite N.
  destruct (String.eqb (name q0) key).
  - intros [= <-]; exists q0'; split; [reflexivity |].
    unfold shape; congruence.
  - apply IH, S.
Qed.

Lemma shape_missing (ref ref' : ParameterSubspace) (key : string) (e : exn) :
  map shape ref' = map shape ref -> get_param ref key = Raise e ->
  get_param ref' key = Raise e.
Proof.
  revert ref'; induction ref as [| q0 ref IH]; intros [| q0' ref']; cbn;
    try discriminate; [intros _ E; exact E |].
  intros [= N _ _ S]; rewrite N.
  destruct (String.eqb (name q0) key); [discriminate | apply IH, S].
Qed.

Lemma shape_length (ref ref' : ParameterSubspace) :
  map shape ref' = map shape ref -> List.length ref' = List.length ref.
Proof.
  intros S; rewrite <- (length_map shape ref'), S; apply length_map.
Qed.

(** The vector holds, at the index of a key, the value found under it. *)
Lemma vector_index
  (ref : ParameterSubspace) (key : string) (i : nat) (v : float) :
  index ref key = Ok i -> getitem ref key = Ok v ->
  nth_error (vector ref) i = Some v.
Proof.
  intros I G; destruct (index_get_param _ _ _ I) as (q & P & N).
  unfold getitem in G; rewrite P in G; injection G as <-.
  unfold vector; apply map_nth_error, N.
Qed.

End SubspaceFacts.
(** ** The functions of the [math] module *)

Section MathFacts.

Lemma math_1_value (func : float -> float) (can_overflow : bool) (x r : float) :
  math_1 func can_overflow x = Ok r -> r = func x.
Proof.
  unfold math_1.
  destruct (is_nan (func x) && negb (is_nan x)); [discriminate |].
  destruct (is_infinity (func x) && is_finite x); [discriminate |].
  intros [= <-]; reflexivity.
Qed.

(** The square root of a negative number is a domain error. *)
Lemma math_sqrt_negative (x : float) :
  (x <? 0.0) = true -> math_sqrt x = Raise ValueError.
Proof.
  intros N; unfold math_sqrt, math_1.
  assert (R : is_nan (sqrt x) = true).
  { unfold is_nan; rewrite FloatAxioms.eqb_spec, sqrt_spec.
    rewrite ltb_spec in N; change (Prim2SF 0.0) with (S754_zero false) in N.
    unfold SF64sqrt, SFsqrt.
    destruct (Prim2SF x) as [s | s | | s m e]; unfold SFltb, SFcompare in N;
      try discriminate; destruct s; try discriminate; reflexivity. }
  rewrite R, (ltb_number_l _ _ N); reflexivity.
Qed.

End MathFacts.

(** ** Products and quotients of floats that are not negative *)

Section NotNegative.

Lemma not_negative_spec (x : float) :
  not_negative x <-> not_neg (Prim2SF x).
Proof.
  unfold not_negative; rewrite ltb_spec.
  change (Prim2SF 0.0) with (S754_zero false).
  destruct (Prim2SF x) as [s | [] | | [] m e]; cbn; split;
    try reflexivity; try discriminate; intros; exact I.
Qed.

Lemma signed_not_neg (x : spec_float) : signed false x -> not_neg x.
Proof. destruct x; cbn; auto. Qed.

Lemma mul_not_negative (x y : float) :
  not_negative x -> not_negative y -> not_negative (x * y).
Proof.
  rewrite !not_negative_spec, mul_spec; unfold SF64mul.
  destruct (Prim2SF x) as [sx | sx | | sx mx ex],
           (Prim2SF y) as [sy | sy | | sy my ey];
    cbn [not_neg SFmul]; try (intros; exact I);
    try (intros -> ->; reflexivity); try (intros -> _; reflexivity).
  intros -> ->; cbn [xorb].
  apply signed_not_neg, binary_round_aux_signed; lia.
Qed.

Lemma div_not_negative (x y : float) :
  not_negative x -> (0.0 <? y) = true -> is_finite y = true ->
  not_negative (x / y).
Proof.
  rewrite !not_negative_spec, div_spec, ltb_spec; unfold SF64div, is_finite.
  change (Prim2SF 0.0) with (S754_zero false).
  intros X P F.
  assert (Y : exists my ey, Prim2SF y = S754_finite false my ey).
  { destruct (Prim2SF y) as [s | s | | s my ey] eqn:E; cbn in P;
      try discriminate.
    - exfalso; destruct s; [discriminate |].
      assert (y = infinity).
      { apply Prim2SF_inj; rewrite E; reflexivity. }
      subst y; vm_compute in F; discriminate.
    - destruct s; [discriminate |]; eauto. }
  destruct Y as (my & ey & ->).
  destruct (Prim2SF x) as [sx | sx | | sx mx ex]; cbn [not_neg SFdiv] in *;
    try exact I; [subst sx; reflexivity |].
  subst sx; unfold SFdiv_core_binary.
  set (s := (ex - ey - _)%Z).
  set (m' := match s with
             | 0%Z => Z.pos mx
             | Z.pos _ => Z.shiftl (Z.pos mx) s
             | Z.neg _ => 0%Z
             end).
  assert (M : (0 <= m')%Z).
  { unfold m'; destruct s; try lia; apply Z.shiftl_nonneg; lia. }
  pose proof (Z.div_pos m' (Z.pos my) M ltac:(lia)) as Q.
  unfold Z.div in Q.
  destruct (Z.div_eucl m' (Z.pos my)) as [q r]; cbn [xorb].
  apply signed_not_neg, binary_round_aux_signed, Q.
Qed.

End NotNegative.

(** ** The support evaluator *)

Section CallFacts.

Context `{Xpsi}.

Lemma in_limits_no_exit (gs : list float) :
  Forall (fun g => (13.7 <=? g) = true /\ (g <=? 15.0) = true) gs ->
  existsb (fun g => negb (in_NSX_limits g)) gs = false.
Proof.
  induction 1 as [| g gs [Lo Hi] _ IH]; cbn; [reflexivity |].
  unfold in_NSX_limits at 1; rewrite Lo, Hi, IH; reflexivity.
Qed.

Lemma off_limits_exit (gs : list float) :
  Exists (fun g => (13.7 <=? g) && (g <=? 15.0) = false) gs ->
  existsb (fun g => negb (in_NSX_limits g)) gs = true.
Proof.
  induction 1 as [g gs Out | g gs _ IH]; cbn.
  - unfold in_NSX_limits; rewrite Out; reflexivity.
  - rewrite IH; apply orb_true_r.
Qed.

(** A constraint cannot both hold and be violated. *)
Lemma violated_not_holds (self : CustomPrior) (c : constraint) :
  violated self c -> ~ holds self c.
Proof.
  destruct c; cbn.
  - intros (d & E & V) (d' & E' & Lo & Hi).
    assert (d' = d) as -> by congruence.
    rewrite Lo, Hi in V; discriminate.
  - intros (r & E & V) (r' & E' & L).
    assert (r' = r) as -> by congruence; congruence.
  - intros (q & E & V) (q' & E' & L%geb_not_ltb).
    assert (q' = q) as -> by congruence; congruence.
  - intros (m & E & V) (m' & E' & L%geb_not_ltb).
    assert (m' = m) as -> by congruence; congruence.
  - intros V A; apply off_limits_exit in V; apply in_limits_no_exit in A.
    congruence.
  - intros (p & s & Ep & Es & V) (p' & s' & Ep' & Es' & L%leb_not_gtb).
    assert (p' = p) as -> by congruence.
    assert (s' = s) as -> by congruence.
    unfold gtb in L; congruence.
  - intros (a & rp & rs & Ea & Ep & Es & V)
           (a' & rp' & rs' & Ea' & Ep' & Es' & L%geb_not_ltb).
    assert (a' = a) as -> by congruence.
    assert (rp' = rp) as -> by congruence.
    assert (rs' = rs) as -> by congruence; congruence.
Qed.

Lemma limits_decided (gs : list float) :
  Forall (fun g => (13.7 <=? g) = true /\ (g <=? 15.0) = true) gs \/
  Exists (fun g => (13.7 <=? g) && (g <=? 15.0) = false) gs.
Proof.
  induction gs as [| g gs [IH | IH]].
  - left; constructor.
  - destruct ((13.7 <=? g) && (g <=? 15.0)) eqn:E.
    + apply andb_prop in E; left; constructor; assumption.
    + right; constructor; exact E.
  - right; constructor 2; exact IH.
Qed.

(** A constraint whose quantities are computed and are numbers either
    holds or is violated. *)
Lemma holds_or_violated (self : CustomPrior) (c : constraint) :
  computed self c -> holds self c \/ violated self c.
Proof.
  destruct c; unfold computed, holds, violated.
  - intros (d & E); destruct ((0.0 <? d) && (d <=? 1.7)) eqn:B.
    + apply andb_prop in B; left; exists d; tauto.
    + right; exists d; tauto.
  - intros (r & E); destruct (r <=? 16.0) eqn:B; [left | right];
      exists r; tauto.
  - intros (q & E & Nq & Np).
    destruct (R_p (spacetime self) >=? q) eqn:B.
    + left; exists q; tauto.
    + right; exists q; split; [exact E | apply not_geb_ltb; assumption].
  - intros (m & E & Nm); destruct (m >=? 1.0) eqn:B.
    + left; exists m; tauto.
    + right; exists m; split; [exact E |].
      apply not_geb_ltb; [exact Nm | reflexivity | exact B].
  - intros _; apply limits_decided.
  - intros (p & s & Ep & Es & Np & Ns); destruct (p <=? s) eqn:B.
    + left; exists p, s; tauto.
    + right; exists p, s; repeat split; try assumption.
      apply (not_geb_ltb s p); assumption.
  - intros (a & rp & rs & Ea & Ep & Es & Na & Nr).
    destruct (a >=? rp + rs) eqn:B.
    + left; exists a, rp, rs; tauto.
    + right; exists a, rp, rs; repeat split; try assumption.
      apply not_geb_ltb; assumption.
Qed.

End CallFacts.

(** Rewrite with the value a lookup or a derived quantity is known to have,
    and run the code up to the next test. *)
Ltac known :=
  repeat match goal with
         | E : ?c = Ok _ |- context [bind ?c _] => rewrite E; cbn [bind]
         | E : ?b = true |- context [if ?b then _ else _] => rewrite E
         | E : ?b = false |- context [if ?b then _ else _] => rewrite E
         | E : ?b = true |- context [negb ?b] => rewrite E; cbn [negb]
         | E : ?b = false |- context [negb ?b] => rewrite E; cbn [negb]
         | E : ?b = true |- context [?b && _] => rewrite E; cbn [andb]
         end.

Section CallSupport.

Context `{Xpsi}.

Variable self : CustomPrior.
Variable p : option (list float).
Hypothesis base_finite :
  is_finite (Prior__call__ p (parameters self)) = true.

Lemma call_admissible :
  (forall c, holds self c) -> __call__ self p = Ok 0.0.
Proof.
  intros A.
  destruct (A Distance) as (d & Ed & Lo & Hi).
  destruct (A Radius) as (r & Er & Lr).
  destruct (A PhotonSphere) as (q & Eq & Lq%geb_not_ltb).
  destruct (A SingleMaximum) as (m & Em & Lm%geb_not_ltb).
  pose proof (in_limits_no_exit _ (A Gravity)) as G.
  destruct (A ColatitudeOrder) as (pc & sc & Epc & Esc & Lc%leb_not_gtb).
  destruct (A NoOverlap) as (a & rp & rs & Ea & Erp & Ers & La%geb_not_ltb).
  unfold __call__; known; reflexivity.
Qed.

Lemma call_violated (c : constraint) :
  violated self c -> (forall c', c' <> c -> holds self c') ->
  __call__ self p = Ok neg_infinity.
Proof.
  intros V A; unfold __call__; known.
  destruct c; unfold violated in V.
  - destruct V as (d & Ed & V); known; reflexivity.
  - destruct (A Distance) as (d & Ed & Lo & Hi); [discriminate |].
    destruct V as (r & Er & V); known; reflexivity.
  - destruct (A Distance) as (d & Ed & Lo & Hi); [discriminate |].
    destruct (A Radius) as (r & Er & Lr); [discriminate |].
    destruct V as (q & Eq & V); known; reflexivity.
  - destruct (A Distance) as (d & Ed & Lo & Hi); [discriminate |].
    destruct (A Radius) as (r & Er & Lr); [discriminate |].
    destruct (A PhotonSphere) as (q & Eq & Lq%geb_not_ltb); [discriminate |].
    destruct V as (m & Em & V); known; reflexivity.
  - destruct (A Distance) as (d & Ed & Lo & Hi); [discriminate |].
    destruct (A Radius) as (r & Er & Lr); [discriminate |].
    destruct (A PhotonSphere) as (q & Eq & Lq%geb_not_ltb); [discriminate |].
    destruct (A SingleMaximum) as (m & Em & Lm%geb_not_ltb);
      [discriminate |].
    apply off_limits_exit in V; known; reflexivity.
  - destruct (A Distance) as (d & Ed & Lo & Hi); [discriminate |].
    destruct (A Radius) as (r & Er & Lr); [discriminate |].
    destruct (A PhotonSphere) as (q & Eq & Lq%geb_not_ltb); [discriminate |].
    destruct (A SingleMaximum) as (m & Em & Lm%geb_not_ltb);
      [discriminate |].
    assert (G := in_limits_no_exit _ (A Gravity ltac:(discriminate))).
    destruct V as (pc & sc & Epc & Esc & V); known; reflexivity.
  - destruct (A Distance) as (d & Ed & Lo & Hi); [discriminate |].
    destruct (A Radius) as (r & Er & Lr); [discriminate |].
    destruct (A PhotonSphere) as (q & Eq & Lq%geb_not_ltb); [discriminate |].
    destruct (A SingleMaximum) as (m & Em & Lm%geb_not_ltb);
      [discriminate |].
    assert (G := in_limits_no_exit _ (A Gravity ltac:(discriminate))).
    destruct (A ColatitudeOrder) as (pc & sc & Epc & Esc & Lc%leb_not_gtb);
      [discriminate |].
    destruct V as (a & rp & rs & Ea & Erp & Ers & V); known; reflexivity.
Qed.

End CallSupport.

(** ** The tests of the code and the constraints of the specification *)

Section ClaimedFacts.

Import Subspace.

Context `{Xpsi}.

(** The separation of the specification is the one the code computes. *)
Lemma separation_ang_sep (ref : ParameterSubspace) (a : float) :
  separation ref = Ok a <-> ang_sep ref = Ok a.
Proof.
  unfold separation, ang_sep; cbv zeta.
  destruct (getitem ref "p__super_colatitude"),
           (getitem ref "s__super_colatitude"),
           (getitem ref "p__phase_shift"),
           (getitem ref "s__phase_shift"); cbn [bind];
    split; intros E; try discriminate E; exact E.
Qed.

(** A constraint of the specification is satisfied exactly when the test
    the code makes of it passes on quantities that compare as stated. *)
Lemma satisfied_holds (self : CustomPrior) (c : constraint) :
  satisfied self c <-> holds self c.
Proof.
  destruct c; try reflexivity.
  unfold satisfied, holds; cbv zeta; split;
    intros (a & rp & rs & A & P & S & L); exists a, rp, rs;
    repeat split; try assumption; apply separation_ang_sep, A.
Qed.

Lemma ltb_not_geb (x y : float) : (x <? y) = true -> (x >=? y) = false.
Proof.
  intros L; destruct (x >=? y) eqn:G; [| reflexivity].
  rewrite (geb_not_ltb _ _ G) in L; discriminate.
Qed.

(** A test of the code that fails is a constraint of the specification
    that is false. *)
Lemma violated_unsatisfied (self : CustomPrior) (c : constraint) :
  violated self c -> unsatisfied self c.
Proof.
  destruct c; unfold violated, unsatisfied; cbv zeta; try (intros V; exact V).
  - intros (q & E & L); exists q; split; [exact E |].
    apply ltb_not_geb, L.
  - intros (m & E & L); exists m; split; [exact E |].
    apply ltb_not_geb, L.
  - intros (p & s & Ep & Es & L); exists p, s; repeat split; try assumption.
    apply (ltb_not_geb s p), L.
  - intros (a & rp & rs & A & P & S & L); exists a, rp, rs.
    repeat split; try assumption; [apply separation_ang_sep, A |].
    apply ltb_not_geb, L.
Qed.

(** And the converse among numbers. *)
Lemma unsatisfied_violated (self : CustomPrior) (c : constraint) :
  unsatisfied self c -> numbers self c -> violated self c.
Proof.
  destruct c; unfold unsatisfied, numbers, violated; cbv zeta;
    try (intros V _; exact V).
  - intros (q & E & L) N; destruct (N q E) as (Nq & Np).
    exists q; split; [exact E | apply not_geb_ltb; assumption].
  - intros (m & E & L) N; exists m; split; [exact E |].
    apply not_geb_ltb; [exact (N m E) | reflexivity | exact L].
  - intros (p & s & Ep & Es & L) N; destruct (N p s Ep Es) as (Np & Ns).
    exists p, s; repeat split; try assumption.
    apply (not_geb_ltb s p); assumption.
  - intros (a & rp & rs & A & P & S & L) N.
    destruct (N a rp rs A P S) as (Na & Nr).
    exists a, rp, rs; repeat split; try assumption;
      [apply separation_ang_sep, A | apply not_geb_ltb; assumption].
Qed.

(** A constraint is not both satisfied and unsatisfied. *)
Lemma unsatisfied_not_satisfied (self : CustomPrior) (c : constraint) :
  unsatisfied self c -> ~ satisfied self c.
Proof.
  destruct c; unfold unsatisfied, satisfied; cbv zeta.
  - intros (d & E & V) (d' & E' & Lo & Hi).
    assert (d' = d) as -> by congruence.
    rewrite Lo, Hi in V; discriminate.
  - intros (r & E & V) (r' & E' & L).
    assert (r' = r) as -> by congruence; congruence.
  - intros (q & E & V) (q' & E' & L).
    assert (q' = q) as -> by congruence; congruence.
  - intros (m & E & V) (m' & E' & L).
    assert (m' = m) as -> by congruence; congruence.
  - intros V A; apply Exists_exists in V; destruct V as (g & I & O).
    rewrite Forall_forall in A; destruct (A g I) as (Lo & Hi).
    rewrite Lo, Hi in O; discriminate.
  - intros (p & s & Ep & Es & V) (p' & s' & Ep' & Es' & L).
    assert (p' = p) as -> by congruence.
    assert (s' = s) as -> by congruence; congruence.
  - intros (a & rp & rs & Ea & Ep & Es & V)
           (a' & rp' & rs' & Ea' & Ep' & Es' & L).
    assert (a' = a) as -> by congruence.
    assert (rp' = rp) as -> by congruence.
    assert (rs' = rs) as -> by congruence; congruence.
Qed.

End ClaimedFacts.

(** ** The support evaluator against the specification *)

(** C1, as amended.  On a parameter vector that passes the check of the
    base class, the support evaluator returns exactly 0.0 when the seven
    constraints of the specification are all satisfied: distance in
    (0, 1.7], radius <= 16, 1 + epsilon (-0.788 + 1.030 zeta) >= 1.505/R_r_s,
    sqrt (-1 / (3 epsilon (-0.788 + 1.030 zeta))) >= 1, the effective
    gravity at the pole and at the equator in [13.7, 15], primary
    colatitude <= secondary colatitude, angular separation >= sum of the
    angular radii.  It returns minus infinity when one of them is false,
    the two sides of its comparison being numbers, and the other six are
    satisfied.  (When a side is NaN the constraint is false and the
    evaluator returns 0.0 all the same.) *)
Theorem call_support `{Xpsi} (self : CustomPrior) (p : option (list float)) :
  is_finite (Prior__call__ p (parameters self)) = true ->
  ((forall c, satisfied self c) -> __call__ self p = Ok 0.0) /\
  (forall c, unsatisfied self c -> numbers self c ->
             (forall c', c' <> c -> satisfied self c') ->
             __call__ self p = Ok neg_infinity).
Proof.
  intros F; split.
  - intros A; apply call_admissible; [exact F |].
    intros c; apply satisfied_holds, A.
  - intros c U N A; apply (call_violated _ _ F c).
    + apply unsatisfied_violated; assumption.
    + intros c' D; apply satisfied_holds, A, D.
Qed.

(** ** Inverse sampling, block by block *)

(** Split a successful sequence of calls into its steps. *)
Ltac steps H :=
  repeat match type of H with
         | bind ?c _ = Ok _ =>
             let E := fresh "E" in
             destruct c eqn:E; cbn [bind] in H; [| discriminate H]
         | (let '(_, _) := ?x in _) = Ok _ =>
             let E := fresh "E" in destruct x eqn:E
         end.

Section SampleFacts.

Import Subspace.

Context `{Xpsi} `{Scipy} `{Libm}.

Lemma touches_shape (key : string) (ref ref' : ParameterSubspace) :
  touches key ref ref' -> map shape ref' = map shape ref.
Proof. intros [-> | (v & ->)]; [reflexivity | apply shape_update]. Qed.

Lemma touches_frame (key key' : string) (ref ref' : ParameterSubspace) :
  touches key ref ref' -> String.eqb key key' = false ->
  get_param ref' key' = get_param ref key'.
Proof.
  intros [-> | (v & ->)] D; [reflexivity | apply get_param_update_other, D].
Qed.

Lemma item_nth (hypercube : list float) (idx : nat) (u : float) :
  item hypercube idx = Ok u <-> nth_error hypercube idx = Some u.
Proof.
  unfold item; destruct (nth_error hypercube idx); split; congruence.
Qed.

Lemma setitem_ok (ref ref' : ParameterSubspace) (key : string) (v : float) :
  setitem ref key v = Ok ref' ->
  ref' = update ref key v /\ getitem ref' key = Ok v.
Proof.
  rewrite setitem_update; intros S; steps S; injection S as <-.
  split; [reflexivity |].
  unfold getitem; rewrite (get_param_update_same _ _ v _ E); reflexivity.
Qed.

Lemma setitem_present
  (ref : ParameterSubspace) (key : string) (v : float) (q : Param) :
  get_param ref key = Ok q -> setitem ref key v = Ok (update ref key v).
Proof. intros G; rewrite setitem_update, G; reflexivity. Qed.

Lemma Prior_inverse_sample_shape
  (hypercube : list float) (ref ref' : ParameterSubspace) :
  Prior_inverse_sample hypercube ref = Ok ref' ->
  map shape ref' = map shape ref.
Proof.
  revert hypercube ref'; induction ref as [| q ref IH];
    intros hypercube ref'; cbn.
  - intros [= <-]; reflexivity.
  - destruct hypercube as [| u hypercube]; [discriminate |].
    intros S; steps S; injection S as <-; cbn.
    rewrite (IH _ _ E); reflexivity.
Qed.

Lemma Prior_inverse_sample_returns
  (hypercube : list float) (ref : ParameterSubspace) :
  (List.length ref <= List.length hypercube)%nat ->
  returns (Prior_inverse_sample hypercube ref).
Proof.
  revert hypercube; induction ref as [| q ref IH]; intros hypercube; cbn.
  - intros _; eexists; reflexivity.
  - destruct hypercube as [| u hypercube]; cbn; [lia |]; intros L.
    destruct (IH hypercube) as (r & ->); [lia |]; eexists; reflexivity.
Qed.

(** *** What each block assigns *)

Lemma sample_distance_ok (ref ref' : ParameterSubspace) (hypercube : list float) :
  sample_distance ref hypercube = Ok ref' ->
  exists idx u,
    index ref "distance" = Ok idx /\ nth_error hypercube idx = Some u /\
    ref' = update ref "distance" (skewnorm_ppf u 1.7 1.002 0.227) /\
    getitem ref' "distance" = Ok (skewnorm_ppf u 1.7 1.002 0.227).
Proof.
  unfold sample_distance; intros S; steps S.
  apply setitem_ok in S as (-> & G).
  do 2 eexists; rewrite <- item_nth.
  repeat split; first [eassumption | reflexivity].
Qed.

Lemma sample_mass_ok (ref ref' : ParameterSubspace) (hypercube : list float) :
  sample_mass ref hypercube = Ok ref' ->
  exists idx u,
    index ref "mass" = Ok idx /\ nth_error hypercube idx = Some u /\
    ref' = update ref "mass" (truncnorm_ppf u (-5.0) 5.0 _mu_m _std_m) /\
    getitem ref' "mass" = Ok (truncnorm_ppf u (-5.0) 5.0 _mu_m _std_m).
Proof.
  unfold sample_mass; intros S; steps S.
  apply setitem_ok in S as (-> & G).
  do 2 eexists; rewrite <- item_nth.
  repeat split; first [eassumption | reflexivity].
Qed.

Lemma sample_cos_inclination_ok
  (ref ref' : ParameterSubspace) (hypercube : list float) :
  sample_cos_inclination ref hypercube = Ok ref' ->
  exists idx u q mass,
    index ref "cos_inclination" = Ok idx /\
    nth_error hypercube idx = Some u /\
    get_param ref "cos_inclination" = Ok q /\
    getitem ref "mass" = Ok mass /\
    let v := truncnorm_ppf u (cosi_lower (strict_bounds q) (cosi_loc mass))
                           10.0 (cosi_loc mass) _cond_std in
    ref' = update ref "cos_inclination" v /\
    getitem ref' "cos_inclination" = Ok v.
Proof.
  unfold sample_cos_inclination; intros S; steps S.
  apply setitem_ok in S as (-> & G).
  do 4 eexists; cbv zeta; rewrite <- item_nth.
  repeat split; first [eassumption | reflexivity].
Qed.

Lemma sample_colatitude_ok
  (key : string) (ref ref' : ParameterSubspace) (hypercube : list float) :
  sample_colatitude ref key hypercube = Ok ref' ->
  exists idx u q v,
    index ref key = Ok idx /\ nth_error hypercube idx = Some u /\
    get_param ref key = Ok q /\
    colatitude_draw (fst (bounds q)) (snd (bounds q)) u = Ok v /\
    ref' = update ref key v /\ getitem ref' key = Ok v.
Proof.
  unfold sample_colatitude; intros S; steps S.
  apply setitem_ok in S as (-> & G).
  do 4 eexists; rewrite <- item_nth.
  repeat split; try eassumption; try reflexivity.
  match goal with B : bounds _ = _ |- _ => rewrite B end.
  unfold colatitude_draw; cbn [fst snd]; known; eassumption.
Qed.

Lemma sample_XTI_alpha_ok
  (ref ref' : ParameterSubspace) (hypercube : list float) :
  sample_XTI_alpha ref hypercube = Ok ref' ->
  (get_param ref "XTI__alpha" = Raise (KeyError "XTI__alpha") /\ ref' = ref) \/
  exists idx u,
    index ref "XTI__alpha" = Ok idx /\ nth_error hypercube idx = Some u /\
    ref' = update ref "XTI__alpha" (truncnorm_ppf u (-5.0) 5.0 1.0 0.104) /\
    getitem ref' "XTI__alpha" = Ok (truncnorm_ppf u (-5.0) 5.0 1.0 0.104).
Proof.
  unfold sample_XTI_alpha.
  destruct (getitem ref "XTI__alpha") as [xti | e] eqn:G; cbn.
  - intros S; steps S; right.
    apply setitem_ok in S as (-> & G').
    do 2 eexists; rewrite <- item_nth.
    repeat split; first [eassumption | reflexivity].
  - assert (E : e = KeyError "XTI__alpha").
    { exact (getitem_KeyError _ _ _ G). }
    subst e; apply getitem_missing in G.
    intros [= <-]; left; split; [exact G | reflexivity].
Qed.

Lemma sample_PN_alpha_ok
  (ref ref' : ParameterSubspace) (hypercube : list float) :
  sample_PN_alpha ref hypercube = Ok ref' ->
  (get_param ref "PN__alpha" = Raise (KeyError "PN__alpha") /\ ref' = ref) \/
  exists idx u,
    index ref "PN__alpha" = Ok idx /\ nth_error hypercube idx = Some u /\
    let v := truncnorm_ppf u (-5.0) 5.0 (fst (PN_alpha_loc_scale ref))
                           (snd (PN_alpha_loc_scale ref)) in
    ref' = update ref "PN__alpha" v /\ getitem ref' "PN__alpha" = Ok v.
Proof.
  unfold sample_PN_alpha, PN_alpha_loc_scale.
  destruct (getitem ref "PN__alpha") as [pn | e] eqn:G; cbn.
  - intros S; right.
    destruct (index ref "PN__alpha") as [idx |] eqn:I; cbn in S;
      [| discriminate].
    destruct (getitem ref "XTI__alpha") as [xti | e] eqn:X; cbn in S.
    + steps S; apply setitem_ok in S as (-> & G').
      do 2 eexists; cbv zeta; rewrite <- item_nth.
      repeat split; first [eassumption | reflexivity].
    + assert (E : e = KeyError "XTI__alpha").
      { exact (getitem_KeyError _ _ _ X). }
      subst e; cbn in S.
      steps S; apply setitem_ok in S as (-> & G').
      do 2 eexists; cbv zeta; rewrite <- item_nth.
      repeat split; first [eassumption | reflexivity].
  - assert (E : e = KeyError "PN__alpha").
    { exact (getitem_KeyError _ _ _ G). }
    subst e; apply getitem_missing in G.
    intros [= <-]; left; split; [exact G | reflexivity].
Qed.

End SampleFacts.
(** ** Inverse sampling, end to end *)

Section SampleChain.

Import Subspace.

Context `{Xpsi} `{Scipy} `{Libm}.

Lemma touches_getitem (key key' : string) (ref ref' : ParameterSubspace) :
  touches key ref ref' -> String.eqb key key' = false ->
  getitem ref' key' = getitem ref key'.
Proof.
  intros T D; unfold getitem; rewrite (touches_frame _ _ _ _ T D); reflexivity.
Qed.

Lemma sample_distance_touches (ref ref' : ParameterSubspace) (u : list float) :
  sample_distance ref u = Ok ref' -> touches "distance" ref ref'.
Proof.
  intros S; apply sample_distance_ok in S as (i & x & _ & _ & -> & _).
  right; eexists; reflexivity.
Qed.

Lemma sample_mass_touches (ref ref' : ParameterSubspace) (u : list float) :
  sample_mass ref u = Ok ref' -> touches "mass" ref ref'.
Proof.
  intros S; apply sample_mass_ok in S as (i & x & _ & _ & -> & _).
  right; eexists; reflexivity.
Qed.

Lemma sample_cos_inclination_touches
  (ref ref' : ParameterSubspace) (u : list float) :
  sample_cos_inclination ref u = Ok ref' -> touches "cos_inclination" ref ref'.
Proof.
  intros S.
  apply sample_cos_inclination_ok in S as (i & x & q & m & _ & _ & _ & _ & S).
  destruct S as (-> & _); right; eexists; reflexivity.
Qed.

Lemma sample_colatitude_touches
  (key : string) (ref ref' : ParameterSubspace) (u : list float) :
  sample_colatitude ref key u = Ok ref' -> touches key ref ref'.
Proof.
  intros S.
  apply sample_colatitude_ok in S as (i & x & q & v & _ & _ & _ & _ & -> & _).
  right; eexists; reflexivity.
Qed.

Lemma sample_XTI_alpha_touches
  (ref ref' : ParameterSubspace) (u : list float) :
  sample_XTI_alpha ref u = Ok ref' -> touches "XTI__alpha" ref ref'.
Proof.
  intros S.
  apply sample_XTI_alpha_ok in S as [(_ & ->) | (i & x & _ & _ & -> & _)].
  - left; reflexivity.
  - right; eexists; reflexivity.
Qed.

Lemma sample_PN_alpha_touches
  (ref ref' : ParameterSubspace) (u : list float) :
  sample_PN_alpha ref u = Ok ref' -> touches "PN__alpha" ref ref'.
Proof.
  intros S.
  apply sample_PN_alpha_ok in S as [(_ & ->) | (i & x & _ & _ & S)].
  - left; reflexivity.
  - destruct S as (-> & _); right; eexists; reflexivity.
Qed.

Lemma sample_at_chain (ref ref' : ParameterSubspace) (u : list float) :
  sample_at ref u = Ok ref' ->
  exists r0 r1 r2 r3 r4 r5 r6, chain ref u r0 r1 r2 r3 r4 r5 r6 ref'.
Proof.
  unfold sample_at; intros S; steps S.
  do 7 eexists; constructor; eassumption.
Qed.

Lemma chain_shapes (ref ref' : ParameterSubspace) (u : list float)
  (r0 r1 r2 r3 r4 r5 r6 : ParameterSubspace) :
  chain ref u r0 r1 r2 r3 r4 r5 r6 ref' ->
  let s := map shape ref in
  map shape r0 = s /\ map shape r1 = s /\ map shape r2 = s /\
  map shape r3 = s /\ map shape r4 = s /\ map shape r5 = s /\
  map shape r6 = s /\ map shape ref' = s.
Proof.
  intros [B D M C P S X N]; cbn.
  apply Prior_inverse_sample_shape in B.
  apply sample_distance_touches, touches_shape in D.
  apply sample_mass_touches, touches_shape in M.
  apply sample_cos_inclination_touches, touches_shape in C.
  apply sample_colatitude_touches, touches_shape in P.
  apply sample_colatitude_touches, touches_shape in S.
  apply sample_XTI_alpha_touches, touches_shape in X.
  apply sample_PN_alpha_touches, touches_shape in N.
  repeat split; congruence.
Qed.

Lemma sample_at_shape (ref ref' : ParameterSubspace) (u : list float) :
  sample_at ref u = Ok ref' -> map shape ref' = map shape ref.
Proof.
  intros S; apply sample_at_chain in S as (r0 & r1 & r2 & r3 & r4 & r5 & r6 & c).
  eapply chain_shapes, c.
Qed.

(** *** The restoration of the cache *)

Lemma restore_cache_shape (ref : ParameterSubspace) (to_cache : list float) :
  map shape (restore_cache ref to_cache) = map shape ref.
Proof.
  revert to_cache; induction ref as [| q ref IH]; intros [| c cs]; cbn;
    try reflexivity.
  rewrite IH; reflexivity.
Qed.

Lemma restore_cache_vector (ref : ParameterSubspace) (to_cache : list float) :
  vector (restore_cache ref to_cache) = vector ref.
Proof.
  unfold vector; revert to_cache; induction ref as [| q ref IH];
    intros [| c cs]; cbn; try reflexivity.
  rewrite IH; reflexivity.
Qed.

Lemma restore_cache_getitem
  (ref : ParameterSubspace) (to_cache : list float) (key : string) :
  getitem (restore_cache ref to_cache) key = getitem ref key.
Proof.
  unfold getitem; revert to_cache; induction ref as [| q ref IH];
    intros [| c cs]; cbn; try reflexivity.
  destruct (String.eqb (name q) key); [reflexivity | apply IH].
Qed.

Lemma restore_cache_cached (ref : ParameterSubspace) (to_cache : list float) :
  List.length to_cache = List.length ref ->
  map cached (restore_cache ref to_cache) = map Some to_cache.
Proof.
  revert to_cache; induction ref as [| q ref IH]; intros [| c cs]; cbn;
    try discriminate; [reflexivity |].
  intros [= L]; rewrite (IH _ L); reflexivity.
Qed.

End SampleChain.

Section InverseSample.

Import Subspace.

Context `{Xpsi} `{Scipy} `{Libm} `{NumpyRandom}.

(** A successful call, taken apart. *)
Lemma inverse_sample_inv
  (self self' : CustomPrior) (hypercube : option (list float))
  (state state' : rng) (vec : list float) :
  inverse_sample self hypercube state = Ok (vec, self', state') ->
  exists u ref',
    (u, state') = match hypercube with
                  | None => random_rand (List.length (parameters self)) state
                  | Some u => (u, state)
                  end /\
    sample_at (parameters self) u = Ok ref' /\
    parameters self' = restore_cache ref' (vector (parameters self)) /\
    spacetime self' = spacetime self /\
    vec = vector ref'.
Proof.
  unfold inverse_sample.
  destruct (match hypercube with
            | None => random_rand (List.length (parameters self)) state
            | Some u => (u, state)
            end) as [u st].
  intros S; steps S; injection S as <- <- <-.
  exists u, a; cbn; rewrite restore_cache_vector; repeat split; assumption.
Qed.

End InverseSample.
(** ** What a successful [sample_at] leaves under each key *)

Section SampleValues.

Import Subspace.

Context `{Xpsi} `{Scipy} `{Libm}.

Variables (ref ref' : ParameterSubspace) (u : list float).
Variables r0 r1 r2 r3 r4 r5 r6 : ParameterSubspace.
Hypothesis c : chain ref u r0 r1 r2 r3 r4 r5 r6 ref'.

Let TD := sample_distance_touches _ _ _ (distance_step _ _ _ _ _ _ _ _ _ _ c).
Let TM := sample_mass_touches _ _ _ (mass_step _ _ _ _ _ _ _ _ _ _ c).
Let TC := sample_cos_inclination_touches _ _ _ (cos_inclination_step _ _ _ _ _ _ _ _ _ _ c).
Let TP := sample_colatitude_touches _ _ _ _ (p_colatitude_step _ _ _ _ _ _ _ _ _ _ c).
Let TS := sample_colatitude_touches _ _ _ _ (s_colatitude_step _ _ _ _ _ _ _ _ _ _ c).
Let TX := sample_XTI_alpha_touches _ _ _ (XTI_step _ _ _ _ _ _ _ _ _ _ c).
Let TN := sample_PN_alpha_touches _ _ _ (PN_step _ _ _ _ _ _ _ _ _ _ c).

(** Carry a lookup in the final container back over the blocks that assign
    other keys. *)
Ltac back T :=
  match goal with
  | |- context [getitem ?r ?k] => rewrite (touches_getitem _ k _ r T eq_refl)
  end.

Lemma chain_distance :
  exists idx ui,
    index ref "distance" = Ok idx /\ nth_error u idx = Some ui /\
    getitem ref' "distance" = Ok (skewnorm_ppf ui 1.7 1.002 0.227).
Proof.
  destruct (chain_shapes _ _ _ _ _ _ _ _ _ _ c) as (S0 & _).
  destruct (sample_distance_ok _ _ _ (distance_step _ _ _ _ _ _ _ _ _ _ c))
    as (idx & ui & I & N & _ & G).
  exists idx, ui; rewrite <- (shape_index _ _ "distance" S0).
  repeat split; try assumption.
  back TN; back TX; back TS; back TP; back TC; back TM; exact G.
Qed.

Lemma chain_mass :
  exists idx ui,
    index ref "mass" = Ok idx /\ nth_error u idx = Some ui /\
    getitem r2 "mass" = Ok (truncnorm_ppf ui (-5.0) 5.0 _mu_m _std_m) /\
    getitem ref' "mass" = Ok (truncnorm_ppf ui (-5.0) 5.0 _mu_m _std_m).
Proof.
  destruct (chain_shapes _ _ _ _ _ _ _ _ _ _ c) as (_ & S1 & _).
  destruct (sample_mass_ok _ _ _ (mass_step _ _ _ _ _ _ _ _ _ _ c)) as (idx & ui & I & N & _ & G).
  exists idx, ui; rewrite <- (shape_index _ _ "mass" S1).
  repeat split; try assumption.
  back TN; back TX; back TS; back TP; back TC; exact G.
Qed.

Lemma chain_cos_inclination :
  exists idx ui q mass,
    index ref "cos_inclination" = Ok idx /\ nth_error u idx = Some ui /\
    get_param ref "cos_inclination" = Ok q /\
    getitem ref' "mass" = Ok mass /\
    getitem ref' "cos_inclination"
    = Ok (truncnorm_ppf ui (cosi_lower (strict_bounds q) (cosi_loc mass))
                        10.0 (cosi_loc mass) _cond_std).
Proof.
  destruct (chain_shapes _ _ _ _ _ _ _ _ _ _ c) as (_ & _ & S2 & _).
  destruct (sample_cos_inclination_ok _ _ _ (cos_inclination_step _ _ _ _ _ _ _ _ _ _ c))
    as (idx & ui & q2 & mass & I & N & P & M & _ & G).
  destruct (shape_get_param r2 ref "cos_inclination" q2) as (q & Q & E);
    [congruence | assumption |].
  exists idx, ui, q, mass; rewrite <- (shape_index _ _ "cos_inclination" S2).
  repeat split; try assumption.
  - back TN; back TX; back TS; back TP; back TC; exact M.
  - back TN; back TX; back TS; back TP.
    replace (strict_bounds q) with (strict_bounds q2);
      [exact G | unfold shape in E; congruence].
Qed.

Lemma chain_p_colatitude :
  exists idx ui q v,
    index ref "p__super_colatitude" = Ok idx /\ nth_error u idx = Some ui /\
    get_param ref "p__super_colatitude" = Ok q /\
    colatitude_draw (fst (bounds q)) (snd (bounds q)) ui = Ok v /\
    getitem ref' "p__super_colatitude" = Ok v.
Proof.
  destruct (chain_shapes _ _ _ _ _ _ _ _ _ _ c) as (_ & _ & _ & S3 & _).
  destruct (sample_colatitude_ok _ _ _ _ (p_colatitude_step _ _ _ _ _ _ _ _ _ _ c))
    as (idx & ui & q3 & v & I & N & P & D & _ & G).
  destruct (shape_get_param r3 ref "p__super_colatitude" q3) as (q & Q & E);
    [congruence | assumption |].
  exists idx, ui, q, v.
  rewrite <- (shape_index _ _ "p__super_colatitude" S3).
  replace (bounds q) with (bounds q3) by (unfold shape in E; congruence).
  repeat split; try assumption.
  back TN; back TX; back TS; exact G.
Qed.

Lemma chain_s_colatitude :
  exists idx ui q v,
    index ref "s__super_colatitude" = Ok idx /\ nth_error u idx = Some ui /\
    get_param ref "s__super_colatitude" = Ok q /\
    colatitude_draw (fst (bounds q)) (snd (bounds q)) ui = Ok v /\
    getitem ref' "s__super_colatitude" = Ok v.
Proof.
  destruct (chain_shapes _ _ _ _ _ _ _ _ _ _ c) as (_ & _ & _ & _ & S4 & _).
  destruct (sample_colatitude_ok _ _ _ _ (s_colatitude_step _ _ _ _ _ _ _ _ _ _ c))
    as (idx & ui & q4 & v & I & N & P & D & _ & G).
  destruct (shape_get_param r4 ref "s__super_colatitude" q4) as (q & Q & E);
    [congruence | assumption |].
  exists idx, ui, q, v.
  rewrite <- (shape_index _ _ "s__super_colatitude" S4).
  replace (bounds q) with (bounds q4) by (unfold shape in E; congruence).
  repeat split; try assumption.
  back TN; back TX; exact G.
Qed.

Lemma chain_XTI_alpha :
  (get_param ref "XTI__alpha" = Raise (KeyError "XTI__alpha") /\
   getitem ref' "XTI__alpha" = Raise (KeyError "XTI__alpha")) \/
  exists idx ui,
    index ref "XTI__alpha" = Ok idx /\ nth_error u idx = Some ui /\
    getitem ref' "XTI__alpha" = Ok (truncnorm_ppf ui (-5.0) 5.0 1.0 0.104).
Proof.
  destruct (chain_shapes _ _ _ _ _ _ _ _ _ _ c) as (_ & _ & _ & _ & _ & S5 & _).
  destruct (sample_XTI_alpha_ok _ _ _ (XTI_step _ _ _ _ _ _ _ _ _ _ c))
    as [(A & E) | (idx & ui & I & N & _ & G)].
  - left; split.
    + apply (shape_missing r5 ref); [congruence | exact A].
    + back TN; rewrite E; unfold getitem; rewrite A; reflexivity.
  - right; exists idx, ui; rewrite <- (shape_index _ _ "XTI__alpha" S5).
    repeat split; try assumption.
    back TN; exact G.
Qed.

Lemma chain_PN_alpha :
  (get_param ref "PN__alpha" = Raise (KeyError "PN__alpha") /\
   getitem ref' "PN__alpha" = Raise (KeyError "PN__alpha")) \/
  exists idx ui,
    index ref "PN__alpha" = Ok idx /\ nth_error u idx = Some ui /\
    getitem ref' "PN__alpha"
    = Ok (truncnorm_ppf ui (-5.0) 5.0 (fst (PN_alpha_loc_scale ref'))
                        (snd (PN_alpha_loc_scale ref'))).
Proof.
  destruct (chain_shapes _ _ _ _ _ _ _ _ _ _ c) as (_ & _ & _ & _ & _ & _ & S6 & _).
  destruct (sample_PN_alpha_ok _ _ _ (PN_step _ _ _ _ _ _ _ _ _ _ c))
    as [(A & E) | (idx & ui & I & N & _ & G)].
  - left; split.
    + apply (shape_missing r6 ref); [congruence | exact A].
    + rewrite E; unfold getitem; rewrite A; reflexivity.
  - right; exists idx, ui; rewrite <- (shape_index _ _ "PN__alpha" S6).
    repeat split; try assumption.
    unfold PN_alpha_loc_scale; back TN; exact G.
Qed.

End SampleValues.
(** ** When inverse sampling returns *)

Section SampleReturns.

Import Subspace.

Context `{Xpsi} `{Scipy} `{Libm}.

Lemma present_item
  (ref : ParameterSubspace) (u : list float) (key : string) (q : Param) :
  get_param ref key = Ok q -> (List.length ref <= List.length u)%nat ->
  exists idx x, index ref key = Ok idx /\ item u idx = Ok x.
Proof.
  intros G L; destruct (get_param_index _ _ _ G) as (idx & I & _).
  pose proof (index_lt _ _ _ I) as B.
  destruct (nth_error u idx) as [x |] eqn:N.
  - exists idx, x; split; [exact I | apply item_nth, N].
  - apply nth_error_None in N; lia.
Qed.

Lemma sample_distance_returns (ref : ParameterSubspace) (u : list float) :
  present ref "distance" -> (List.length ref <= List.length u)%nat ->
  returns (sample_distance ref u).
Proof.
  intros (q & G) L; destruct (present_item _ _ _ _ G L) as (idx & x & I & X).
  unfold sample_distance; rewrite I; cbn [bind]; rewrite X; cbn [bind].
  rewrite (setitem_present _ _ _ _ G); eexists; reflexivity.
Qed.

Lemma sample_mass_returns (ref : ParameterSubspace) (u : list float) :
  present ref "mass" -> (List.length ref <= List.length u)%nat ->
  returns (sample_mass ref u).
Proof.
  intros (q & G) L; destruct (present_item _ _ _ _ G L) as (idx & x & I & X).
  unfold sample_mass; rewrite I; cbn [bind]; rewrite X; cbn [bind].
  rewrite (setitem_present _ _ _ _ G); eexists; reflexivity.
Qed.

Lemma sample_cos_inclination_returns
  (ref : ParameterSubspace) (u : list float) :
  present ref "cos_inclination" -> present ref "mass" ->
  (List.length ref <= List.length u)%nat ->
  returns (sample_cos_inclination ref u).
Proof.
  intros (q & G) (m & M) L.
  destruct (present_item _ _ _ _ G L) as (idx & x & I & X).
  unfold sample_cos_inclination, getitem.
  rewrite I; cbn [bind]; rewrite G; cbn [bind]; rewrite M; cbn [bind].
  rewrite X; cbn [bind].
  rewrite (setitem_present _ _ _ _ G); eexists; reflexivity.
Qed.

Lemma sample_colatitude_returns
  (key : string) (ref : ParameterSubspace) (u : list float) :
  present ref key -> (List.length ref <= List.length u)%nat ->
  (forall q idx x,
      get_param ref key = Ok q -> index ref key = Ok idx ->
      nth_error u idx = Some x ->
      returns (colatitude_draw (fst (bounds q)) (snd (bounds q)) x)) ->
  returns (sample_colatitude ref key u).
Proof.
  intros (q & G) L D.
  destruct (present_item _ _ _ _ G L) as (idx & x & I & X).
  destruct (D q idx x G I) as (v & V); [apply item_nth, X |].
  unfold sample_colatitude.
  rewrite I; cbn [bind]; rewrite G; cbn [bind].
  destruct (bounds q) as [a b]; cbn [fst snd] in V.
  unfold colatitude_draw in V.
  destruct (math_cos a) as [ca |]; cbn [bind] in *; [| discriminate].
  destruct (math_cos b) as [cb |]; cbn [bind] in *; [| discriminate].
  rewrite X; cbn [bind]; rewrite V; cbn [bind].
  rewrite (setitem_present _ _ _ _ G); eexists; reflexivity.
Qed.

Lemma sample_XTI_alpha_returns (ref : ParameterSubspace) (u : list float) :
  (List.length ref <= List.length u)%nat -> returns (sample_XTI_alpha ref u).
Proof.
  intros L; unfold sample_XTI_alpha, getitem.
  destruct (get_param ref "XTI__alpha") as [q | e] eqn:G; cbn.
  - destruct (present_item _ _ _ _ G L) as (idx & x & I & X).
    rewrite I; cbn [bind]; rewrite X; cbn [bind].
    rewrite (setitem_present _ _ _ _ G); eexists; reflexivity.
  - destruct (get_param_missing _ _ _ G) as (-> & _); eexists; reflexivity.
Qed.

Lemma sample_PN_alpha_returns (ref : ParameterSubspace) (u : list float) :
  (List.length ref <= List.length u)%nat -> returns (sample_PN_alpha ref u).
Proof.
  intros L; unfold sample_PN_alpha, getitem.
  destruct (get_param ref "PN__alpha") as [q | e] eqn:G; cbn.
  - destruct (present_item _ _ _ _ G L) as (idx & x & I & X).
    rewrite I; cbn [bind].
    destruct (get_param ref "XTI__alpha") as [xti | e] eqn:A; cbn.
    + rewrite X; cbn [bind].
      rewrite (setitem_present _ _ _ _ G); eexists; reflexivity.
    + destruct (get_param_missing _ _ _ A) as (-> & _); cbn.
      rewrite X; cbn [bind].
      rewrite (setitem_present _ _ _ _ G); eexists; reflexivity.
  - destruct (get_param_missing _ _ _ G) as (-> & _); eexists; reflexivity.
Qed.

Lemma present_shape (ref ref' : ParameterSubspace) (key : string) :
  map shape ref' = map shape ref -> present ref key -> present ref' key.
Proof.
  intros S (q & G); destruct (shape_get_param _ _ _ _ S G) as (q' & G' & _).
  exists q'; exact G'.
Qed.

Lemma sample_at_returns (ref : ParameterSubspace) (u : list float) :
  samplable ref u -> returns (sample_at ref u).
Proof.
  intros (L & P & D); unfold sample_at.
  assert (draws : forall r key,
             map shape r = map shape ref -> In key colatitude_keys ->
             forall q idx x,
               get_param r key = Ok q -> index r key = Ok idx ->
               nth_error u idx = Some x ->
               returns (colatitude_draw (fst (bounds q)) (snd (bounds q)) x)).
  { intros r key S K q idx x G I N.
    destruct (shape_get_param r ref key q) as (q0 & G0 & E);
      [congruence | exact G |].
    replace (bounds q) with (bounds q0) by (unfold shape in E; congruence).
    apply (D key q0 idx x K G0); [| exact N].
    rewrite <- (shape_index _ _ key S); exact I. }
  assert (keep : forall r, map shape r = map shape ref ->
                           (List.length r <= List.length u)%nat).
  { intros r S; rewrite (shape_length _ _ S); exact L. }
  assert (has : forall r key, map shape r = map shape ref ->
                              In key sampled_keys -> present r key).
  { intros r key S K; apply (present_shape _ _ _ S), P, K. }
  destruct (Prior_inverse_sample_returns u ref L) as (r0 & E0).
  rewrite E0; cbn [bind]; apply Prior_inverse_sample_shape in E0 as S0.
  destruct (sample_distance_returns r0 u) as (r1 & E1);
    [apply has; cbn; auto | auto |].
  rewrite E1; cbn [bind].
  apply sample_distance_touches, touches_shape in E1 as S1; rewrite S0 in S1.
  destruct (sample_mass_returns r1 u) as (r2 & E2);
    [apply has; cbn; auto | auto |].
  rewrite E2; cbn [bind].
  apply sample_mass_touches, touches_shape in E2 as S2; rewrite S1 in S2.
  destruct (sample_cos_inclination_returns r2 u) as (r3 & E3);
    [apply has; cbn; auto | apply has; cbn; auto | auto |].
  rewrite E3; cbn [bind].
  apply sample_cos_inclination_touches, touches_shape in E3 as S3;
    rewrite S2 in S3.
  destruct (sample_colatitude_returns "p__super_colatitude" r3 u)
    as (r4 & E4); [apply has; cbn; auto | auto | apply draws; cbn; auto |].
  rewrite E4; cbn [bind].
  apply sample_colatitude_touches, touches_shape in E4 as S4; rewrite S3 in S4.
  destruct (sample_colatitude_returns "s__super_colatitude" r4 u)
    as (r5 & E5); [apply has; cbn; auto 6 | auto | apply draws; cbn; auto |].
  rewrite E5; cbn [bind].
  apply sample_colatitude_touches, touches_shape in E5 as S5; rewrite S4 in S5.
  destruct (sample_XTI_alpha_returns r5 u) as (r6 & E6); [auto |].
  rewrite E6; cbn [bind].
  apply sample_XTI_alpha_touches, touches_shape in E6 as S6; rewrite S5 in S6.
  apply sample_PN_alpha_returns; auto.
Qed.

Lemma Prior_inverse_sample_length
  (u : list float) (ref ref' : ParameterSubspace) :
  Prior_inverse_sample u ref = Ok ref' ->
  (List.length ref <= List.length u)%nat.
Proof.
  revert u ref'; induction ref as [| q ref IH]; intros u ref'; cbn;
    [lia |].
  destruct u as [| x u]; [discriminate |].
  intros S; steps S; cbn; pose proof (IH _ _ E); lia.
Qed.

(** [samplable] is exactly when the blocks return. *)
Lemma sample_at_samplable (ref ref' : ParameterSubspace) (u : list float) :
  sample_at ref u = Ok ref' -> samplable ref u.
Proof.
  intros S.
  apply sample_at_chain in S as (r0 & r1 & r2 & r3 & r4 & r5 & r6 & c).
  pose proof (Prior_inverse_sample_length _ _ _
                (base_step _ _ _ _ _ _ _ _ _ _ c)) as L.
  destruct (chain_distance _ _ _ _ _ _ _ _ _ _ c) as (i1 & u1 & I1 & _).
  destruct (chain_mass _ _ _ _ _ _ _ _ _ _ c) as (i2 & u2 & I2 & _).
  destruct (chain_cos_inclination _ _ _ _ _ _ _ _ _ _ c)
    as (i3 & u3 & q3 & m3 & I3 & _).
  destruct (chain_p_colatitude _ _ _ _ _ _ _ _ _ _ c)
    as (i4 & u4 & q4 & v4 & I4 & N4 & G4 & D4 & _).
  destruct (chain_s_colatitude _ _ _ _ _ _ _ _ _ _ c)
    as (i5 & u5 & q5 & v5 & I5 & N5 & G5 & D5 & _).
  assert (P : forall key i, index ref key = Ok i -> present ref key).
  { intros key i I; destruct (index_get_param _ _ _ I) as (q & Q & _).
    exists q; exact Q. }
  repeat split; [exact L | |].
  - intros key K; cbn in K; decompose [or] K; subst; try contradiction;
      eapply P; eassumption.
  - intros key q idx x K G I N; cbn in K; decompose [or] K; subst;
      try contradiction.
    + assert (q = q4) as -> by congruence.
      assert (idx = i4) as -> by congruence.
      assert (x = u4) as -> by congruence.
      exists v4; exact D4.
    + assert (q = q5) as -> by congruence.
      assert (idx = i5) as -> by congruence.
      assert (x = u5) as -> by congruence.
      exists v5; exact D5.
Qed.

End SampleReturns.
(** ** The call [inverse_sample] *)

Section Sampled.

Import Subspace.

Context `{Xpsi} `{Scipy} `{Libm} `{NumpyRandom}.

Lemma inverse_sample_returns
  (self : CustomPrior) (u : list float) (state : rng) :
  samplable (parameters self) u ->
  returns (inverse_sample self (Some u) state).
Proof.
  intros S; destruct (sample_at_returns _ _ S) as (ref' & E).
  unfold inverse_sample; rewrite E; eexists; reflexivity.
Qed.

Lemma inverse_sample_sampled
  (self self' : CustomPrior) (hypercube : option (list float))
  (state state' : rng) (vec : list float) :
  inverse_sample self hypercube state = Ok (vec, self', state') ->
  exists ref',
    sampled self self' (fst (hypercube_of self hypercube state)) vec ref' /\
    state' = snd (hypercube_of self hypercube state).
Proof.
  intros S; apply inverse_sample_inv in S as (u & ref' & U & A & P & T & V).
  fold (hypercube_of self hypercube state) in U; rewrite <- U; cbn.
  exists ref'; split; [| reflexivity].
  constructor; try assumption.
  apply (sample_at_shape _ _ _ A).
Qed.

Section After.

Variables (self self' : CustomPrior) (u vec : list float).
Variable ref' : ParameterSubspace.
Hypothesis done : sampled self self' u vec ref'.

Lemma sampled_getitem (key : string) :
  getitem (parameters self') key = getitem ref' key.
Proof. rewrite (sampled_parameters _ _ _ _ _ done); apply restore_cache_getitem. Qed.

Lemma sampled_entry (key : string) (idx : nat) (v : float) :
  index (parameters self) key = Ok idx -> getitem ref' key = Ok v ->
  nth_error vec idx = Some v.
Proof.
  intros I G; rewrite (sampled_vector _ _ _ _ _ done).
  apply (vector_index _ key); [| exact G].
  rewrite (shape_index _ _ key (sampled_shape _ _ _ _ _ done)); exact I.
Qed.

Lemma sampled_cached :
  map cached (parameters self') = map Some (vector (parameters self)).
Proof.
  rewrite (sampled_parameters _ _ _ _ _ done); apply restore_cache_cached.
  unfold vector; rewrite length_map.
  symmetry; apply shape_length, (sampled_shape _ _ _ _ _ done).
Qed.

Lemma sampled_names : names (parameters self') = names (parameters self).
Proof.
  pose proof (restore_cache_shape ref' (vector (parameters self))) as S.
  rewrite <- (sampled_parameters _ _ _ _ _ done), (sampled_shape _ _ _ _ _ done) in S.
  unfold names.
  assert (E : forall r, map name r = map (fun s => fst (fst s)) (map shape r)).
  { intros r; rewrite map_map; reflexivity. }
  rewrite !E, S; reflexivity.
Qed.

End After.

End Sampled.
(** ** The paths through the support evaluator *)

(** Follow a successful call through its lookups and its tests. *)
Ltac walk C :=
  repeat match type of C with
         | bind ?c _ = Ok _ =>
             let E := fresh "E" in
             destruct c eqn:E; cbn [bind] in C; [| discriminate C]
         | (if ?b then _ else _) = Ok _ =>
             let T := fresh "T" in destruct b eqn:T
         end.

Section CallPaths.

Import Subspace.

Context `{Xpsi}.


Lemma call_inside (self : CustomPrior) (p : option (list float)) (v : float) :
  __call__ self p = Ok v -> is_finite v = true ->
  v = 0.0 /\ (forall c, ~ violated self c) /\
  exists d, getitem (parameters self) "distance" = Ok d.
Proof.
  unfold __call__; cbv zeta; intros C F; walk C; injection C as <-;
    try discriminate F.
  - apply negb_true_iff in T; congruence.
  - split; [reflexivity |]; split; [| eauto].
    apply negb_false_iff in T0, T1.
    intros c V; destruct c; unfold violated in V.
    + destruct V as (x & Ex & V); congruence.
    + destruct V as (x & Ex & V); congruence.
    + destruct V as (x & Ex & V); congruence.
    + destruct V as (x & Ex & V); congruence.
    + apply off_limits_exit in V; congruence.
    + destruct V as (x & y & Ex & Ey & V); congruence.
    + destruct V as (x & y & z & Ex & Ey & Ez & V); congruence.
Qed.

Lemma present_getitem (ref : ParameterSubspace) (key : string) :
  present ref key -> exists v, getitem ref key = Ok v.
Proof.
  intros (q & G); exists (value q); unfold getitem; rewrite G; reflexivity.
Qed.

Lemma call_returns (self : CustomPrior) (p : option (list float)) :
  (forall key, In key call_keys -> present (parameters self) key) ->
  spacetime_defined (spacetime self) ->
  returns (__call__ self p).
Proof.
  intros P ((q & Eq) & (m & Em)).
  assert (G : forall key, In key call_keys ->
                          exists v, getitem (parameters self) key = Ok v)
    by (intros key K; apply present_getitem, P, K).
  destruct (G "distance") as (d & Ed); [cbn; auto 10 |].
  destruct (G "radius") as (r & Er); [cbn; auto 10 |].
  destruct (G "p__super_colatitude") as (pc & Epc); [cbn; auto 10 |].
  destruct (G "s__super_colatitude") as (sc & Esc); [cbn; auto 10 |].
  destruct (G "p__phase_shift") as (pp & Epp); [cbn; auto 10 |].
  destruct (G "s__phase_shift") as (sp & Esp); [cbn; auto 10 |].
  destruct (G "p__super_radius") as (rp & Erp); [cbn; auto 10 |].
  destruct (G "s__super_radius") as (rs & Ers); [cbn; auto 10 |].
  unfold __call__, ang_sep; cbv zeta.
  repeat first
    [ progress known
    | match goal with
      | |- returns (if ?b then _ else _) => destruct b
      | |- returns (Ok _) => eexists; reflexivity
      end ].
Qed.

(** When [mu] is not defined: the product under the quotient is zero, or
    the quotient is negative. *)
Lemma mu_undefined (ref : Spacetime) :
  let d := 3.0 * epsilon ref * (-0.788 + 1.030 * zeta ref) in
  (is_zero d = true -> mu ref = Raise ZeroDivisionError) /\
  (is_zero d = false -> (-1.0 / d <? 0.0) = true ->
   mu ref = Raise ValueError).
Proof.
  unfold mu, truediv; cbv zeta; split.
  - intros ->; reflexivity.
  - intros -> N; cbn [bind]; apply math_sqrt_negative, N.
Qed.


End CallPaths.

(** ** The density *)

Section DensityFacts.

Import Subspace.

Context `{Xpsi} `{Scipy} `{Libm}.

Lemma math_sqrt_one_minus_rho2 :
  math_sqrt (1.0 - 0.916 * 0.916) = Ok (sqrt (1.0 - 0.916 * 0.916)).
Proof. vm_compute; reflexivity. Qed.

(** The precomputed conditional scale and the double that
    [sqrt (1 - _corr^2) * _std_cosi] rounds to are neighbours. *)
Lemma cond_std_value :
  _cond_std = next_up (sqrt (1.0 - _corr * _corr) * _std_cosi).
Proof. vm_compute; reflexivity. Qed.

Lemma density_outside
  (self : CustomPrior) (point : list float) (logp : float) :
  __call__ self (Some point) = Ok logp -> is_finite logp = false ->
  density self point = Ok 0.0.
Proof.
  intros C F; unfold density; rewrite C; cbn [bind]; rewrite F; reflexivity.
Qed.

(** Inside the support, [density] is its product of factors. *)
Lemma density_inside
  (self : CustomPrior) (point : list float) (logp : float) :
  __call__ self (Some point) = Ok logp -> is_finite logp = true ->
  density self point
  = (let ref := parameters self in
     d <- getitem ref "distance" ;;
     m <- getitem ref "mass" ;;
     q <- get_param ref "cos_inclination" ;;
     let product :=
       distance_factor d * mass_factor m
       * cos_inclination_factor (value q) m (fst (strict_bounds q)) in
     try_except_KeyError (getitem ref "PN__alpha") (Ok product)
       (fun pn =>
          xti <- getitem ref "XTI__alpha" ;;
          e <- math_exp
                 (-1.0 * bivariate_normal_exponent xti pn 1.0 0.104 0.916) ;;
          Ok (product * e / bivariate_normal_norm 0.104 0.916))).
Proof.
  intros C F; unfold density; rewrite C; cbn [bind]; rewrite F.
  cbn [negb]; cbv zeta.
  destruct (getitem (parameters self) "distance") as [d |]; [| reflexivity].
  cbn [bind].
  destruct (getitem (parameters self) "mass") as [m |]; [| reflexivity].
  cbn [bind]; unfold getitem at 1.
  destruct (get_param (parameters self) "cos_inclination") as [q |];
    [| reflexivity].
  cbn [bind]; rewrite mul_1_l.
  destruct (getitem (parameters self) "PN__alpha") as [pn |];
    [| reflexivity].
  cbn [try_except_KeyError].
  destruct (getitem (parameters self) "XTI__alpha") as [xti |];
    [| reflexivity].
  cbn [bind].
  unfold bivariate_normal_exponent, bivariate_normal_norm.
  destruct (math_exp _) as [e |]; [| reflexivity].
  cbn [bind]; rewrite math_sqrt_one_minus_rho2; reflexivity.
Qed.

Lemma norm_positive :
  (0.0 <? bivariate_normal_norm 0.104 0.916) = true /\
  is_finite (bivariate_normal_norm 0.104 0.916) = true.
Proof. split; vm_compute; reflexivity. Qed.

Lemma one_below : below 1 (Prim2SF 1.0).
Proof.
  change (Prim2SF 1.0) with (S754_finite false 4503599627370496 (-52)).
  unfold below.
  change (digits2_pos 4503599627370496) with 53%positive; lia.
Qed.

Lemma product_below (a b c : float) :
  bounded_factor a -> bounded_factor b -> bounded_factor c ->
  below 197 (Prim2SF (a * b * c)).
Proof.
  intros A B C; apply bounded_factor_below in A, B, C.
  apply (mul_below (65 + 65 + 1) 65); try lia; [| exact C].
  apply (mul_below 65 65); try lia; assumption.
Qed.

Lemma density_nonneg_inside
  (self : CustomPrior) (point : list float) (logp v : float) :
  __call__ self (Some point) = Ok logp -> is_finite logp = true ->
  factors_bounded (parameters self) ->
  density self point = Ok v -> (0.0 <=? v) = true.
Proof.
  intros C F (Bd & Bm & Bc & Ba); rewrite (density_inside _ _ _ C F).
  cbv zeta; intros D; steps D.
  pose proof (product_below _ _ _ (Bd _ eq_refl) (Bm _ eq_refl)
                (Bc _ _ eq_refl eq_refl)) as P.
  destruct (getitem (parameters self) "PN__alpha") as [pn | e] eqn:N;
    cbn [try_except_KeyError] in D.
  - cbv beta in D; steps D; injection D as <-.
    match goal with M : math_exp _ = Ok _ |- _ =>
      apply math_1_value in M; subst end.
    apply signed_nonneg, (div_signed (197 + 65 + 1)); try apply norm_positive.
    apply (mul_below 197 65); try lia; [exact P |].
    apply bounded_factor_below, (Ba _ _ eq_refl eq_refl).
  - destruct e; try discriminate D.
    injection D as <-; exact (below_nonneg _ _ P).
Qed.

(** Inside the support, with no factor negative, the value is not a
    negative number. *)
Lemma density_not_negative_inside
  (self : CustomPrior) (point : list float) (logp v : float) :
  __call__ self (Some point) = Ok logp -> is_finite logp = true ->
  factors_not_negative (parameters self) ->
  density self point = Ok v -> not_negative v.
Proof.
  intros C F (Bd & Bm & Bc & Ba); rewrite (density_inside _ _ _ C F).
  cbv zeta; intros D; steps D.
  assert (P : not_negative
                (distance_factor a * mass_factor a0
                 * cos_inclination_factor (value a1) a0
                     (fst (strict_bounds a1)))).
  { apply mul_not_negative; [apply mul_not_negative |].
    - exact (Bd _ eq_refl).
    - exact (Bm _ eq_refl).
    - exact (Bc _ _ eq_refl eq_refl). }
  destruct (getitem (parameters self) "PN__alpha") as [pn | e] eqn:N;
    cbn [try_except_KeyError] in D.
  - cbv beta in D; steps D; injection D as <-.
    match goal with M : math_exp _ = Ok _ |- _ =>
      apply math_1_value in M; subst end.
    apply div_not_negative; try apply norm_positive.
    apply mul_not_negative; [exact P |].
    exact (Ba _ _ eq_refl eq_refl).
  - destruct e; try discriminate D.
    injection D as <-; exact P.
Qed.

End DensityFacts.
(** ** Inverse sampling: the properties *)

Section SamplingClaims.

Import Subspace.

Context `{Xpsi} `{Scipy} `{Libm} `{NumpyRandom}.

Lemma colatitude_draw_value (a b u v : float) :
  colatitude_draw a b u = Ok v ->
  v = libm_acos (libm_cos b + (libm_cos a - libm_cos b) * u).
Proof.
  unfold colatitude_draw; intros D; steps D.
  apply math_1_value in E, E0, D; subst; reflexivity.
Qed.

Lemma colatitude_drawn
  (self self' : CustomPrior) (u vec : list float) (ref' : ParameterSubspace)
  (key : string) :
  sampled self self' u vec ref' -> In key colatitude_keys ->
  exists idx ui q,
    index (parameters self) key = Ok idx /\ nth_error u idx = Some ui /\
    get_param (parameters self) key = Ok q /\
    let v := libm_acos (libm_cos (snd (bounds q))
                        + (libm_cos (fst (bounds q))
                           - libm_cos (snd (bounds q))) * ui) in
    getitem (parameters self') key = Ok v /\ nth_error vec idx = Some v.
Proof.
  intros S K.
  destruct (sample_at_chain _ _ _ (sampled_at _ _ _ _ _ S))
    as (r0 & r1 & r2 & r3 & r4 & r5 & r6 & c).
  assert (D : exists idx ui q v,
             index (parameters self) key = Ok idx /\
             nth_error u idx = Some ui /\
             get_param (parameters self) key = Ok q /\
             colatitude_draw (fst (bounds q)) (snd (bounds q)) ui = Ok v /\
             getitem ref' key = Ok v).
  { destruct K as [<- | [<- | []]].
    - exact (chain_p_colatitude _ _ _ _ _ _ _ _ _ _ c).
    - exact (chain_s_colatitude _ _ _ _ _ _ _ _ _ _ c). }
  destruct D as (idx & ui & q & v & I & N & G & D & V).
  apply colatitude_draw_value in D; subst v.
  exists idx, ui, q; cbv zeta; repeat split; try assumption.
  - rewrite (sampled_getitem _ _ _ _ _ S); exact V.
  - exact (sampled_entry _ _ _ _ _ S _ _ _ I V).
Qed.

End SamplingClaims.

(** C5.  With the hypercube [u] given, the vector [inverse_sample] returns
    (or the exception it raises) is the same whatever the state of the
    random generator: two calls from the same parameters give the same
    vector. *)
Theorem inverse_sample_deterministic
  `{Xpsi} `{Scipy} `{Libm} `{NumpyRandom}
  (self : CustomPrior) (u : list float) (state1 state2 : rng) :
  output (inverse_sample self (Some u) state1)
  = output (inverse_sample self (Some u) state2).
Proof.
  unfold inverse_sample, output.
  destruct (sample_at (parameters self) u) as [ref' | e]; reflexivity.
Qed.

(** C6.  Whenever [inverse_sample] returns, each of the two hot-region
    colatitudes holds acos(cos(b) + (cos(a) - cos(b)) * u[idx]), with (a, b)
    the bounds of that parameter and idx its own index, and so does the
    returned vector at idx; and the call does return on every samplable
    input. *)
Theorem inverse_sample_colatitudes
  `{Xpsi} `{Scipy} `{Libm} `{NumpyRandom}
  (self : CustomPrior) (u : list float) (state : rng) :
  (samplable (parameters self) u ->
   returns (inverse_sample self (Some u) state)) /\
  forall vec self' state',
    inverse_sample self (Some u) state = Ok (vec, self', state') ->
    forall key, In key colatitude_keys ->
    exists idx ui a b,
      Subspace.index (parameters self) key = Ok idx /\
      nth_error u idx = Some ui /\
      (q <- Subspace.get_param (parameters self) key ;; Ok (bounds q))
      = Ok (a, b) /\
      let v := libm_acos (libm_cos b + (libm_cos a - libm_cos b) * ui) in
      Subspace.getitem (parameters self') key = Ok v /\
      nth_error vec idx = Some v.
Proof.
  split; [apply inverse_sample_returns |].
  intros vec self' state' S key K.
  apply inverse_sample_sampled in S as (ref' & S & _); cbn in S.
  destruct (colatitude_drawn _ _ _ _ _ _ S K) as (idx & ui & q & I & N & G & V).
  exists idx, ui, (fst (bounds q)), (snd (bounds q)).
  rewrite G; cbn [bind]; rewrite <- surjective_pairing.
  repeat split; try assumption; apply V.
Qed.
Section SamplingClaims2.

Import Subspace.

Context `{Xpsi} `{Scipy} `{Libm} `{NumpyRandom}.

Lemma cond_std_alpha_value :
  _cond_std_alpha = sqrt (1.0 - 0.916 * 0.916) * 0.104.
Proof. vm_compute; reflexivity. Qed.

Lemma not_present (ref : ParameterSubspace) (key : string) :
  ~ present ref key -> get_param ref key = Raise (KeyError key).
Proof.
  intros A; destruct (get_param ref key) as [q | e] eqn:G.
  - exfalso; apply A; exists q; exact G.
  - destruct (get_param_missing _ _ _ G) as (-> & _); reflexivity.
Qed.

Lemma XTI_alpha_drawn
  (self self' : CustomPrior) (u vec : list float) (ref' : ParameterSubspace) :
  sampled self self' u vec ref' ->
  (~ present (parameters self) "XTI__alpha" /\
   getitem (parameters self') "XTI__alpha" = Raise (KeyError "XTI__alpha")) \/
  exists idx ui,
    present (parameters self) "XTI__alpha" /\
    index (parameters self) "XTI__alpha" = Ok idx /\
    nth_error u idx = Some ui /\
    getitem (parameters self') "XTI__alpha"
    = Ok (truncnorm_ppf ui (-5.0) 5.0 1.0 0.104).
Proof.
  intros S.
  destruct (sample_at_chain _ _ _ (sampled_at _ _ _ _ _ S))
    as (r0 & r1 & r2 & r3 & r4 & r5 & r6 & c).
  rewrite (sampled_getitem _ _ _ _ _ S).
  destruct (chain_XTI_alpha _ _ _ _ _ _ _ _ _ _ c)
    as [(A & E) | (idx & ui & I & N & G)].
  - left; split; [| exact E].
    intros (q & Q); congruence.
  - right; exists idx, ui; repeat split; try assumption.
    destruct (index_get_param _ _ _ I) as (q & Q & _); exists q; exact Q.
Qed.

Lemma PN_alpha_drawn
  (self self' : CustomPrior) (u vec : list float) (ref' : ParameterSubspace) :
  sampled self self' u vec ref' ->
  present (parameters self) "PN__alpha" ->
  exists idx ui,
    index (parameters self) "PN__alpha" = Ok idx /\
    nth_error u idx = Some ui /\
    let v := truncnorm_ppf ui (-5.0) 5.0
               (fst (PN_alpha_loc_scale (parameters self')))
               (snd (PN_alpha_loc_scale (parameters self'))) in
    getitem (parameters self') "PN__alpha" = Ok v /\
    nth_error vec idx = Some v.
Proof.
  intros S (q & Q).
  destruct (sample_at_chain _ _ _ (sampled_at _ _ _ _ _ S))
    as (r0 & r1 & r2 & r3 & r4 & r5 & r6 & c).
  destruct (chain_PN_alpha _ _ _ _ _ _ _ _ _ _ c)
    as [(A & _) | (idx & ui & I & N & G)]; [congruence |].
  exists idx, ui; cbv zeta.
  unfold PN_alpha_loc_scale in *; rewrite !(sampled_getitem _ _ _ _ _ S).
  repeat split; try assumption.
  exact (sampled_entry _ _ _ _ _ S _ _ _ I G).
Qed.

(** *** The parameters no block assigns keep the default draw *)

Lemma update_nth_other
  (ref : ParameterSubspace) (key : string) (v : float) (i : nat) (q : Param) :
  nth_error ref i = Some q -> String.eqb (name q) key = false ->
  nth_error (update ref key v) i = Some q.
Proof.
  revert i; induction ref as [| q0 ref IH]; intros [| i]; cbn;
    try discriminate.
  - intros [= ->] D; rewrite D; reflexivity.
  - intros N D; destruct (String.eqb (name q0) key); cbn; [exact N |].
    apply IH; assumption.
Qed.

Lemma touches_nth_other
  (key : string) (ref ref' : ParameterSubspace) (i : nat) (q : Param) :
  touches key ref ref' -> nth_error ref i = Some q ->
  String.eqb (name q) key = false -> nth_error ref' i = Some q.
Proof.
  intros [-> | (v & ->)] N D; [exact N | apply update_nth_other; assumption].
Qed.

Lemma Prior_inverse_sample_nth
  (u : list float) (ref ref' : ParameterSubspace) (i : nat) (q : Param) :
  Prior_inverse_sample u ref = Ok ref' -> nth_error ref i = Some q ->
  exists ui, nth_error u i = Some ui /\
             nth_error ref' i
             = Some (set_value q (Prior_inverse_sample_1 q ui)).
Proof.
  revert u ref' i; induction ref as [| q0 ref IH]; intros u ref' i; cbn.
  - destruct i; discriminate.
  - destruct u as [| u0 u]; [discriminate |].
    intros S; steps S; injection S as <-.
    destruct i as [| i]; cbn.
    + intros [= ->]; exists u0; split; reflexivity.
    + apply IH, E.
Qed.

Lemma default_kept
  (self self' : CustomPrior) (u vec : list float) (ref' : ParameterSubspace)
  (i : nat) (q : Param) :
  sampled self self' u vec ref' ->
  nth_error (parameters self) i = Some q ->
  ~ In (name q) overwritten_keys ->
  exists ui, nth_error u i = Some ui /\
             nth_error vec i = Some (Prior_inverse_sample_1 q ui).
Proof.
  intros S N O.
  destruct (sample_at_chain _ _ _ (sampled_at _ _ _ _ _ S))
    as (r0 & r1 & r2 & r3 & r4 & r5 & r6 & [B D M C P T X A]).
  destruct (Prior_inverse_sample_nth _ _ _ _ _ B N) as (ui & U & N0).
  exists ui; split; [exact U |].
  assert (other : forall key, In key overwritten_keys ->
                              String.eqb (name q) key = false).
  { intros key K; apply String.eqb_neq; intros E; apply O; rewrite E; exact K. }
  apply sample_distance_touches in D.
  apply sample_mass_touches in M.
  apply sample_cos_inclination_touches in C.
  apply sample_colatitude_touches in P.
  apply sample_colatitude_touches in T.
  apply sample_XTI_alpha_touches in X.
  apply sample_PN_alpha_touches in A.
  cbn in other.
  apply (touches_nth_other _ _ _ _ _ D) in N0; [| apply other; auto 8].
  apply (touches_nth_other _ _ _ _ _ M) in N0; [| apply other; auto 8].
  apply (touches_nth_other _ _ _ _ _ C) in N0; [| apply other; auto 8].
  apply (touches_nth_other _ _ _ _ _ P) in N0; [| apply other; auto 8].
  apply (touches_nth_other _ _ _ _ _ T) in N0; [| apply other; auto 8].
  apply (touches_nth_other _ _ _ _ _ X) in N0; [| apply other; auto 8].
  apply (touches_nth_other _ _ _ _ _ A) in N0; [| apply other; auto 8].
  rewrite (sampled_vector _ _ _ _ _ S); unfold vector.
  apply (map_nth_error value) in N0; exact N0.
Qed.

Lemma distance_mass_drawn
  (self self' : CustomPrior) (u vec : list float) (ref' : ParameterSubspace) :
  sampled self self' u vec ref' ->
  (exists idx ui,
      index (parameters self) "distance" = Ok idx /\
      nth_error u idx = Some ui /\
      nth_error vec idx = Some (skewnorm_ppf ui 1.7 1.002 0.227)) /\
  (exists idx ui,
      index (parameters self) "mass" = Ok idx /\
      nth_error u idx = Some ui /\
      nth_error vec idx = Some (truncnorm_ppf ui (-5.0) 5.0 _mu_m _std_m)).
Proof.
  intros S.
  destruct (sample_at_chain _ _ _ (sampled_at _ _ _ _ _ S))
    as (r0 & r1 & r2 & r3 & r4 & r5 & r6 & c).
  destruct (chain_distance _ _ _ _ _ _ _ _ _ _ c) as (i & x & I & N & G).
  destruct (chain_mass _ _ _ _ _ _ _ _ _ _ c) as (j & y & J & M & _ & G').
  split; [exists i, x | exists j, y]; repeat split; try assumption.
  - exact (sampled_entry _ _ _ _ _ S _ _ _ I G).
  - exact (sampled_entry _ _ _ _ _ S _ _ _ J G').
Qed.

End SamplingClaims2.

(** C7.  Whenever [inverse_sample] returns and [PN__alpha] exists, it holds
    the truncated-normal inverse CDF at its own coordinate of the hypercube,
    truncated at +/-5 standard deviations: with location
    1.0 + 0.916 * (XTI__alpha - 1.0) and scale sqrt(1 - 0.916^2) * 0.104 when
    [XTI__alpha] exists (its value being the one just drawn), and with
    location 1.0 and scale 0.104 when it does not.  The call returns on
    every samplable input. *)
Theorem inverse_sample_PN_alpha
  `{Xpsi} `{Scipy} `{Libm} `{NumpyRandom}
  (self : CustomPrior) (u : list float) (state : rng) :
  (samplable (parameters self) u ->
   returns (inverse_sample self (Some u) state)) /\
  forall vec self' state',
    inverse_sample self (Some u) state = Ok (vec, self', state') ->
    present (parameters self) "PN__alpha" ->
    exists idx ui,
      Subspace.index (parameters self) "PN__alpha" = Ok idx /\
      nth_error u idx = Some ui /\
      (present (parameters self) "XTI__alpha" ->
       exists xti,
         Subspace.getitem (parameters self') "XTI__alpha" = Ok xti /\
         Subspace.getitem (parameters self') "PN__alpha"
         = Ok (truncnorm_ppf ui (-5.0) 5.0 (1.0 + 0.916 * (xti - 1.0))
                             (sqrt (1.0 - 0.916 * 0.916) * 0.104))) /\
      (~ present (parameters self) "XTI__alpha" ->
       Subspace.getitem (parameters self') "PN__alpha"
       = Ok (truncnorm_ppf ui (-5.0) 5.0 1.0 0.104)).
Proof.
  split; [apply inverse_sample_returns |].
  intros vec self' state' S P.
  apply inverse_sample_sampled in S as (ref' & S & _); cbn in S.
  destruct (PN_alpha_drawn _ _ _ _ _ S P) as (idx & ui & I & N & G & _).
  exists idx, ui; repeat split; try assumption.
  - intros X.
    destruct (XTI_alpha_drawn _ _ _ _ _ S)
      as [(A & _) | (j & uj & _ & _ & _ & E)]; [contradiction |].
    eexists; split; [exact E |].
    unfold PN_alpha_loc_scale in G; rewrite E in G; cbn [fst snd] in G.
    rewrite <- cond_std_alpha_value; exact G.
  - intros A.
    destruct (XTI_alpha_drawn _ _ _ _ _ S)
      as [(_ & E) | (j & uj & X & _)]; [| contradiction].
    unfold PN_alpha_loc_scale in G; rewrite E in G; exact G.
Qed.

(** C8.  After [inverse_sample] returns, the parameters are the same in
    name and order, the cached value of each is the value it held when the
    call began, and the returned vector is the vector of the values now
    held: the draw of the skew-normal for the distance, of the truncated
    normal for the mass, and the default draw of the base class for every
    parameter no block of the method assigns. *)
Theorem inverse_sample_restores_cache
  `{Xpsi} `{Scipy} `{Libm} `{NumpyRandom}
  (self self' : CustomPrior) (hypercube : option (list float))
  (state state' : rng) (vec : list float) :
  inverse_sample self hypercube state = Ok (vec, self', state') ->
  let u := fst (hypercube_of self hypercube state) in
  Subspace.names (parameters self') = Subspace.names (parameters self) /\
  map cached (parameters self')
  = map Some (Subspace.vector (parameters self)) /\
  vec = Subspace.vector (parameters self') /\
  (exists idx ui,
      Subspace.index (parameters self) "distance" = Ok idx /\
      nth_error u idx = Some ui /\
      nth_error vec idx = Some (skewnorm_ppf ui 1.7 1.002 0.227)) /\
  (exists idx ui,
      Subspace.index (parameters self) "mass" = Ok idx /\
      nth_error u idx = Some ui /\
      nth_error vec idx = Some (truncnorm_ppf ui (-5.0) 5.0 2.082 0.0703)) /\
  (forall i q,
      nth_error (parameters self) i = Some q ->
      ~ In (name q) overwritten_keys ->
      exists ui, nth_error u i = Some ui /\
                 nth_error vec i = Some (Prior_inverse_sample_1 q ui)).
Proof.
  intros S u; apply inverse_sample_sampled in S as (ref' & S & _).
  fold u in S.
  destruct (distance_mass_drawn _ _ _ _ _ S) as (D & M).
  repeat split.
  - exact (sampled_names _ _ _ _ _ S).
  - exact (sampled_cached _ _ _ _ _ S).
  - rewrite (sampled_parameters _ _ _ _ _ S), restore_cache_vector.
    exact (sampled_vector _ _ _ _ _ S).
  - exact D.
  - exact M.
  - intros i q; apply (default_kept _ _ _ _ _ _ _ S).
Qed.
(** ** The support evaluator and the density: the properties *)

Section DensityClaims.

Import Subspace.

Context `{Xpsi} `{Scipy} `{Libm}.

Lemma density_calls (self : CustomPrior) (point : list float) (v : float) :
  density self point = Ok v ->
  exists logp, __call__ self (Some point) = Ok logp.
Proof.
  unfold density.
  destruct (__call__ self (Some point)) as [logp | e]; [eauto | discriminate].
Qed.

(** [density] returns inside the support when the parameters it reads
    exist and [math.exp] does not overflow. *)
Lemma density_returns
  (self : CustomPrior) (point : list float) (logp : float) :
  __call__ self (Some point) = Ok logp -> is_finite logp = true ->
  present (parameters self) "mass" ->
  present (parameters self) "cos_inclination" ->
  (forall pn, getitem (parameters self) "PN__alpha" = Ok pn ->
              exists xti,
                getitem (parameters self) "XTI__alpha" = Ok xti /\
                returns (math_exp (-1.0 * bivariate_normal_exponent
                                            xti pn 1.0 0.104 0.916))) ->
  returns (density self point).
Proof.
  intros C F M (q & Q) A; rewrite (density_inside _ _ _ C F); cbv zeta.
  destruct (call_inside _ _ _ C F) as (_ & _ & d & D).
  destruct (present_getitem _ _ M) as (m & Em).
  rewrite D, Em, Q; cbn [bind].
  destruct (getitem (parameters self) "PN__alpha") as [pn | e] eqn:N.
  - destruct (A pn eq_refl) as (xti & X & (e & E)).
    cbn [try_except_KeyError]; rewrite X; cbn [bind]; rewrite E.
    eexists; reflexivity.
  - rewrite (getitem_KeyError _ _ _ N); eexists; reflexivity.
Qed.

Lemma density_KeyError
  (self : CustomPrior) (point : list float) (logp : float) :
  __call__ self (Some point) = Ok logp -> is_finite logp = true ->
  present (parameters self) "PN__alpha" ->
  ~ present (parameters self) "XTI__alpha" ->
  exists key, density self point = Raise (KeyError key) /\
              (present (parameters self) "mass" ->
               present (parameters self) "cos_inclination" ->
               key = "XTI__alpha").
Proof.
  intros C F P A; rewrite (density_inside _ _ _ C F); cbv zeta.
  destruct (call_inside _ _ _ C F) as (_ & _ & d & D); rewrite D; cbn [bind].
  apply present_getitem in P as (pn & N).
  apply not_present in A.
  destruct (getitem (parameters self) "mass") as [m | e] eqn:M; cbn [bind].
  - destruct (get_param (parameters self) "cos_inclination") as [q | e] eqn:Q;
      cbn [bind].
    + rewrite N; cbn [try_except_KeyError]; unfold getitem at 1.
      rewrite A; cbn [bind]; eexists; split; reflexivity.
    + destruct (get_param_missing _ _ _ Q) as (-> & _).
      eexists; split; [reflexivity |].
      intros _ (q & Q'); congruence.
  - rewrite (getitem_KeyError _ _ _ M); eexists; split; [reflexivity |].
    intros (q & Q') _; unfold getitem in M; rewrite Q' in M; discriminate.
Qed.

End DensityClaims.

(** C2, as amended.  [density] is exactly 0.0 whenever the support
    evaluator returns a value that is not finite.  A value it returns is
    not a negative number when no factor supplied by scipy and by exp is
    one; it is then >= 0 or NaN, and NaN it can be: when the exponent of
    the bivariate normal is NaN (two scale factors so large that it is
    infinity minus infinity), exp returns NaN and so does [density].  It is
    >= 0 when every factor is a number in [0, 2^64]. *)
Theorem density_nonneg `{Xpsi} `{Scipy} `{Libm}
  (self : CustomPrior) (point : list float) :
  (forall logp, __call__ self (Some point) = Ok logp ->
                is_finite logp = false -> density self point = Ok 0.0) /\
  (factors_not_negative (parameters self) ->
   forall v, density self point = Ok v -> (v <? 0.0) = false) /\
  (factors_bounded (parameters self) ->
   forall v, density self point = Ok v -> (0.0 <=? v) = true).
Proof.
  split; [apply density_outside |]; split.
  - intros B v D; destruct (density_calls _ _ _ D) as (logp & C).
    destruct (is_finite logp) eqn:F.
    + exact (density_not_negative_inside _ _ _ _ C F B D).
    + rewrite (density_outside _ _ _ C F) in D; injection D as <-.
      reflexivity.
  - intros B v D; destruct (density_calls _ _ _ D) as (logp & C).
    destruct (is_finite logp) eqn:F.
    + exact (density_nonneg_inside _ _ _ _ C F B D).
    + rewrite (density_outside _ _ _ C F) in D; injection D as <-.
      reflexivity.
Qed.

(** C3, as amended.  Inside the support, [density] is the product of the
    skew-normal density of the distance (skewness 1.7, location 1.002,
    scale 0.227), the truncated-normal density of the mass (+/-5 standard
    deviations, location 2.082, scale 0.0703) and the truncated-normal
    density of cos(inclination) with location
    0.0427 + (0.00304 / 0.0703) 0.8 (mass - 2.082), lower bound
    min(-10, (strict lower bound - location) / scale), upper bound 10 and
    scale sqrt ((1 - 0.8^2) 0.00304^2) as the program precomputes it, which
    is not the double sqrt (1 - 0.8^2) 0.00304 but the one next above it;
    times, when [PN__alpha] is present, the bivariate normal density of the
    two instrument scale factors (correlation 0.916, standard deviation
    0.104, centred at 1.0), multiplied in as
    [product * exp (- exponent) / norm]. *)
Theorem density_product `{Xpsi} `{Scipy} `{Libm}
  (self : CustomPrior) (point : list float) (logp d m : float) (q : Param) :
  __call__ self (Some point) = Ok logp -> is_finite logp = true ->
  Subspace.getitem (parameters self) "distance" = Ok d ->
  Subspace.getitem (parameters self) "mass" = Ok m ->
  Subspace.get_param (parameters self) "cos_inclination" = Ok q ->
  let location := 0.0427 + (0.00304 / 0.0703) * 0.800 * (m - 2.082) in
  let scale := sqrt ((1.0 - 0.800 * 0.800) * 0.00304 * 0.00304) in
  let lower := py_min (-10.0) ((fst (strict_bounds q) - location) / scale) in
  let product :=
    skewnorm_pdf d 1.7 1.002 0.227
    * truncnorm_pdf m (-5.0) 5.0 2.082 0.0703
    * truncnorm_pdf (value q) lower 10.0 location scale in
  scale = next_up (sqrt (1.0 - 0.800 * 0.800) * 0.00304) /\
  (~ present (parameters self) "PN__alpha" ->
   density self point = Ok product) /\
  (forall xti pn,
      Subspace.getitem (parameters self) "XTI__alpha" = Ok xti ->
      Subspace.getitem (parameters self) "PN__alpha" = Ok pn ->
      let exponent := bivariate_normal_exponent xti pn 1.0 0.104 0.916 in
      returns (math_exp (-1.0 * exponent)) ->
      density self point
      = Ok (product * libm_exp (-1.0 * exponent)
            / bivariate_normal_norm 0.104 0.916)).
Proof.
  intros C F D M Q location scale lower product.
  split; [exact cond_std_value |].
  rewrite (density_inside _ _ _ C F); cbv zeta; rewrite D, M, Q; cbn [bind].
  split.
  - intros A; apply not_present in A; unfold Subspace.getitem; rewrite A.
    reflexivity.
  - intros xti pn X N (e & E); rewrite N; cbn [try_except_KeyError].
    rewrite X; cbn [bind]; rewrite E; cbn [bind].
    apply math_1_value in E; subst e; reflexivity.
Qed.

(** C10.  With [PN__alpha] present and [XTI__alpha] absent, [density]
    raises a KeyError on every vector inside the support (for the key
    [XTI__alpha], the mass and cos(inclination) being present), while
    [inverse_sample] returns on every samplable input and leaves under
    [PN__alpha] the draw of location 1.0 and scale 0.104. *)
Theorem PN_alpha_without_XTI_alpha `{Xpsi} `{Scipy} `{Libm} `{NumpyRandom}
  (self : CustomPrior) :
  present (parameters self) "PN__alpha" ->
  ~ present (parameters self) "XTI__alpha" ->
  (forall point logp,
      __call__ self (Some point) = Ok logp -> is_finite logp = true ->
      exists key, density self point = Raise (KeyError key) /\
                  (present (parameters self) "mass" ->
                   present (parameters self) "cos_inclination" ->
                   key = "XTI__alpha")) /\
  (forall u state,
      samplable (parameters self) u ->
      exists vec self' state' idx ui,
        inverse_sample self (Some u) state = Ok (vec, self', state') /\
        Subspace.index (parameters self) "PN__alpha" = Ok idx /\
        nth_error u idx = Some ui /\
        Subspace.getitem (parameters self') "PN__alpha"
        = Ok (truncnorm_ppf ui (-5.0) 5.0 1.0 0.104) /\
        nth_error vec idx = Some (truncnorm_ppf ui (-5.0) 5.0 1.0 0.104)).
Proof.
  intros P A; split.
  - intros point logp C F; exact (density_KeyError _ _ _ C F P A).
  - intros u state S.
    destruct (inverse_sample_returns self u state S) as (((vec & self') & state') & R).
    apply inverse_sample_sampled in R as R'; destruct R' as (ref' & D & _).
    cbn in D.
    destruct (PN_alpha_drawn _ _ _ _ _ D P) as (idx & ui & I & N & G & V).
    destruct (XTI_alpha_drawn _ _ _ _ _ D) as [(_ & E) | (j & uj & X & _)];
      [| contradiction].
    unfold PN_alpha_loc_scale in G, V; rewrite E in G, V.
    exists vec, self', state', idx, ui; repeat split; assumption.
Qed.
(** ** The transformation for post-processing *)

Section Transform.

Context `{Xpsi}.

Lemma transform_inv (self : CustomPrior) (p out : list float) :
  transform self p = Ok out ->
  let ref := combine (Subspace.names (parameters self)) p in
  exists mass radius compactness p_shift s_shift,
    dict_getitem ref "mass" = Ok mass /\
    dict_getitem ref "radius" = Ok radius /\
    truediv (gravradius mass) radius = Ok compactness /\
    dict_getitem ref "p__phase_shift" = Ok p_shift /\
    dict_getitem ref "s__phase_shift" = Ok s_shift /\
    out = p ++ [compactness; shifted p_shift; shifted s_shift].
Proof.
  unfold transform; cbv zeta; intros T; steps T; injection T as <-.
  do 5 eexists; repeat split; try eassumption.
  rewrite <- !app_assoc; reflexivity.
Qed.

Lemma shifted_above (v : float) :
  (0.5 <? v) = true -> (v <? 1.0) = true ->
  (-0.5 <? v - 1.0) = true /\ (v - 1.0 <=? 0.5) = true.
Proof.
  intros Lo Hi; destruct (sub_1_half_to_one v Lo Hi) as (k & e & E & B).
  rewrite ltb_spec, leb_spec, E.
  change (Prim2SF (-0.5)) with (S754_finite true 4503599627370496 (-53)).
  change (Prim2SF 0.5) with (S754_finite false 4503599627370496 (-53)).
  unfold SFltb, SFleb, SFcompare; split; [| reflexivity].
  destruct (Z.compare_spec (-53) e) as [C | C | C]; try lia; reflexivity.
Qed.

Lemma shifted_below (v : float) :
  (0.0 <=? v) = true -> (0.5 <? v) = false ->
  (-0.5 <? v) = true /\ (v <=? 0.5) = true.
Proof.
  intros Lo Hi; split.
  - rewrite leb_spec in Lo; rewrite ltb_spec.
    change (Prim2SF 0.0) with (S754_zero false) in Lo.
    change (Prim2SF (-0.5)) with (S754_finite true 4503599627370496 (-53)).
    destruct (Prim2SF v) as [s | s | | s m e];
      unfold SFltb, SFleb, SFcompare in *; try discriminate;
      try reflexivity; destruct s; try discriminate; reflexivity.
  - apply not_gtb_leb; [exact (leb_number_r _ _ Lo) | reflexivity |].
    exact Hi.
Qed.

Lemma shifted_range (v : float) :
  (0.0 <=? v) = true -> (v <? 1.0) = true ->
  (-0.5 <? shifted v) = true /\ (shifted v <=? 0.5) = true.
Proof.
  intros Lo Hi; unfold shifted, gtb.
  destruct (0.5 <? v) eqn:A.
  - exact (shifted_above v A Hi).
  - exact (shifted_below v Lo A).
Qed.

End Transform.

(** C9, as amended.  For each of the two phase shifts [transform] appends
    the value minus 1.0 when the value exceeds 0.5 and the value itself
    otherwise; for every phase in [0, 1) what it appends lies in
    (-0.5, 0.5]; a phase of 0.3 yields 0.3 and a phase of 0.7 yields the
    double 0.7 - 1.0, the neighbour below -0.3. *)
Theorem phase_shift_folded `{Xpsi} :
  (forall self p out,
      transform self p = Ok out ->
      let ref := combine (Subspace.names (parameters self)) p in
      exists compactness p_shift s_shift,
        dict_getitem ref "p__phase_shift" = Ok p_shift /\
        dict_getitem ref "s__phase_shift" = Ok s_shift /\
        out = p ++ [compactness;
                    if p_shift >? 0.5 then p_shift - 1.0 else p_shift;
                    if s_shift >? 0.5 then s_shift - 1.0 else s_shift]) /\
  (forall v, (0.0 <=? v) = true -> (v <? 1.0) = true ->
             (-0.5 <? shifted v) = true /\ (shifted v <=? 0.5) = true) /\
  shifted 0.3 = 0.3 /\
  shifted 0.7 = 0.7 - 1.0 /\ 0.7 - 1.0 = next_down (-0.3).
Proof.
  split; [| split; [exact shifted_range |]].
  - intros self p out T.
    destruct (transform_inv _ _ _ T)
      as (mass & radius & compactness & p_shift & s_shift
          & _ & _ & _ & P & S & ->).
    exists compactness, p_shift, s_shift; repeat split; assumption.
  - repeat split; vm_compute; reflexivity.
Qed.
(** ** The support evaluator: exact verdict, order of the checks, NaN and
    exceptions *)

Section FloatNaN.

Lemma is_nan_true (x : float) : is_nan x = true -> Prim2SF x = S754_nan.
Proof.
  intros N; destruct (Prim2SF x) eqn:E; try reflexivity;
    assert (F : is_nan x = false)
      by (apply is_nan_false; rewrite E; discriminate);
    congruence.
Qed.

(** No comparison with NaN is true. *)
Lemma nan_unordered (x y : float) :
  is_nan x = true ->
  (x <? y) = false /\ (y <? x) = false /\
  (x <=? y) = false /\ (y <=? x) = false.
Proof.
  intros N%is_nan_true.
  rewrite !ltb_spec, !leb_spec; unfold SFltb, SFleb; rewrite N.
  destruct (Prim2SF y); repeat split; reflexivity.
Qed.

End FloatNaN.

(** Follow a call that raises through its lookups and its tests. *)
Ltac trace C :=
  repeat match type of C with
         | bind ?c _ = Raise _ =>
             let E := fresh "E" in
             destruct c eqn:E; cbn [bind] in C
         | (if ?b then _ else _) = Raise _ =>
             let T := fresh "T" in destruct b eqn:T
         | Ok _ = Raise _ => discriminate C
         end.

Section CallMore.

Import Subspace.

Context `{Xpsi}.

(** A value that is not finite, returned after the check of the base class
    has passed, is minus infinity and reports a violated constraint. *)
Lemma call_rejected
  (self : CustomPrior) (p : option (list float)) (v : float) :
  is_finite (Prior__call__ p (parameters self)) = true ->
  __call__ self p = Ok v -> is_finite v = false ->
  v = neg_infinity /\ exists c, violated self c.
Proof.
  unfold __call__; cbv zeta; intros F C N; walk C; injection C as <-;
    try (rewrite F in T; discriminate T); try discriminate N;
    (split; [reflexivity |]).
  - exists Distance; unfold violated; eexists; split; [eassumption |].
    apply negb_true_iff; assumption.
  - exists Radius; unfold violated; eexists; split; [eassumption |].
    apply negb_true_iff; assumption.
  - exists PhotonSphere; unfold violated; eauto.
  - exists SingleMaximum; unfold violated; eauto.
  - exists Gravity; unfold violated.
    apply existsb_exists in T4; destruct T4 as (g & I & O).
    apply Exists_exists; exists g; split; [exact I |].
    apply negb_true_iff; exact O.
  - exists ColatitudeOrder; unfold violated; eauto 6.
  - exists NoOverlap; unfold violated; eauto 8.
Qed.

(** A range check made on a NaN fails. *)
Lemma on_nan_violated (self : CustomPrior) (c : constraint) :
  range_check c = true -> on_nan self c -> violated self c.
Proof.
  destruct c; try discriminate; intros _; unfold on_nan, violated.
  - intros (d & E & N); exists d; split; [exact E |].
    destruct (nan_unordered d 0.0 N) as (_ & -> & _); reflexivity.
  - intros (r & E & N); exists r; split; [exact E |].
    destruct (nan_unordered r 16.0 N) as (_ & _ & -> & _); reflexivity.
  - intros E; apply Exists_exists in E; destruct E as (g & I & N).
    apply Exists_exists; exists g; split; [exact I |].
    destruct (nan_unordered g 13.7 N) as (_ & _ & _ & ->); reflexivity.
Qed.

Lemma math_sqrt_raises (x : float) (e : exn) :
  math_sqrt x = Raise e -> e = ValueError.
Proof.
  unfold math_sqrt, math_1; cbv zeta.
  destruct (_ && _); [congruence |].
  destruct (_ && _); congruence.
Qed.

Lemma mu_raises (ref : Spacetime) (e : exn) :
  mu ref = Raise e -> e = ZeroDivisionError \/ e = ValueError.
Proof.
  unfold mu, truediv; destruct (is_zero _); cbn [bind].
  - left; congruence.
  - intros R%math_sqrt_raises; right; exact R.
Qed.

(** A lookup that raises names its key, which is absent. *)
Lemma getitem_raises (ref : ParameterSubspace) (key : string) (e : exn) :
  getitem ref key = Raise e -> e = KeyError key /\ ~ present ref key.
Proof.
  intros G; split; [exact (getitem_KeyError _ _ _ G) |].
  apply getitem_missing in G; intros (q & P); congruence.
Qed.

Lemma ang_sep_raises (ref : ParameterSubspace) (e : exn) :
  ang_sep ref = Raise e ->
  exists key, In key call_keys /\ e = KeyError key /\ ~ present ref key.
Proof.
  unfold ang_sep; cbv zeta; intros C; trace C; injection C as <-;
    match goal with
    | G : getitem _ ?k = Raise ?e0 |- _ =>
        exists k; destruct (getitem_raises _ _ _ G) as (-> & M);
        split; [cbn; auto 10 | split; [reflexivity | exact M]]
    end.
Qed.

End CallMore.

(** X2.  The first violation decides.  The checks run in the order distance,
    radius, photon sphere, single maximum, gravity, colatitude order,
    overlap, and the first one that fails returns minus infinity: when a
    constraint is violated and the constraints tested before it hold,
    [__call__] returns minus infinity, whatever the later quantities are,
    missing parameters and an undefined [mu] included. *)
Theorem call_first_violation `{Xpsi}
  (self : CustomPrior) (p : option (list float)) (c : constraint) :
  is_finite (Prior__call__ p (parameters self)) = true ->
  violated self c ->
  (forall c', (rank c' < rank c)%nat -> holds self c') ->
  __call__ self p = Ok neg_infinity.
Proof.
  intros base_finite V A; unfold __call__; known.
  destruct c; unfold violated in V.
  - destruct V as (d & Ed & V); known; reflexivity.
  - destruct (A Distance) as (d & Ed & Lo & Hi); [cbn; lia |].
    destruct V as (r & Er & V); known; reflexivity.
  - destruct (A Distance) as (d & Ed & Lo & Hi); [cbn; lia |].
    destruct (A Radius) as (r & Er & Lr); [cbn; lia |].
    destruct V as (q & Eq & V); known; reflexivity.
  - destruct (A Distance) as (d & Ed & Lo & Hi); [cbn; lia |].
    destruct (A Radius) as (r & Er & Lr); [cbn; lia |].
    destruct (A PhotonSphere) as (q & Eq & Lq%geb_not_ltb); [cbn; lia |].
    destruct V as (m & Em & V); known; reflexivity.
  - destruct (A Distance) as (d & Ed & Lo & Hi); [cbn; lia |].
    destruct (A Radius) as (r & Er & Lr); [cbn; lia |].
    destruct (A PhotonSphere) as (q & Eq & Lq%geb_not_ltb); [cbn; lia |].
    destruct (A SingleMaximum) as (m & Em & Lm%geb_not_ltb); [cbn; lia |].
    apply off_limits_exit in V; known; reflexivity.
  - destruct (A Distance) as (d & Ed & Lo & Hi); [cbn; lia |].
    destruct (A Radius) as (r & Er & Lr); [cbn; lia |].
    destruct (A PhotonSphere) as (q & Eq & Lq%geb_not_ltb); [cbn; lia |].
    destruct (A SingleMaximum) as (m & Em & Lm%geb_not_ltb); [cbn; lia |].
    assert (G := in_limits_no_exit _ (A Gravity ltac:(cbn; lia))).
    destruct V as (pc & sc & Epc & Esc & V); known; reflexivity.
  - destruct (A Distance) as (d & Ed & Lo & Hi); [cbn; lia |].
    destruct (A Radius) as (r & Er & Lr); [cbn; lia |].
    destruct (A PhotonSphere) as (q & Eq & Lq%geb_not_ltb); [cbn; lia |].
    destruct (A SingleMaximum) as (m & Em & Lm%geb_not_ltb); [cbn; lia |].
    assert (G := in_limits_no_exit _ (A Gravity ltac:(cbn; lia))).
    destruct (A ColatitudeOrder) as (pc & sc & Epc & Esc & Lc%leb_not_gtb);
      [cbn; lia |].
    destruct V as (a & rp & rs & Ea & Erp & Ers & V); known; reflexivity.
Qed.

(** X3.  NaN and the checks.  The distance, the radius and the gravities are
    tested as [not lo <= x <= hi], which a NaN fails: the vector is rejected
    with minus infinity.  The photon sphere, [mu], the order of the
    colatitudes and the overlap are tested with one comparison, [x < y] or
    [x > y], which is false on a NaN: the check passes, and with the other
    six constraints holding [__call__] returns 0.0. *)
Theorem call_nan_checks `{Xpsi}
  (self : CustomPrior) (p : option (list float)) (c : constraint) :
  is_finite (Prior__call__ p (parameters self)) = true ->
  on_nan self c -> (forall c', c' <> c -> holds self c') ->
  __call__ self p = Ok (if range_check c then neg_infinity else 0.0).
Proof.
  intros base_finite N A; destruct (range_check c) eqn:K.
  - apply (call_violated _ _ base_finite c); [| exact A].
    apply on_nan_violated; assumption.
  - destruct c; try discriminate K; clear K; unfold on_nan in N.
    + destruct (A Distance) as (d & Ed & Lo & Hi); [discriminate |].
      destruct (A Radius) as (r & Er & Lr); [discriminate |].
      destruct (A SingleMaximum) as (m & Em & Lm%geb_not_ltb);
        [discriminate |].
      assert (G := in_limits_no_exit _ (A Gravity ltac:(discriminate))).
      destruct (A ColatitudeOrder) as (pc & sc & Epc & Esc & Lc%leb_not_gtb);
        [discriminate |].
      destruct (A NoOverlap)
        as (a & rp & rs & Ea & Erp & Ers & La%geb_not_ltb);
        [discriminate |].
      destruct N as (q & Eq & N).
      assert (L : (R_p (spacetime self) <? q) = false).
      { destruct N as [N | N].
        - destruct (nan_unordered q (R_p (spacetime self)) N) as (_ & L & _).
          exact L.
        - destruct (nan_unordered (R_p (spacetime self)) q N) as (L & _).
          exact L. }
      unfold __call__; known; reflexivity.
    + destruct (A Distance) as (d & Ed & Lo & Hi); [discriminate |].
      destruct (A Radius) as (r & Er & Lr); [discriminate |].
      destruct (A PhotonSphere) as (q & Eq & Lq%geb_not_ltb);
        [discriminate |].
      assert (G := in_limits_no_exit _ (A Gravity ltac:(discriminate))).
      destruct (A ColatitudeOrder) as (pc & sc & Epc & Esc & Lc%leb_not_gtb);
        [discriminate |].
      destruct (A NoOverlap)
        as (a & rp & rs & Ea & Erp & Ers & La%geb_not_ltb);
        [discriminate |].
      destruct N as (m & Em & N).
      destruct (nan_unordered m 1.0 N) as (L & _).
      unfold __call__; known; reflexivity.
    + destruct (A Distance) as (d & Ed & Lo & Hi); [discriminate |].
      destruct (A Radius) as (r & Er & Lr); [discriminate |].
      destruct (A PhotonSphere) as (q & Eq & Lq%geb_not_ltb);
        [discriminate |].
      destruct (A SingleMaximum) as (m & Em & Lm%geb_not_ltb);
        [discriminate |].
      assert (G := in_limits_no_exit _ (A Gravity ltac:(discriminate))).
      destruct (A NoOverlap)
        as (a & rp & rs & Ea & Erp & Ers & La%geb_not_ltb);
        [discriminate |].
      destruct N as (pc & sc & Epc & Esc & N).
      assert (L : (pc >? sc) = false).
      { unfold gtb; destruct N as [N | N].
        - destruct (nan_unordered pc sc N) as (_ & L & _); exact L.
        - destruct (nan_unordered sc pc N) as (L & _); exact L. }
      unfold __call__; known; reflexivity.
    + destruct (A Distance) as (d & Ed & Lo & Hi); [discriminate |].
      destruct (A Radius) as (r & Er & Lr); [discriminate |].
      destruct (A PhotonSphere) as (q & Eq & Lq%geb_not_ltb);
        [discriminate |].
      destruct (A SingleMaximum) as (m & Em & Lm%geb_not_ltb);
        [discriminate |].
      assert (G := in_limits_no_exit _ (A Gravity ltac:(discriminate))).
      destruct (A ColatitudeOrder) as (pc & sc & Epc & Esc & Lc%leb_not_gtb);
        [discriminate |].
      destruct N as (a & rp & rs & Ea & Erp & Ers & N).
      assert (L : (a <? rp + rs) = false).
      { destruct N as [N | N].
        - destruct (nan_unordered a (rp + rs) N) as (L & _); exact L.
        - destruct (nan_unordered (rp + rs) a N) as (_ & L & _); exact L. }
      unfold __call__; known; reflexivity.
Qed.

(** X4.  What the support evaluator can raise.  It raises only after the check
    of the base class has passed, and then either a KeyError for one of the
    eight parameters it reads, that parameter being absent, or a
    ZeroDivisionError or ValueError from the arithmetic on the spacetime
    ([1.505 / R_r_s] or [mu] undefined), the distance and the radius having
    passed their checks.  It raises nothing else. *)
Theorem call_exceptions `{Xpsi}
  (self : CustomPrior) (p : option (list float)) (e : exn) :
  __call__ self p = Raise e ->
  is_finite (Prior__call__ p (parameters self)) = true /\
  ((exists key, In key call_keys /\ e = KeyError key /\
                ~ present (parameters self) key) \/
   ((e = ZeroDivisionError \/ e = ValueError) /\
    ~ spacetime_defined (spacetime self) /\
    holds self Distance /\ holds self Radius)).
Proof.
  unfold __call__; cbv zeta; intros C; trace C;
    (split; [apply negb_false_iff; assumption |]);
    try (injection C as <-);
    try (match goal with
         | G : Subspace.getitem _ ?k = Raise ?e0 |- _ =>
             left; exists k; destruct (getitem_raises _ _ _ G) as (-> & M);
             split; [cbn; auto 10 | split; [reflexivity | exact M]]
         | G : ang_sep _ = Raise ?e0 |- _ =>
             left; exact (ang_sep_raises _ _ G)
         end).
  all: right.
  all: repeat match goal with
              | T : negb _ = false |- _ => apply negb_false_iff in T
              | T : _ && _ = true |- _ => apply andb_prop in T; destruct T
              end.
  all: repeat split; try (unfold holds; eauto; fail).
  all: match goal with
       | Q : truediv _ _ = Raise _ |- _ \/ _ =>
           left; unfold truediv in Q; destruct (is_zero _); congruence
       | Q : truediv _ _ = Raise _ |- ~ _ =>
           intros ((q & Q') & _); congruence
       | M : mu _ = Raise _ |- _ \/ _ => exact (mu_raises _ _ M)
       | M : mu _ = Raise _ |- ~ _ => intros (_ & (m & M')); congruence
       end.
Qed.

(** ** The density: the truncation bound and the parameters it needs *)

Section DensityMore.

Import Subspace.

Context `{Xpsi} `{Scipy} `{Libm}.

Lemma ltb_leb (x y : float) : (x <? y) = true -> (x <=? y) = true.
Proof.
  rewrite ltb_spec, leb_spec; unfold SFltb, SFleb.
  destruct (SFcompare (Prim2SF x) (Prim2SF y)) as [[| |] |];
    congruence.
Qed.

Lemma leb_number_l (x y : float) : (x <=? y) = true -> is_nan x = false.
Proof.
  rewrite leb_spec, is_nan_false; unfold SFleb.
  intros L N; rewrite N in L; discriminate.
Qed.


End DensityMore.

(** X5.  The lower truncation bound of cos(inclination), which [density] and
    [inverse_sample] both compute as min(-10.0, (strict lower bound -
    location) / scale), is a number at most -10.0 whatever the strict bound
    and the location are, infinite or NaN included: the builtin [min] keeps
    its first argument unless the second is smaller. *)
Theorem cosi_lower_bound (_strict : float * float) (_loc : float) :
  (cosi_lower _strict _loc <=? -10.0) = true /\
  is_nan (cosi_lower _strict _loc) = false.
Proof.
  assert (L : (cosi_lower _strict _loc <=? -10.0) = true).
  { unfold cosi_lower, py_min.
    destruct (_ <? -10.0) eqn:B; [apply ltb_leb, B | reflexivity]. }
  split; [exact L | exact (leb_number_l _ _ L)].
Qed.



Section DensityExceptions.

Import Subspace.

Context `{Xpsi} `{Scipy} `{Libm}.

Lemma math_exp_raises (x : float) (e : exn) :
  math_exp x = Raise e -> e = ValueError \/ e = OverflowError.
Proof.
  unfold math_exp, math_1; cbv zeta.
  destruct (_ && _); [left; congruence |].
  destruct (_ && _); [right; congruence | discriminate].
Qed.

Lemma get_param_getitem (ref : ParameterSubspace) (key : string) (q : Param) :
  get_param ref key = Ok q -> getitem ref key = Ok (value q).
Proof. intros G; unfold getitem; rewrite G; reflexivity. Qed.

End DensityExceptions.

(** X7.  What the density can raise.  [density] raises what the support
    evaluator raises; and inside the support, a KeyError for the mass,
    cos(inclination) or, [PN__alpha] being present, [XTI__alpha], when that
    parameter is absent, or else, both scale factors being present, the
    OverflowError or ValueError of [math.exp].  It raises nothing else. *)
Theorem density_exceptions `{Xpsi} `{Scipy} `{Libm}
  (self : CustomPrior) (point : list float) (e : exn) :
  density self point = Raise e ->
  __call__ self (Some point) = Raise e \/
  (__call__ self (Some point) = Ok 0.0 /\
   ((exists key, In key ["mass"; "cos_inclination"; "XTI__alpha"] /\
                 e = KeyError key /\ ~ present (parameters self) key) \/
    (present (parameters self) "XTI__alpha" /\
     present (parameters self) "PN__alpha" /\
     (e = ValueError \/ e = OverflowError)))).
Proof.
  unfold density; intros D.
  destruct (__call__ self (Some point)) as [logp | e0] eqn:C; cbn [bind] in D;
    [| left; exact D].
  right; destruct (is_finite logp) eqn:F; cbn [negb] in D; [| discriminate D].
  destruct (call_inside _ _ _ C F) as (-> & _ & (d & Ed)).
  split; [reflexivity |].
  cbv zeta in D; rewrite Ed in D; cbn [bind] in D.
  destruct (Subspace.getitem (parameters self) "mass") as [m | e1] eqn:Em;
    cbn [bind] in D.
  2:{ injection D as <-; destruct (getitem_raises _ _ _ Em) as (-> & A).
      left; exists "mass"; cbn; auto. }
  destruct (Subspace.get_param (parameters self) "cos_inclination")
    as [q | e1] eqn:Eq; cbn [bind] in D.
  2:{ injection D as <-; destruct (get_param_missing _ _ _ Eq) as (-> & _).
      left; exists "cos_inclination"; repeat split; [cbn; auto |].
      intros (q & Q); congruence. }
  rewrite (get_param_getitem _ _ _ Eq) in D; cbn [bind] in D.
  destruct (Subspace.getitem (parameters self) "PN__alpha") as [pn | e1] eqn:Ep;
    cbn [try_except_KeyError bind] in D.
  2:{ rewrite (getitem_KeyError _ _ _ Ep) in D; discriminate D. }
  destruct (Subspace.getitem (parameters self) "XTI__alpha")
    as [xti | e1] eqn:Ex; cbn [bind] in D.
  2:{ injection D as <-; destruct (getitem_raises _ _ _ Ex) as (-> & A).
      left; exists "XTI__alpha"; cbn; auto 6. }
  assert (Px : present (parameters self) "XTI__alpha").
  { unfold Subspace.getitem in Ex.
    destruct (Subspace.get_param (parameters self) "XTI__alpha") eqn:G;
      [eexists; exact G | discriminate Ex]. }
  assert (Pp : present (parameters self) "PN__alpha").
  { unfold Subspace.getitem in Ep.
    destruct (Subspace.get_param (parameters self) "PN__alpha") eqn:G;
      [eexists; exact G | discriminate Ep]. }
  right; split; [exact Px |]; split; [exact Pp |].
  destruct (math_exp _) as [x | e1] eqn:Ee; cbn [bind] in D.
  - rewrite math_sqrt_one_minus_rho2 in D; discriminate D.
  - injection D as <-; exact (math_exp_raises _ _ Ee).
Qed.

(** ** Inverse sampling: the other draws, the frame, the hypercube *)

Section SamplingMore.

Import Subspace.

Context `{Xpsi} `{Scipy} `{Libm}.

(** *** Coordinates past the last parameter *)

Lemma item_app (u extra : list float) (idx : nat) :
  (idx < List.length u)%nat -> item (u ++ extra) idx = item u idx.
Proof.
  intros L; unfold item; rewrite nth_error_app1 by exact L; reflexivity.
Qed.

Lemma Prior_inverse_sample_app
  (u extra : list float) (ref : ParameterSubspace) :
  (List.length ref <= List.length u)%nat ->
  Prior_inverse_sample (u ++ extra) ref = Prior_inverse_sample u ref.
Proof.
  revert u; induction ref as [| q ref IH]; intros u L; [reflexivity |].
  destruct u as [| x u]; cbn in L; [lia |].
  cbn; rewrite IH by lia; reflexivity.
Qed.

Lemma Prior_inverse_sample_short (u : list float) (ref : ParameterSubspace) :
  (List.length u < List.length ref)%nat ->
  Prior_inverse_sample u ref = Raise IndexError.
Proof.
  revert u; induction ref as [| q ref IH]; intros u L; cbn in L; [lia |].
  destruct u as [| x u]; [reflexivity |].
  cbn in L |- *; rewrite IH by lia; reflexivity.
Qed.

(** Replace the read of a coordinate in the longer hypercube. *)
Ltac shorten :=
  repeat match goal with
         | |- context [Subspace.index ?r ?k] =>
             let I := fresh "I" in
             destruct (Subspace.index r k) eqn:I; cbn [bind];
             [apply index_lt in I |]
         | |- context [Subspace.get_param ?r ?k] =>
             destruct (Subspace.get_param r k); cbn [bind]
         | |- context [Subspace.getitem ?r ?k] =>
             destruct (Subspace.getitem r k) as [? | []];
             cbn [bind try_except_KeyError]
         | |- context [let '(_, _) := ?x in _] => destruct x
         | |- context [bind (math_cos ?x) _] =>
             destruct (math_cos x); cbn [bind]
         | |- context [item (_ ++ _) _] => rewrite item_app by lia
         end;
  try reflexivity.

Lemma sample_distance_app (ref : ParameterSubspace) (u extra : list float) :
  (List.length ref <= List.length u)%nat ->
  sample_distance ref (u ++ extra) = sample_distance ref u.
Proof. intros L; unfold sample_distance; shorten. Qed.

Lemma sample_mass_app (ref : ParameterSubspace) (u extra : list float) :
  (List.length ref <= List.length u)%nat ->
  sample_mass ref (u ++ extra) = sample_mass ref u.
Proof. intros L; unfold sample_mass; shorten. Qed.

Lemma sample_cos_inclination_app
  (ref : ParameterSubspace) (u extra : list float) :
  (List.length ref <= List.length u)%nat ->
  sample_cos_inclination ref (u ++ extra) = sample_cos_inclination ref u.
Proof. intros L; unfold sample_cos_inclination; cbv zeta; shorten. Qed.

Lemma sample_colatitude_app
  (key : string) (ref : ParameterSubspace) (u extra : list float) :
  (List.length ref <= List.length u)%nat ->
  sample_colatitude ref key (u ++ extra) = sample_colatitude ref key u.
Proof. intros L; unfold sample_colatitude; shorten. Qed.

Lemma sample_XTI_alpha_app (ref : ParameterSubspace) (u extra : list float) :
  (List.length ref <= List.length u)%nat ->
  sample_XTI_alpha ref (u ++ extra) = sample_XTI_alpha ref u.
Proof. intros L; unfold sample_XTI_alpha; shorten. Qed.

Lemma sample_PN_alpha_app (ref : ParameterSubspace) (u extra : list float) :
  (List.length ref <= List.length u)%nat ->
  sample_PN_alpha ref (u ++ extra) = sample_PN_alpha ref u.
Proof. intros L; unfold sample_PN_alpha; shorten. Qed.

Lemma touches_length (key : string) (ref ref' : ParameterSubspace) :
  touches key ref ref' -> List.length ref' = List.length ref.
Proof. intros T; apply shape_length, (touches_shape _ _ _ T). Qed.

Lemma sample_at_app (ref : ParameterSubspace) (u extra : list float) :
  (List.length ref <= List.length u)%nat ->
  sample_at ref (u ++ extra) = sample_at ref u.
Proof.
  intros L; unfold sample_at; rewrite Prior_inverse_sample_app by exact L.
  destruct (Prior_inverse_sample u ref) as [r0 |] eqn:E0; cbn [bind];
    [| reflexivity].
  pose proof (shape_length _ _ (Prior_inverse_sample_shape _ _ _ E0)) as L0.
  rewrite sample_distance_app by lia.
  destruct (sample_distance r0 u) as [r1 |] eqn:E1; cbn [bind];
    [| reflexivity].
  pose proof (touches_length _ _ _ (sample_distance_touches _ _ _ E1)) as L1.
  rewrite sample_mass_app by lia.
  destruct (sample_mass r1 u) as [r2 |] eqn:E2; cbn [bind]; [| reflexivity].
  pose proof (touches_length _ _ _ (sample_mass_touches _ _ _ E2)) as L2.
  rewrite sample_cos_inclination_app by lia.
  destruct (sample_cos_inclination r2 u) as [r3 |] eqn:E3; cbn [bind];
    [| reflexivity].
  pose proof (touches_length _ _ _
                (sample_cos_inclination_touches _ _ _ E3)) as L3.
  rewrite sample_colatitude_app by lia.
  destruct (sample_colatitude r3 "p__super_colatitude" u) as [r4 |] eqn:E4;
    cbn [bind]; [| reflexivity].
  pose proof (touches_length _ _ _
                (sample_colatitude_touches _ _ _ _ E4)) as L4.
  rewrite sample_colatitude_app by lia.
  destruct (sample_colatitude r4 "s__super_colatitude" u) as [r5 |] eqn:E5;
    cbn [bind]; [| reflexivity].
  pose proof (touches_length _ _ _
                (sample_colatitude_touches _ _ _ _ E5)) as L5.
  rewrite sample_XTI_alpha_app by lia.
  destruct (sample_XTI_alpha r5 u) as [r6 |] eqn:E6; cbn [bind];
    [| reflexivity].
  pose proof (touches_length _ _ _ (sample_XTI_alpha_touches _ _ _ E6)) as L6.
  apply sample_PN_alpha_app; lia.
Qed.

(** *** Parameters that are alike *)

Lemma alike_index (r r' : ParameterSubspace) (key : string) :
  Forall2 alike r r' -> index r key = index r' key.
Proof.
  induction 1 as [| q q' r r' (S & _) _ IH]; cbn; [reflexivity |].
  replace (name q') with (name q) by (unfold shape in S; congruence).
  rewrite IH; reflexivity.
Qed.

Lemma alike_get_param (r r' : ParameterSubspace) (key : string) :
  Forall2 alike r r' ->
  match get_param r key, get_param r' key with
  | Ok q, Ok q' => alike q q'
  | Raise e, Raise e' => e = e'
  | _, _ => False
  end.
Proof.
  induction 1 as [| q q' r r' A _ IH]; cbn; [reflexivity |].
  replace (name q') with (name q)
    by (destruct A as (S & _); unfold shape in S; congruence).
  destruct (String.eqb (name q) key); [exact A | exact IH].
Qed.

Lemma alike_getitem (r r' : ParameterSubspace) (key : string) :
  Forall2 alike r r' -> getitem r key = getitem r' key.
Proof.
  intros A; unfold getitem; pose proof (alike_get_param _ _ key A) as G.
  destruct (get_param r key), (get_param r' key); try contradiction;
    cbn [bind]; [destruct G as (_ & ->) | subst]; reflexivity.
Qed.

Lemma alike_setitem (r r' : ParameterSubspace) (key : string) (v : float) :
  Forall2 alike r r' -> agree (setitem r key v) (setitem r' key v).
Proof.
  induction 1 as [| q q' r r' A F IH]; cbn; [reflexivity |].
  replace (name q') with (name q)
    by (destruct A as (S & _); unfold shape in S; congruence).
  destruct (String.eqb (name q) key).
  - cbn; constructor; [| exact F].
    destruct A as (S & _); split; [exact S | reflexivity].
  - unfold agree in IH.
    destruct (setitem r key v), (setitem r' key v); try contradiction;
      cbn [bind agree]; [constructor; assumption | exact IH].
Qed.

Lemma alike_vector (r r' : ParameterSubspace) :
  Forall2 alike r r' -> vector r = vector r'.
Proof.
  induction 1 as [| q q' r r' (_ & V) _ IH]; cbn; [reflexivity |].
  rewrite V; f_equal; exact IH.
Qed.

Lemma alike_refl (r : ParameterSubspace) : Forall2 alike r r.
Proof. induction r; constructor; [split; reflexivity | assumption]. Qed.

End SamplingMore.

Section Memoryless.

Import Subspace.

Context `{Xpsi} `{Scipy} `{Libm}.

(** The default draw of the base class looks at the name and the bounds of
    the parameter, not at the value it holds. *)
Hypothesis default_by_bounds :
  forall q q' x, shape q = shape q' ->
                 Prior_inverse_sample_1 q x = Prior_inverse_sample_1 q' x.

Lemma Prior_inverse_sample_alike (u : list float) (r r' : ParameterSubspace) :
  map shape r = map shape r' ->
  agree (Prior_inverse_sample u r) (Prior_inverse_sample u r').
Proof.
  revert u r'; induction r as [| q r IH]; intros u [| q' r'] S;
    try discriminate S; cbn; [constructor |].
  cbn in S; assert (Sq : shape q = shape q') by congruence.
  assert (Sr : map shape r = map shape r') by congruence.
  destruct u as [| x u]; [reflexivity |].
  specialize (IH u r' Sr); unfold agree in IH.
  destruct (Prior_inverse_sample u r), (Prior_inverse_sample u r');
    try contradiction; cbn [bind agree]; [| exact IH].
  constructor; [| exact IH].
  split; [exact Sq | cbn; apply default_by_bounds, Sq].
Qed.

Lemma agree_bind (c c' : result ParameterSubspace)
  (k k' : ParameterSubspace -> result ParameterSubspace) :
  agree c c' ->
  (forall r r', Forall2 alike r r' -> agree (k r) (k' r')) ->
  agree (bind c k) (bind c' k').
Proof.
  destruct c, c'; cbn; try contradiction; [intros A K; apply K, A | auto].
Qed.

Lemma agree_refl (c : result ParameterSubspace) : agree c c.
Proof. destruct c; cbn; [apply alike_refl | reflexivity]. Qed.

Variable u : list float.
Variables r r' : ParameterSubspace.
Hypothesis A : Forall2 alike r r'.

Lemma sample_distance_alike :
  agree (sample_distance r u) (sample_distance r' u).
Proof.
  unfold sample_distance; rewrite <- (alike_index _ _ _ A).
  destruct (index r "distance"); cbn [bind]; [| reflexivity].
  destruct (item u a); cbn [bind]; [| reflexivity].
  apply alike_setitem, A.
Qed.

Lemma sample_mass_alike : agree (sample_mass r u) (sample_mass r' u).
Proof.
  unfold sample_mass; rewrite <- (alike_index _ _ _ A).
  destruct (index r "mass"); cbn [bind]; [| reflexivity].
  destruct (item u a); cbn [bind]; [| reflexivity].
  apply alike_setitem, A.
Qed.

Lemma sample_cos_inclination_alike :
  agree (sample_cos_inclination r u) (sample_cos_inclination r' u).
Proof.
  unfold sample_cos_inclination; cbv zeta.
  rewrite <- (alike_index _ _ _ A), <- (alike_getitem _ _ "mass" A).
  destruct (index r "cos_inclination"); cbn [bind]; [| reflexivity].
  pose proof (alike_get_param _ _ "cos_inclination" A) as G.
  destruct (get_param r "cos_inclination") as [q |],
           (get_param r' "cos_inclination") as [q' |];
    try contradiction; cbn [bind]; [| exact G].
  replace (strict_bounds q') with (strict_bounds q)
    by (destruct G as (S & _); unfold shape in S; congruence).
  destruct (getitem r "mass"); cbn [bind]; [| reflexivity].
  destruct (item u a); cbn [bind]; [| reflexivity].
  apply alike_setitem, A.
Qed.

Lemma sample_colatitude_alike (key : string) :
  agree (sample_colatitude r key u) (sample_colatitude r' key u).
Proof.
  unfold sample_colatitude; rewrite <- (alike_index _ _ _ A).
  destruct (index r key); cbn [bind]; [| reflexivity].
  pose proof (alike_get_param _ _ key A) as G.
  destruct (get_param r key) as [q |], (get_param r' key) as [q' |];
    try contradiction; cbn [bind]; [| exact G].
  replace (bounds q') with (bounds q)
    by (destruct G as (S & _); unfold shape in S; congruence).
  destruct (bounds q) as (lo, hi).
  destruct (math_cos lo); cbn [bind]; [| reflexivity].
  destruct (math_cos hi); cbn [bind]; [| reflexivity].
  destruct (item u a); cbn [bind]; [| reflexivity].
  destruct (math_acos _); cbn [bind]; [| reflexivity].
  apply alike_setitem, A.
Qed.

Lemma sample_XTI_alpha_alike :
  agree (sample_XTI_alpha r u) (sample_XTI_alpha r' u).
Proof.
  unfold sample_XTI_alpha.
  rewrite <- (alike_index _ _ _ A), <- (alike_getitem _ _ "XTI__alpha" A).
  destruct (getitem r "XTI__alpha") as [x | []];
    cbn [try_except_KeyError agree]; try reflexivity; try exact A.
  destruct (index r "XTI__alpha"); cbn [bind]; [| reflexivity].
  destruct (item u a); cbn [bind]; [| reflexivity].
  apply alike_setitem, A.
Qed.

Lemma sample_PN_alpha_alike :
  agree (sample_PN_alpha r u) (sample_PN_alpha r' u).
Proof.
  unfold sample_PN_alpha.
  rewrite <- (alike_index _ _ _ A), <- (alike_getitem _ _ "PN__alpha" A),
    <- !(alike_getitem _ _ "XTI__alpha" A).
  destruct (getitem r "PN__alpha") as [x | []];
    cbn [try_except_KeyError agree]; try reflexivity; try exact A.
  destruct (index r "PN__alpha"); cbn [bind]; [| reflexivity].
  destruct (try_except_KeyError _ _ _) as [(loc, scale) |]; cbn [bind];
    [| reflexivity].
  destruct (item u a); cbn [bind]; [| reflexivity].
  apply alike_setitem, A.
Qed.

End Memoryless.

Section SampleAlike.

Import Subspace.

Context `{Xpsi} `{Scipy} `{Libm}.

Lemma sample_at_alike (u : list float) (r r' : ParameterSubspace) :
  (forall q q' x, shape q = shape q' ->
                  Prior_inverse_sample_1 q x = Prior_inverse_sample_1 q' x) ->
  map shape r = map shape r' ->
  agree (sample_at r u) (sample_at r' u).
Proof.
  intros D S; unfold sample_at.
  apply agree_bind; [apply Prior_inverse_sample_alike; assumption |].
  intros r0 r0' A0; apply agree_bind; [apply sample_distance_alike, A0 |].
  intros r1 r1' A1; apply agree_bind; [apply sample_mass_alike, A1 |].
  intros r2 r2' A2; apply agree_bind;
    [apply sample_cos_inclination_alike, A2 |].
  intros r3 r3' A3; apply agree_bind; [apply sample_colatitude_alike, A3 |].
  intros r4 r4' A4; apply agree_bind; [apply sample_colatitude_alike, A4 |].
  intros r5 r5' A5; apply agree_bind; [apply sample_XTI_alpha_alike, A5 |].
  intros r6 r6' A6; apply sample_PN_alpha_alike, A6.
Qed.

Lemma output_alike `{NumpyRandom}
  (self1 self2 : CustomPrior) (u : list float) (state1 state2 : rng) :
  agree (sample_at (parameters self1) u) (sample_at (parameters self2) u) ->
  output (inverse_sample self1 (Some u) state1)
  = output (inverse_sample self2 (Some u) state2).
Proof.
  unfold inverse_sample, output, agree.
  destruct (sample_at (parameters self1) u),
           (sample_at (parameters self2) u); try contradiction;
    cbn [bind]; [| congruence].
  intros A; rewrite !restore_cache_vector, (alike_vector _ _ A); reflexivity.
Qed.

End SampleAlike.

(** *** What [inverse_sample] can raise *)

Section SamplingExceptions.

Import Subspace.

Context `{Xpsi} `{Scipy} `{Libm}.

Lemma Prior_inverse_sample_raises
  (u : list float) (ref : ParameterSubspace) (e : exn) :
  Prior_inverse_sample u ref = Raise e -> e = IndexError.
Proof.
  revert u; induction ref as [| q ref IH]; intros u; cbn; [discriminate |].
  destruct u as [| x u]; [congruence |].
  destruct (Prior_inverse_sample u ref) eqn:E; cbn [bind]; [discriminate |].
  intros [= <-]; exact (IH _ E).
Qed.

Lemma index_raises (ref : ParameterSubspace) (key : string) (e : exn) :
  index ref key = Raise e -> e = KeyError key /\ ~ present ref key.
Proof.
  intros I; destruct (get_param ref key) as [q | e'] eqn:G.
  - destruct (get_param_index _ _ _ G) as (i & I' & _); congruence.
  - destruct (get_param_missing _ _ _ G) as (-> & I' & _).
    split; [congruence | intros (q & Q); congruence].
Qed.

Lemma item_raises (u : list float) (idx : nat) (e : exn) :
  item u idx = Raise e -> e = IndexError.
Proof. unfold item; destruct (nth_error u idx); congruence. Qed.

Lemma math_1_raises (func : float -> float) (x : float) (e : exn) :
  math_1 func false x = Raise e -> e = ValueError.
Proof.
  unfold math_1; cbv zeta.
  destruct (_ && _); [congruence |].
  destruct (_ && _); congruence.
Qed.

Lemma setitem_raises
  (ref : ParameterSubspace) (key : string) (v : float) (e : exn) :
  setitem ref key v = Raise e -> e = KeyError key /\ ~ present ref key.
Proof.
  rewrite setitem_update.
  destruct (get_param ref key) as [q | e'] eqn:G; cbn [bind];
    [discriminate |].
  intros [= <-]; destruct (get_param_missing _ _ _ G) as (-> & _).
  split; [reflexivity | intros (q & Q); congruence].
Qed.

Ltac blame :=
  match goal with
  | I : index _ _ = Raise _ |- _ =>
      right; right; exact (index_raises _ _ _ I)
  | I : setitem _ _ _ = Raise _ |- _ =>
      right; right; exact (setitem_raises _ _ _ _ I)
  | I : getitem _ _ = Raise _ |- _ =>
      right; right; exact (getitem_raises _ _ _ I)
  | I : get_param ?r ?k = Raise _ |- _ =>
      right; right; destruct (get_param_missing _ _ _ I) as (-> & _);
      split; [reflexivity | intros (q & Q); congruence]
  | I : item _ _ = Raise _ |- _ =>
      left; exact (item_raises _ _ _ I)
  | I : math_1 _ false _ = Raise _ |- _ =>
      right; left; exact (math_1_raises _ _ _ I)
  end.

Lemma sample_distance_raises
  (ref : ParameterSubspace) (u : list float) (e : exn) :
  sample_distance ref u = Raise e -> block_error ref "distance" e.
Proof.
  unfold sample_distance, block_error; intros C; trace C;
    try injection C as <-; blame.
Qed.

Lemma sample_mass_raises
  (ref : ParameterSubspace) (u : list float) (e : exn) :
  sample_mass ref u = Raise e -> block_error ref "mass" e.
Proof.
  unfold sample_mass, block_error; intros C; trace C;
    try injection C as <-; blame.
Qed.

Lemma sample_colatitude_raises
  (key : string) (ref : ParameterSubspace) (u : list float) (e : exn) :
  sample_colatitude ref key u = Raise e -> block_error ref key e.
Proof.
  unfold sample_colatitude, block_error, math_cos, math_acos; intros C.
  destruct (index ref key) eqn:I; cbn [bind] in C;
    [| injection C as <-; blame].
  destruct (get_param ref key) as [q |] eqn:G; cbn [bind] in C;
    [| injection C as <-; blame].
  destruct (bounds q) as (lo, hi); trace C; try injection C as <-; blame.
Qed.

End SamplingExceptions.

Section SamplingExceptions2.

Import Subspace.

Context `{Xpsi} `{Scipy} `{Libm}.

Lemma sample_cos_inclination_raises
  (ref : ParameterSubspace) (u : list float) (e : exn) :
  sample_cos_inclination ref u = Raise e ->
  block_error ref "cos_inclination" e \/ block_error ref "mass" e.
Proof.
  unfold sample_cos_inclination, block_error; cbv zeta; intros C; trace C;
    try injection C as <-.
  - left; right; right; exact (setitem_raises _ _ _ _ C).
  - left; left; eapply item_raises; eassumption.
  - right; right; right; eapply getitem_raises; eassumption.
  - left; right; right.
    match goal with
    | I : get_param _ _ = Raise _ |- _ =>
        destruct (get_param_missing _ _ _ I) as (-> & _);
        split; [reflexivity | intros (q & Q); congruence]
    end.
  - left; right; right; eapply index_raises; eassumption.
Qed.

(** The blocks of the two scale factors raise an IndexError or nothing. *)
Lemma sample_XTI_alpha_raises
  (ref : ParameterSubspace) (u : list float) (e : exn) :
  sample_XTI_alpha ref u = Raise e -> e = IndexError.
Proof.
  unfold sample_XTI_alpha; intros C.
  destruct (getitem ref "XTI__alpha") as [x | e'] eqn:G;
    cbn [try_except_KeyError] in C.
  - assert (P : present ref "XTI__alpha").
    { unfold getitem in G; destruct (get_param ref "XTI__alpha") eqn:Q;
        [eexists; exact Q | discriminate G]. }
    trace C; try injection C as <-.
    + destruct (setitem_raises _ _ _ _ C) as (_ & A); contradiction.
    + eapply item_raises; eassumption.
    + match goal with
      | I : index _ _ = Raise _ |- _ =>
          destruct (index_raises _ _ _ I) as (_ & A); contradiction
      end.
  - rewrite (getitem_KeyError _ _ _ G) in C; discriminate C.
Qed.

Lemma sample_PN_alpha_raises
  (ref : ParameterSubspace) (u : list float) (e : exn) :
  sample_PN_alpha ref u = Raise e -> e = IndexError.
Proof.
  unfold sample_PN_alpha; intros C.
  destruct (getitem ref "PN__alpha") as [x | e'] eqn:G;
    cbn [try_except_KeyError] in C.
  - assert (P : present ref "PN__alpha").
    { unfold getitem in G; destruct (get_param ref "PN__alpha") eqn:Q;
        [eexists; exact Q | discriminate G]. }
    destruct (index ref "PN__alpha") eqn:I; cbn [bind] in C.
    2:{ destruct (index_raises _ _ _ I) as (_ & A); contradiction. }
    destruct (getitem ref "XTI__alpha") as [xti | e'] eqn:X;
      cbn [try_except_KeyError bind] in C.
    + trace C; try injection C as <-.
      * destruct (setitem_raises _ _ _ _ C) as (_ & A); contradiction.
      * eapply item_raises; eassumption.
    + rewrite (getitem_KeyError _ _ _ X) in C; cbn [bind] in C.
      trace C; try injection C as <-.
      * destruct (setitem_raises _ _ _ _ C) as (_ & A); contradiction.
      * eapply item_raises; eassumption.
  - rewrite (getitem_KeyError _ _ _ G) in C; discriminate C.
Qed.

Lemma absent_shape (ref ref' : ParameterSubspace) (key : string) :
  map shape ref' = map shape ref -> ~ present ref' key -> ~ present ref key.
Proof. intros S A P; apply A, (present_shape _ _ _ S P). Qed.

Lemma sample_at_raises (ref : ParameterSubspace) (u : list float) (e : exn) :
  sample_at ref u = Raise e ->
  e = IndexError \/ e = ValueError \/
  exists key, In key sampled_keys /\ e = KeyError key /\ ~ present ref key.
Proof.
  unfold sample_at; intros C.
  destruct (Prior_inverse_sample u ref) as [r0 |] eqn:E0; cbn [bind] in C.
  2:{ injection C as <-; left; exact (Prior_inverse_sample_raises _ _ _ E0). }
  pose proof (Prior_inverse_sample_shape _ _ _ E0) as S0.
  assert (B : forall r key, map shape r = map shape ref ->
                            In key sampled_keys -> block_error r key e ->
                            e = IndexError \/ e = ValueError \/
                            exists key, In key sampled_keys /\
                                        e = KeyError key /\
                                        ~ present ref key).
  { intros r key S K [-> | [-> | (-> & A)]]; auto.
    right; right; exists key; repeat split; try assumption.
    exact (absent_shape _ _ _ S A). }
  destruct (sample_distance r0 u) as [r1 |] eqn:E1; cbn [bind] in C.
  2:{ injection C as <-; apply (B r0 "distance" S0); [cbn; auto |].
      exact (sample_distance_raises _ _ _ E1). }
  pose proof (touches_shape _ _ _ (sample_distance_touches _ _ _ E1)) as S1.
  rewrite S0 in S1.
  destruct (sample_mass r1 u) as [r2 |] eqn:E2; cbn [bind] in C.
  2:{ injection C as <-; apply (B r1 "mass" S1); [cbn; auto |].
      exact (sample_mass_raises _ _ _ E2). }
  pose proof (touches_shape _ _ _ (sample_mass_touches _ _ _ E2)) as S2.
  rewrite S1 in S2.
  destruct (sample_cos_inclination r2 u) as [r3 |] eqn:E3; cbn [bind] in C.
  2:{ injection C as <-.
      destruct (sample_cos_inclination_raises _ _ _ E3) as [R | R].
      - apply (B r2 "cos_inclination" S2); [cbn; auto | exact R].
      - apply (B r2 "mass" S2); [cbn; auto | exact R]. }
  pose proof (touches_shape _ _ _
                (sample_cos_inclination_touches _ _ _ E3)) as S3.
  rewrite S2 in S3.
  destruct (sample_colatitude r3 "p__super_colatitude" u) as [r4 |] eqn:E4;
    cbn [bind] in C.
  2:{ injection C as <-; apply (B r3 "p__super_colatitude" S3);
        [cbn; auto 6 |].
      exact (sample_colatitude_raises _ _ _ _ E4). }
  pose proof (touches_shape _ _ _
                (sample_colatitude_touches _ _ _ _ E4)) as S4.
  rewrite S3 in S4.
  destruct (sample_colatitude r4 "s__super_colatitude" u) as [r5 |] eqn:E5;
    cbn [bind] in C.
  2:{ injection C as <-; apply (B r4 "s__super_colatitude" S4);
        [cbn; auto 6 |].
      exact (sample_colatitude_raises _ _ _ _ E5). }
  destruct (sample_XTI_alpha r5 u) as [r6 |] eqn:E6; cbn [bind] in C.
  2:{ injection C as <-; left; exact (sample_XTI_alpha_raises _ _ _ E6). }
  left; exact (sample_PN_alpha_raises _ _ _ C).
Qed.

End SamplingExceptions2.

(** X19.  What [inverse_sample] can raise: an IndexError (a coordinate of the
    hypercube is missing), a ValueError (a domain error of [math.cos] or
    [math.acos] in the draw of a colatitude), or a KeyError for one of the
    five parameters it always assigns, that parameter being absent.  It
    never raises for an absent [XTI__alpha] or [PN__alpha], and raises
    nothing else. *)
Theorem inverse_sample_exceptions
  `{Xpsi} `{Scipy} `{Libm} `{NumpyRandom}
  (self : CustomPrior) (hypercube : option (list float)) (state : rng)
  (e : exn) :
  inverse_sample self hypercube state = Raise e ->
  e = IndexError \/ e = ValueError \/
  exists key, In key sampled_keys /\ e = KeyError key /\
              ~ present (parameters self) key.
Proof.
  unfold inverse_sample; cbv zeta.
  destruct (match hypercube with
            | Some u => _
            | None => _
            end) as (u, state').
  destruct (sample_at (parameters self) u) eqn:A; cbn [bind];
    [discriminate |].
  intros [= <-]; exact (sample_at_raises _ _ _ A).
Qed.


(** X8.  The draw of cos(inclination).  Whenever [inverse_sample] returns,
    cos(inclination) holds, and the returned vector has at its index, the
    truncated-normal inverse CDF at its own coordinate with upper bound 10,
    scale [_cond_std], and the location and lower bound computed from the
    mass drawn earlier in the same call, not from the mass held before. *)
Theorem inverse_sample_cos_inclination
  `{Xpsi} `{Scipy} `{Libm} `{NumpyRandom}
  (self self' : CustomPrior) (hypercube : option (list float))
  (state state' : rng) (vec : list float) :
  inverse_sample self hypercube state = Ok (vec, self', state') ->
  let u := fst (hypercube_of self hypercube state) in
  exists im um ic uc q,
    Subspace.index (parameters self) "mass" = Ok im /\
    nth_error u im = Some um /\
    Subspace.index (parameters self) "cos_inclination" = Ok ic /\
    nth_error u ic = Some uc /\
    Subspace.get_param (parameters self) "cos_inclination" = Ok q /\
    let mass := truncnorm_ppf um (-5.0) 5.0 _mu_m _std_m in
    let _loc := _mu_cosi + (_std_cosi / _std_m) * _corr * (mass - _mu_m) in
    let _lower := py_min (-10.0) ((fst (strict_bounds q) - _loc) / _cond_std) in
    let v := truncnorm_ppf uc _lower 10.0 _loc _cond_std in
    Subspace.getitem (parameters self') "cos_inclination" = Ok v /\
    nth_error vec ic = Some v.
Proof.
  intros E u; destruct (inverse_sample_sampled _ _ _ _ _ _ E) as (ref' & S & _).
  fold u in S.
  destruct (sample_at_chain _ _ _ (sampled_at _ _ _ _ _ S))
    as (r0 & r1 & r2 & r3 & r4 & r5 & r6 & c).
  destruct (chain_mass _ _ _ _ _ _ _ _ _ _ c) as (im & um & Im & Nm & _ & Gm).
  destruct (chain_cos_inclination _ _ _ _ _ _ _ _ _ _ c)
    as (ic & uc & q & mass & Ic & Nc & Q & M & G).
  assert (mass = truncnorm_ppf um (-5.0) 5.0 _mu_m _std_m) as -> by congruence.
  exists im, um, ic, uc, q; cbv zeta; repeat split; try assumption.
  - rewrite (sampled_getitem _ _ _ _ _ S); exact G.
  - exact (sampled_entry _ _ _ _ _ S _ _ _ Ic G).
Qed.

(** X9.  The draw of the first instrument scale factor.  Whenever
    [inverse_sample] returns and [XTI__alpha] exists, it holds, and the
    returned vector has at its index, the truncated-normal inverse CDF at
    its own coordinate, truncated at +/-5 standard deviations, with
    location 1.0 and scale 0.104. *)
Theorem inverse_sample_XTI_alpha
  `{Xpsi} `{Scipy} `{Libm} `{NumpyRandom}
  (self self' : CustomPrior) (hypercube : option (list float))
  (state state' : rng) (vec : list float) :
  inverse_sample self hypercube state = Ok (vec, self', state') ->
  present (parameters self) "XTI__alpha" ->
  let u := fst (hypercube_of self hypercube state) in
  exists idx ui,
    Subspace.index (parameters self) "XTI__alpha" = Ok idx /\
    nth_error u idx = Some ui /\
    let v := truncnorm_ppf ui (-5.0) 5.0 1.0 0.104 in
    Subspace.getitem (parameters self') "XTI__alpha" = Ok v /\
    nth_error vec idx = Some v.
Proof.
  intros E (q & Q) u.
  destruct (inverse_sample_sampled _ _ _ _ _ _ E) as (ref' & S & _).
  fold u in S.
  destruct (sample_at_chain _ _ _ (sampled_at _ _ _ _ _ S))
    as (r0 & r1 & r2 & r3 & r4 & r5 & r6 & c).
  destruct (chain_XTI_alpha _ _ _ _ _ _ _ _ _ _ c)
    as [(A & _) | (idx & ui & I & N & G)]; [congruence |].
  exists idx, ui; cbv zeta; repeat split; try assumption.
  - rewrite (sampled_getitem _ _ _ _ _ S); exact G.
  - exact (sampled_entry _ _ _ _ _ S _ _ _ I G).
Qed.

(** X11.  Coordinates past the last parameter are never read: a hypercube with
    one coordinate per parameter, followed by anything, gives the result of
    the hypercube without what follows. *)
Theorem inverse_sample_extra_coordinates
  `{Xpsi} `{Scipy} `{Libm} `{NumpyRandom}
  (self : CustomPrior) (u extra : list float) (state : rng) :
  (List.length (parameters self) <= List.length u)%nat ->
  inverse_sample self (Some (u ++ extra)) state
  = inverse_sample self (Some u) state.
Proof.
  intros L; unfold inverse_sample; rewrite sample_at_app by exact L.
  reflexivity.
Qed.

(** X12.  A hypercube that is too short.  When the distance, the mass and
    cos(inclination) exist and the hypercube has no coordinate at the index
    of one of them, [inverse_sample] raises an IndexError. *)
Theorem inverse_sample_short_hypercube
  `{Xpsi} `{Scipy} `{Libm} `{NumpyRandom}
  (self : CustomPrior) (u : list float) (state : rng)
  (key : string) (idx : nat) :
  (forall k, In k ["distance"; "mass"; "cos_inclination"] ->
             present (parameters self) k) ->
  In key ["distance"; "mass"; "cos_inclination"] ->
  Subspace.index (parameters self) key = Ok idx ->
  (List.length u <= idx)%nat ->
  inverse_sample self (Some u) state = Raise IndexError.
Proof.
  intros _ _ I L; apply index_lt in I.
  unfold inverse_sample, sample_at.
  rewrite Prior_inverse_sample_short by lia; reflexivity.
Qed.

(** X13.  When [inverse_sample] returns.  With the hypercube given, the call
    returns exactly on the samplable inputs: a coordinate for every
    parameter, the five parameters it always assigns present, and no domain
    error in the draw of a colatitude.  An absent [XTI__alpha] or
    [PN__alpha] never makes it raise. *)
Theorem inverse_sample_returns_iff
  `{Xpsi} `{Scipy} `{Libm} `{NumpyRandom}
  (self : CustomPrior) (u : list float) (state : rng) :
  returns (inverse_sample self (Some u) state)
  <-> samplable (parameters self) u.
Proof.
  split.
  - intros (((vec & self') & state') & E).
    destruct (inverse_sample_inv _ _ _ _ _ _ E) as (u' & ref' & U & A & _).
    cbn in U; injection U as -> _; exact (sample_at_samplable _ _ _ A).
  - apply inverse_sample_returns.
Qed.

(** X14.  The sample does not depend on what the parameters hold.  When the
    default draw of the base class is a function of the name and the bounds
    of a parameter, two priors whose parameters have the same names, bounds
    and strict bounds give, on the same hypercube, the same vector or the
    same exception, whatever values and caches they hold and whatever
    their spacetimes. *)
Theorem inverse_sample_memoryless
  `{Xpsi} `{Scipy} `{Libm} `{NumpyRandom}
  (self1 self2 : CustomPrior) (u : list float) (state1 state2 : rng) :
  (forall q q' x, Subspace.shape q = Subspace.shape q' ->
                  Prior_inverse_sample_1 q x = Prior_inverse_sample_1 q' x) ->
  map Subspace.shape (parameters self1)
  = map Subspace.shape (parameters self2) ->
  output (inverse_sample self1 (Some u) state1)
  = output (inverse_sample self2 (Some u) state2).
Proof.
  intros D S; apply output_alike, sample_at_alike; assumption.
Qed.

(** X15.  Calling again.  Under the same condition on the default draw, a second
    call with the same hypercube, on the parameters the first call left
    behind, returns the same vector, and leaves in every cache the value
    drawn by the first call. *)
Theorem inverse_sample_again
  `{Xpsi} `{Scipy} `{Libm} `{NumpyRandom}
  (self self' : CustomPrior) (u vec : list float) (state state' : rng) :
  (forall q q' x, Subspace.shape q = Subspace.shape q' ->
                  Prior_inverse_sample_1 q x = Prior_inverse_sample_1 q' x) ->
  inverse_sample self (Some u) state = Ok (vec, self', state') ->
  exists self'',
    inverse_sample self' (Some u) state' = Ok (vec, self'', state') /\
    map cached (parameters self'') = map Some vec.
Proof.
  intros D E.
  destruct (inverse_sample_sampled _ _ _ _ _ _ E) as (ref' & S & _).
  cbn [hypercube_of fst] in S.
  assert (P : map Subspace.shape (parameters self')
              = map Subspace.shape (parameters self)).
  { rewrite (sampled_parameters _ _ _ _ _ S), restore_cache_shape.
    exact (sampled_shape _ _ _ _ _ S). }
  pose proof (output_alike self' self u state' state
                (sample_at_alike u _ _ D P)) as O.
  rewrite E in O.
  destruct (inverse_sample self' (Some u) state')
    as [((vec2 & self'') & state'') |] eqn:E2; unfold output in O;
    cbn [bind] in O; [| discriminate O].
  injection O as ->.
  destruct (inverse_sample_sampled _ _ _ _ _ _ E2) as (ref'' & S2 & T2).
  cbn [hypercube_of fst snd] in S2, T2; subst state''.
  exists self''; split; [reflexivity |].
  rewrite (sampled_cached _ _ _ _ _ S2).
  rewrite (sampled_parameters _ _ _ _ _ S), restore_cache_vector.
  rewrite (sampled_vector _ _ _ _ _ S); reflexivity.
Qed.

(** ** The transformation: lookups by name, and the fold undone *)

Section DictFacts.

(** The dictionary built from the names and a vector holds, under a name
    that occurs once, the entry of the vector at the position of the
    name. *)
Lemma dict_getitem_short (names : list string) (p : list float)
  (key : string) :
  (forall i, nth_error names i = Some key -> (List.length p <= i)%nat) ->
  dict_getitem (combine names p) key = Raise (KeyError key).
Proof.
  revert p; induction names as [| k names IH]; intros p A; [reflexivity |].
  destruct p as [| x p]; [reflexivity |].
  cbn [combine dict_getitem]; rewrite IH.
  - destruct (String.eqb_spec k key) as [-> | _]; [| reflexivity].
    specialize (A O eq_refl); cbn in A; lia.
  - intros i N; specialize (A (S i) N); cbn in A; lia.
Qed.

Lemma dict_getitem_combine (names : list string) (p : list float)
  (key : string) (i : nat) (v : float) :
  NoDup names -> nth_error names i = Some key -> nth_error p i = Some v ->
  dict_getitem (combine names p) key = Ok v.
Proof.
  revert p i; induction names as [| k names IH]; intros p i D N V.
  - destruct i; discriminate N.
  - destruct p as [| x p]; [destruct i; discriminate V |].
    cbn [combine dict_getitem]; inversion D as [| k' names' O D']; subst.
    destruct i as [| i]; cbn in N, V.
    + injection N as ->; injection V as ->.
      rewrite dict_getitem_short, String.eqb_refl; [reflexivity |].
      intros i N; exfalso; apply O, (nth_error_In _ _ N).
    + rewrite (IH p i D' N V); reflexivity.
Qed.

Lemma index_names (ref : ParameterSubspace) (key : string) (i : nat) :
  Subspace.index ref key = Ok i ->
  nth_error (Subspace.names ref) i = Some key.
Proof.
  intros I; destruct (index_get_param _ _ _ I) as (q & G & N).
  unfold Subspace.names; rewrite nth_error_map, N; cbn.
  rewrite (get_param_name _ _ _ G); reflexivity.
Qed.

End DictFacts.

(** ** Adding 1.0 back to a folded phase *)

Section Unfold.

Open Scope Z_scope.

(** Shifting right what was shifted left loses nothing. *)
Lemma shr_iter_xO (n q : positive) :
  SpecFloat.iter_pos shr_1 n
    {| shr_m := Z.pos (Pos.iter xO q n); shr_r := false; shr_s := false |}
  = {| shr_m := Z.pos q; shr_r := false; shr_s := false |}.
Proof.
  revert q; induction n as [n IH | n IH |]; intros q; cbn.
  - rewrite !IH; reflexivity.
  - rewrite !IH; reflexivity.
  - reflexivity.
Qed.

(** Rounding a canonical mantissa shifted left by [p] binary places, at an
    exponent lowered by [p], returns the mantissa. *)
Lemma binary_round_aux_shifted (s : bool) (m p : positive) (e : Z) :
  bounded prec emax m (e + Z.pos p) = true ->
  binary_round_aux prec emax s (Z.pos (Pos.iter xO m p)) e loc_Exact
  = S754_finite s m (e + Z.pos p).
Proof.
  unfold bounded, canonical_mantissa; intros B.
  apply andb_prop in B as (C & B); apply Z.eqb_eq in C.
  assert (D : Z.pos (digits2_pos (Pos.iter xO m p))
              = Z.pos (digits2_pos m) + Z.pos p).
  { apply digits2_shift; [lia | apply iter_xO]. }
  unfold binary_round_aux, shr_fexp at 1; cbn [Zdigits2].
  rewrite D.
  replace (Z.pos (digits2_pos m) + Z.pos p + e)
    with (Z.pos (digits2_pos m) + (e + Z.pos p)) by lia.
  rewrite C.
  replace (e + Z.pos p - e) with (Z.pos p) by lia.
  cbn [shr shr_record_of_loc]; rewrite shr_iter_xO.
  cbn [shr_m loc_of_shr_record round_nearest_even].
  unfold shr_fexp; cbn [Zdigits2].
  rewrite C, Z.sub_diag; cbn [shr shr_record_of_loc shr_m].
  rewrite B; reflexivity.
Qed.

End Unfold.

Section RoundTrip.

Open Scope Z_scope.

(** For [v] between one half and one, [v - 1.0] is exactly [-(2^53 - m)]
    at the scale of [v], brought to 53 binary digits. *)
Lemma sub_1_exact (m : positive) :
  4503599627370496 < Z.pos m < 9007199254740992 ->
  exists k p,
    Z.pos k = 9007199254740992 - Z.pos m /\
    SF64sub (S754_finite false m (-53)) (Prim2SF 1.0)
    = S754_finite true (Pos.iter xO k p) (-53 - Z.pos p).
Proof.
  intros (M1 & M2); unfold SF64sub.
  change (Prim2SF 1.0) with (S754_finite false 4503599627370496 (-52)).
  unfold SFsub.
  change (IntDef.Z.min (-53) (-52)) with (-53)%Z.
  cbv zeta; unfold shl_align.
  change (-53 - -53)%Z with 0%Z; change (-53 - -52)%Z with (-1)%Z.
  cbv beta iota; unfold cond_Zopp, fst.
  change (PosDef.Pos.iter xO 4503599627370496%positive 1)
    with 9007199254740992%positive.
  destruct (Z.pos m - 9007199254740992)%Z as [| k | k] eqn:K; try lia.
  assert (K1 : (Z.pos k < 4503599627370496)%Z) by lia.
  unfold binary_normalize, binary_round.
  assert (D : (Z.pos (digits2_pos k) <= 52)%Z).
  { apply digits2_le; change (2 ^ 52)%Z with 4503599627370496%Z; exact K1. }
  change (fexp prec emax (Z.pos (digits2_pos k) + -53))
    with (Z.max (Z.pos (digits2_pos k) + -53 - 53) (-1074)).
  replace (Z.max (Z.pos (digits2_pos k) + -53 - 53) (-1074))
    with (Z.pos (digits2_pos k) - 106)%Z by lia.
  unfold shl_align.
  destruct (Z.pos (digits2_pos k) - 106 - -53)%Z as [| p | p] eqn:P;
    try lia.
  assert (S : Z.pos (digits2_pos (Pos.iter xO k p)) = 53%Z).
  { rewrite (digits2_shift k (Z.pos p)); [lia | lia | apply iter_xO]. }
  exists k, p; split; [lia |].
  replace (-53 - Z.pos p) with (Z.pos (digits2_pos k) - 106) by lia.
  apply binary_round_aux_canonical.
  unfold bounded, canonical_mantissa; rewrite S.
  change (fexp prec emax (53 + (Z.pos (digits2_pos k) - 106)))
    with (Z.max (53 + (Z.pos (digits2_pos k) - 106) - 53) (-1074)).
  apply andb_true_intro; split.
  - apply Z.eqb_eq; lia.
  - apply Z.leb_le; change (emax - prec)%Z with 971%Z; lia.
Qed.

(** Adding 1.0 to that difference gives [m] back. *)
Lemma add_1_exact (m k p : positive) :
  bounded prec emax m (-53) = true ->
  Z.pos k = 9007199254740992 - Z.pos m ->
  SF64add (S754_finite true (Pos.iter xO k p) (-53 - Z.pos p))
          (Prim2SF 1.0)
  = S754_finite false m (-53).
Proof.
  intros B K; unfold SF64add.
  change (Prim2SF 1.0) with (S754_finite false 4503599627370496 (-52)).
  unfold SFadd.
  change (IntDef.Z.min (-53 - Z.pos p) (-52))
    with (Z.min (-53 - Z.pos p) (-52)).
  rewrite Z.min_l by lia.
  cbv zeta; unfold shl_align.
  rewrite Z.sub_diag.
  destruct (-53 - Z.pos p - -52) as [| q | q] eqn:Q; try lia.
  cbv beta iota; unfold cond_Zopp, fst.
  assert (E : - Z.pos (Pos.iter xO k p)
              + Z.pos (Pos.iter xO 4503599627370496%positive q)
              = Z.pos (Pos.iter xO m p)).
  { rewrite !iter_xO.
    replace (Z.pos q) with (Z.pos p + 1) by lia.
    rewrite Z.pow_add_r by lia.
    change (2 ^ 1) with 2.
    rewrite K.
    set (X := 2 ^ Z.pos p).
    change 9007199254740992 with (2 * 4503599627370496).
    ring. }
  rewrite E; unfold binary_normalize, binary_round.
  assert (D : Z.pos (digits2_pos (Pos.iter xO m p))
              = Z.pos (digits2_pos m) + Z.pos p).
  { apply digits2_shift; [lia | apply iter_xO]. }
  assert (C := B); unfold bounded, canonical_mantissa in C.
  apply andb_prop in C as (C & _); apply Z.eqb_eq in C.
  rewrite D.
  replace (Z.pos (digits2_pos m) + Z.pos p + (-53 - Z.pos p))
    with (Z.pos (digits2_pos m) + -53) by lia.
  rewrite C; unfold shl_align.
  replace (-53 - (-53 - Z.pos p)) with (Z.pos p) by lia.
  cbv beta iota.
  replace (-53) with (-53 - Z.pos p + Z.pos p) at 2 by lia.
  apply binary_round_aux_shifted.
  replace (-53 - Z.pos p + Z.pos p) with (-53) by lia; exact B.
Qed.

End RoundTrip.

Section RoundTripFloat.

Lemma sub_1_add_1 (v : float) :
  (0.5 <? v) = true -> (v <? 1.0) = true -> v - 1.0 + 1.0 = v.
Proof.
  intros Lo Hi; destruct (half_to_one v Lo Hi) as (m & E & M).
  pose proof (Prim2SF_valid v) as V; rewrite E in V.
  unfold SpecFloat.valid_binary in V.
  destruct (sub_1_exact m M) as (k & p & K & S).
  apply Prim2SF_inj; rewrite add_spec, sub_spec, E, S.
  rewrite (add_1_exact m k p V K); reflexivity.
Qed.

End RoundTripFloat.

(** X16.  Lookups by name are lookups by position.  When the names of the
    parameters are distinct and the vector reaches the positions of the
    mass, the radius and the two phase shifts, [transform] returns the
    vector followed by gravradius(mass) / radius and the two folded phase
    shifts, each value being the entry of the vector at the position of its
    name (the radius not being zero). *)
Theorem transform_by_name `{Xpsi}
  (self : CustomPrior) (p : list float) (i_m i_r i_p i_s : nat)
  (mass radius p_shift s_shift : float) :
  NoDup (Subspace.names (parameters self)) ->
  Subspace.index (parameters self) "mass" = Ok i_m ->
  Subspace.index (parameters self) "radius" = Ok i_r ->
  Subspace.index (parameters self) "p__phase_shift" = Ok i_p ->
  Subspace.index (parameters self) "s__phase_shift" = Ok i_s ->
  nth_error p i_m = Some mass -> nth_error p i_r = Some radius ->
  nth_error p i_p = Some p_shift -> nth_error p i_s = Some s_shift ->
  is_zero radius = false ->
  transform self p
  = Ok (p ++ [gravradius mass / radius; shifted p_shift; shifted s_shift]).
Proof.
  intros D Im Ir Ip Is Nm Nr Np Ns Z; unfold transform; cbv zeta.
  rewrite (dict_getitem_combine _ _ _ _ _ D (index_names _ _ _ Im) Nm).
  rewrite (dict_getitem_combine _ _ _ _ _ D (index_names _ _ _ Ir) Nr).
  rewrite (dict_getitem_combine _ _ _ _ _ D (index_names _ _ _ Ip) Np).
  rewrite (dict_getitem_combine _ _ _ _ _ D (index_names _ _ _ Is) Ns).
  cbn [bind]; unfold truediv; rewrite Z; cbn [bind].
  rewrite <- !app_assoc; reflexivity.
Qed.

(** X17.  A vector that is too short.  The names are paired with the vector up
    to the shorter of the two, so when no occurrence of the name [mass]
    lies within the length of the vector (the empty vector, a vector that
    stops before the mass, no parameter of that name), [transform] raises
    a KeyError for [mass]. *)
Theorem transform_short_vector `{Xpsi}
  (self : CustomPrior) (p : list float) :
  (forall i, nth_error (Subspace.names (parameters self)) i = Some "mass" ->
             (List.length p <= i)%nat) ->
  transform self p = Raise (KeyError "mass").
Proof.
  intros A; unfold transform; cbv zeta.
  rewrite (dict_getitem_short _ _ _ A); reflexivity.
Qed.

(** X18.  The fold loses nothing.  For every phase in [0, 1), adding 1.0 back to
    a folded value that is negative gives the phase again, bit for bit: the
    subtraction of 1.0 from a double between one half and one is exact. *)
Theorem phase_shift_unfolds (v : float) :
  (0.0 <=? v) = true -> (v <? 1.0) = true ->
  (if shifted v <? 0.0 then shifted v + 1.0 else shifted v) = v.
Proof.
  intros Lo Hi; unfold shifted, gtb.
  destruct (0.5 <? v) eqn:A.
  - destruct (sub_1_half_to_one v A Hi) as (k & e & E & _).
    assert (N : (v - 1.0 <? 0.0) = true)
      by (rewrite ltb_spec, E; reflexivity).
    rewrite N; apply sub_1_add_1; assumption.
  - rewrite (geb_not_ltb v 0.0 Lo); reflexivity.
Qed.

(** X20.  One value per derived name.  Whenever [transform] returns, the
    vector it was given is the beginning of what it returns, unchanged, and
    what follows pairs with the names of [__derived_names__], in their
    order: [compactness] with gravradius(mass) / radius,
    [p__phase_shift_shifted] with the folded primary phase shift and
    [s__phase_shift_shifted] with the folded secondary one, the mass, the
    radius and the phase shifts being what the dictionary of names and
    values holds. *)
Theorem transform_derived_names `{Xpsi}
  (self : CustomPrior) (p out : list float) :
  transform self p = Ok out ->
  let ref := combine (Subspace.names (parameters self)) p in
  exists mass radius p_shift s_shift,
    dict_getitem ref "mass" = Ok mass /\
    dict_getitem ref "radius" = Ok radius /\
    dict_getitem ref "p__phase_shift" = Ok p_shift /\
    dict_getitem ref "s__phase_shift" = Ok s_shift /\
    firstn (List.length p) out = p /\
    List.length out = (List.length p + List.length __derived_names__)%nat /\
    combine __derived_names__ (skipn (List.length p) out)
    = [("compactness", gravradius mass / radius);
       ("p__phase_shift_shifted",
        if p_shift >? 0.5 then p_shift - 1.0 else p_shift);
       ("s__phase_shift_shifted",
        if s_shift >? 0.5 then s_shift - 1.0 else s_shift)].
Proof.
  intros T; destruct (transform_inv _ _ _ T)
    as (m & r & c & ps & ss & M & R & Q & Ps & Ss & ->).
  exists m, r, ps, ss; cbv zeta; repeat split; try assumption.
  - rewrite firstn_app, Nat.sub_diag, firstn_all; cbn; apply app_nil_r.
  - rewrite length_app; reflexivity.
  - rewrite skipn_app, Nat.sub_diag, skipn_all; cbn [skipn app combine].
    unfold truediv in Q; destruct (is_zero r); [discriminate Q |].
    injection Q as <-; reflexivity.
Qed.

(** ** Exceptions and sentinels *)

Section Sentinel.

Import Subspace.

Context `{Xpsi}.

Lemma not_ltb_geb (x y : float) :
  is_nan x = false -> is_nan y = false ->
  (x <? y) = false -> (x >=? y) = true.
Proof.
  intros Nx Ny L; destruct (x >=? y) eqn:G; [reflexivity |].
  rewrite (not_geb_ltb _ _ Nx Ny G) in L; discriminate.
Qed.

Lemma no_exit_in_limits (gs : list float) :
  existsb (fun g => negb (in_NSX_limits g)) gs = false ->
  Forall (fun g => (13.7 <=? g) = true /\ (g <=? 15.0) = true) gs.
Proof.
  induction gs as [| g gs IH]; cbn; [constructor |].
  intros E; apply orb_false_elim in E as (G & E).
  apply negb_false_iff, andb_prop in G; constructor; [exact G | exact (IH E)].
Qed.

(** A finite value is returned only after the seven tests have passed;
    among numbers, the seven constraints are then satisfied. *)
Lemma call_accepted
  (self : CustomPrior) (p : option (list float)) (v : float) :
  __call__ self p = Ok v -> is_finite v = true ->
  (forall c, numbers self c) -> forall c, satisfied self c.
Proof.
  unfold __call__; cbv zeta; intros C F N; walk C; injection C as <-;
    try discriminate F.
  - apply negb_true_iff in T; congruence.
  - apply negb_false_iff in T0, T1; apply andb_prop in T0 as (Lo & Hi).
    intros c; destruct c; unfold satisfied; cbv zeta.
    + eauto.
    + eauto.
    + exists a1; split; [exact E1 |].
      destruct (N PhotonSphere a1 E1) as (Nq & Np).
      apply not_ltb_geb; assumption.
    + exists a2; split; [exact E2 |].
      apply not_ltb_geb; [exact (N SingleMaximum a2 E2) | reflexivity |].
      exact T3.
    + apply no_exit_in_limits, T4.
    + exists a3, a4; repeat split; try assumption.
      destruct (N ColatitudeOrder a3 a4 E3 E4) as (Np & Ns).
      unfold gtb in T5; apply (not_ltb_geb a4 a3); assumption.
    + assert (A : separation (parameters self) = Ok a5)
        by (apply separation_ang_sep; assumption).
      exists a5, a6, a7; repeat split; try assumption.
      destruct (N NoOverlap a5 a6 a7 A E6 E7) as (Na & Nr).
      apply not_ltb_geb; assumption.
Qed.

(** A constraint that is false of numbers makes the value returned not
    finite. *)
Lemma unsatisfied_rejected
  (self : CustomPrior) (p : option (list float)) (v : float) (c : constraint) :
  __call__ self p = Ok v -> unsatisfied self c -> numbers self c ->
  is_finite v = false.
Proof.
  intros C U N; destruct (is_finite v) eqn:F; [| reflexivity].
  destruct (call_inside _ _ _ C F) as (_ & A & _).
  destruct (A c (unsatisfied_violated _ _ U N)).
Qed.



End Sentinel.


(** ** The verdict against the specification *)

(** X1.  The verdict and the constraints of the specification.  On a vector
    that passes the check of the base class, whenever [__call__] returns:
    minus infinity is returned only if one of the seven constraints, as the
    specification states them, is false; 0.0 is returned if all seven are
    satisfied; and when the two sides of every comparison are numbers, the
    verdict is exact: minus infinity exactly when a constraint is false,
    0.0 exactly when all seven are satisfied. *)
Theorem call_verdict `{Xpsi}
  (self : CustomPrior) (p : option (list float)) (v : float) :
  is_finite (Prior__call__ p (parameters self)) = true ->
  __call__ self p = Ok v ->
  (v = neg_infinity -> exists c, unsatisfied self c) /\
  ((forall c, satisfied self c) -> v = 0.0) /\
  ((forall c, numbers self c) ->
   (v = neg_infinity <-> exists c, unsatisfied self c) /\
   (v = 0.0 <-> forall c, satisfied self c)).
Proof.
  intros F C.
  assert (R : v = neg_infinity -> exists c, unsatisfied self c).
  { intros ->; destruct (call_rejected _ _ _ F C eq_refl) as (_ & c & V).
    exists c; exact (violated_unsatisfied _ _ V). }
  assert (A : (forall c, satisfied self c) -> v = 0.0).
  { intros S.
    assert (E : __call__ self p = Ok 0.0).
    { apply call_admissible; [exact F |].
      intros c; apply satisfied_holds, S. }
    congruence. }
  split; [exact R |]; split; [exact A |].
  intros N; split; split; try assumption.
  - intros (c & U).
    pose proof (unsatisfied_rejected _ _ _ _ C U (N c)) as I.
    exact (proj1 (call_rejected _ _ _ F C I)).
  - intros ->; exact (call_accepted _ _ _ C eq_refl N).
Qed.

(** ** The model at work

    Each property above, at the stand-ins of [Fixture]. *)

Import Fixture.
Import Cases.

(** Decide a constraint on a concrete prior by running its definition. *)
Ltac evaluate :=
  repeat match goal with
         | |- exists _, _ => eexists
         | |- _ /\ _ => split
         | |- Forall _ _ => constructor
         | |- Exists _ _ => constructor
         end;
  try reflexivity; try (vm_compute; reflexivity).

(** Replace a looked-up value by what the lookup evaluates to. *)
Ltac looked_up :=
  repeat match goal with
         | E : _ = Ok _ |- _ => vm_compute in E; injection E as <-
         | E : _ = Some _ |- _ => vm_compute in E; injection E as <-
         end.

(** The same for one named lookup. *)
Ltac look E := vm_compute in E; injection E; clear E; intros; subst.

(** Two floats that differ, by evaluation of their comparison. *)
Ltac differ :=
  let E := fresh "E" in
  intros E;
  match type of E with
  | Ok ?x = Ok _ =>
      apply (f_equal (fun r => match r with
                               | Ok z => z =? x
                               | Raise _ => false
                               end)) in E
  | ?x = _ => apply (f_equal (fun z => z =? x)) in E
  end;
  vm_compute in E; discriminate E.

Lemma call_support_witness :
  __call__ prior None = Ok 0.0 /\ __call__ outside None = Ok neg_infinity.
Proof.
  split.
  - apply (call_support prior None); [reflexivity |].
    intros c; destruct c; cbn [satisfied]; evaluate.
  - apply (call_support outside None) with (c := ColatitudeOrder);
      [reflexivity | | |].
    + cbn [unsatisfied]; evaluate.
    + intros x y X Y; look X; look Y; split; reflexivity.
    + intros c' D; destruct c'; try (exfalso; apply D; reflexivity);
        cbn [satisfied]; evaluate.
Defined.

(** C1, the counterexample: an angular separation that is NaN is not
    >= the sum of the angular radii, the other six constraints are
    satisfied and the check of the base class passes, yet the support
    evaluator returns 0.0, not minus infinity. *)
Lemma call_accepts_nan_separation :
  is_finite (@Prior__call__ blind None (parameters prior)) = true /\
  @unsatisfied blind prior NoOverlap /\
  (forall c, c <> NoOverlap -> @satisfied blind prior c) /\
  @__call__ blind prior None = Ok 0.0.
Proof.
  split; [reflexivity |]; split; [| split].
  - cbn [unsatisfied]; evaluate.
  - intros c D; destruct c; try (exfalso; apply D; reflexivity);
      cbn [satisfied]; evaluate.
  - vm_compute; reflexivity.
Qed.

(** The same with the bound of the photon sphere: when [R_r_s] is NaN the
    polar radius is not >= 1.505 / R_r_s, and 0.0 is returned. *)
Example call_accepts_nan_photon_sphere :
  unsatisfied (with_spacetime undefined_ratio prior) PhotonSphere /\
  (forall c, c <> PhotonSphere ->
             satisfied (with_spacetime undefined_ratio prior) c) /\
  __call__ (with_spacetime undefined_ratio prior) None = Ok 0.0.
Proof.
  split; [| split].
  - cbn [unsatisfied]; evaluate.
  - intros c D; destruct c; try (exfalso; apply D; reflexivity);
      cbn [satisfied]; evaluate.
  - vm_compute; reflexivity.
Qed.

Lemma fixture_factors_bounded : factors_bounded ref.
Proof.
  repeat split; intros; looked_up; vm_compute; reflexivity.
Qed.

Lemma fixture_factors_not_negative : factors_not_negative ref.
Proof.
  repeat split; intros; looked_up; vm_compute; reflexivity.
Qed.

Lemma density_nonneg_witness :
  density outside (Subspace.vector ref) = Ok 0.0 /\
  exists v, density prior (Subspace.vector ref) = Ok v /\
            (v <? 0.0) = false /\ (0.0 <=? v) = true.
Proof.
  destruct (density_nonneg outside (Subspace.vector ref)) as (Z & _).
  destruct (density_nonneg prior (Subspace.vector ref)) as (_ & N & B).
  split.
  - apply Z with (logp := neg_infinity); reflexivity.
  - eexists; split; [vm_compute; reflexivity |]; split.
    + apply (N fixture_factors_not_negative); vm_compute; reflexivity.
    + apply (B fixture_factors_bounded); vm_compute; reflexivity.
Defined.

(** C2, the counterexample: with the two scale factors at 1e200, inside
    their bounds, the support evaluator returns 0.0, the exponent of the
    bivariate normal is infinity minus infinity, and [density] returns NaN,
    which is not >= 0. *)
Lemma density_returns_nan :
  __call__ far (Some (Subspace.vector (parameters far))) = Ok 0.0 /\
  is_nan (bivariate_normal_exponent 1e200 1e200 1.0 0.104 0.916) = true /\
  exists v, density far (Subspace.vector (parameters far)) = Ok v /\
            is_nan v = true /\ (0.0 <=? v) = false.
Proof.
  split; [vm_compute; reflexivity |]; split; [vm_compute; reflexivity |].
  eexists; split; [vm_compute; reflexivity |].
  split; vm_compute; reflexivity.
Qed.

Lemma density_product_witness :
  let location := 0.0427 + (0.00304 / 0.0703) * 0.800 * (2.082 - 2.082) in
  let scale := sqrt ((1.0 - 0.800 * 0.800) * 0.00304 * 0.00304) in
  let lower := py_min (-10.0) ((0.0 - location) / scale) in
  let product :=
    skewnorm_pdf 1.0 1.7 1.002 0.227
    * truncnorm_pdf 2.082 (-5.0) 5.0 2.082 0.0703
    * truncnorm_pdf 0.0427 lower 10.0 location scale in
  density (without "PN__alpha" prior) (Subspace.vector ref) = Ok product /\
  density prior (Subspace.vector ref)
  = Ok (product
        * libm_exp (-1.0 * bivariate_normal_exponent 1.0 1.0 1.0 0.104 0.916)
        / bivariate_normal_norm 0.104 0.916).
Proof.
  split.
  - refine (proj1 (proj2 (density_product (without "PN__alpha" prior)
                     (Subspace.vector ref) 0.0 1.0 2.082
                     (param "cos_inclination" 0.0427 0.0 1.0)
                     _ eq_refl eq_refl eq_refl eq_refl)) _);
      [vm_compute; reflexivity |].
    intros (q & G); vm_compute in G; discriminate.
  - refine (proj2 (proj2 (density_product prior
                     (Subspace.vector ref) 0.0 1.0 2.082
                     (param "cos_inclination" 0.0427 0.0 1.0)
                     _ eq_refl eq_refl eq_refl eq_refl))
                  1.0 1.0 eq_refl eq_refl _);
      [vm_compute; reflexivity |].
    eexists; vm_compute; reflexivity.
Defined.

(** C3, the counterexample: the scale [density] passes for cos(inclination)
    is not the double sqrt (1 - 0.8^2) 0.00304 of the claim, and the
    product written with that double is not what [density] returns. *)
Lemma density_scale_not_claimed :
  let claimed := sqrt (1.0 - 0.800 * 0.800) * 0.00304 in
  let location := 0.0427 + (0.00304 / 0.0703) * 0.800 * (2.082 - 2.082) in
  let lower := py_min (-10.0) ((0.0 - location) / claimed) in
  sqrt ((1.0 - 0.800 * 0.800) * 0.00304 * 0.00304) <> claimed /\
  density (without "PN__alpha" prior) (Subspace.vector ref)
  <> Ok (skewnorm_pdf 1.0 1.7 1.002 0.227
         * truncnorm_pdf 2.082 (-5.0) 5.0 2.082 0.0703
         * truncnorm_pdf 0.0427 lower 10.0 location claimed).
Proof.
  cbv zeta; split.
  - differ.
  - assert (D : density (without "PN__alpha" prior) (Subspace.vector ref)
                = Ok 19535797.973686744) by (vm_compute; reflexivity).
    rewrite D; differ.
Qed.





(** Without rotation the quotient under the root divides by zero. *)
Example call_raises_without_spin :
  __call__ (with_spacetime static prior) None = Raise ZeroDivisionError.
Proof. vm_compute; reflexivity. Qed.

(** Check that a concrete container and the hypercube are samplable. *)
Ltac samplable_by_evaluation :=
  repeat split;
  [ cbn; lia
  | intros key K; cbn in K; decompose [or] K; subst; try contradiction;
    eexists; reflexivity
  | intros key q idx u K G I N; cbn in K; decompose [or] K; subst;
    try contradiction; looked_up; eexists; vm_compute; reflexivity ].

Lemma prior_samplable : samplable (parameters prior) hypercube.
Proof. samplable_by_evaluation. Qed.

Lemma inverse_sample_colatitudes_witness :
  exists vec self' state',
    inverse_sample prior (Some hypercube) seed = Ok (vec, self', state') /\
    Subspace.getitem (parameters self') "p__super_colatitude"
    = Ok (libm_acos (libm_cos 3.14 + (libm_cos 0.001 - libm_cos 3.14) * 0.2))
    /\
    Subspace.getitem (parameters self') "s__super_colatitude"
    = Ok (libm_acos (libm_cos 3.14 + (libm_cos 0.001 - libm_cos 3.14) * 0.6)).
Proof.
  destruct (inverse_sample_colatitudes prior hypercube seed) as (R & C).
  destruct (R prior_samplable) as (((vec & self') & state') & E).
  exists vec, self', state'; split; [exact E |]; split.
  - destruct (C _ _ _ E "p__super_colatitude") as (i & u & a & b & I & N & B & G & _);
      [cbn; auto |].
    look I; look N; look B; exact G.
  - destruct (C _ _ _ E "s__super_colatitude") as (i & u & a & b & I & N & B & G & _);
      [cbn; auto |].
    look I; look N; look B; exact G.
Defined.

Lemma inverse_sample_PN_alpha_witness :
  exists vec self' state',
    inverse_sample prior (Some hypercube) seed = Ok (vec, self', state') /\
    exists xti,
      Subspace.getitem (parameters self') "XTI__alpha" = Ok xti /\
      Subspace.getitem (parameters self') "PN__alpha"
      = Ok (truncnorm_ppf 0.65 (-5.0) 5.0 (1.0 + 0.916 * (xti - 1.0))
                          (sqrt (1.0 - 0.916 * 0.916) * 0.104)).
Proof.
  destruct (inverse_sample_PN_alpha prior hypercube seed) as (R & C).
  destruct (R prior_samplable) as (((vec & self') & state') & E).
  exists vec, self', state'; split; [exact E |].
  destruct (C _ _ _ E) as (i & u & I & N & X & _);
    [eexists; reflexivity |].
  look I; look N; apply X; eexists; reflexivity.
Defined.

Lemma inverse_sample_restores_cache_witness :
  exists vec self' state',
    inverse_sample prior (Some hypercube) seed = Ok (vec, self', state') /\
    map cached (parameters self') = map Some (Subspace.vector ref) /\
    vec = Subspace.vector (parameters self') /\
    nth_error vec 2 = Some (skewnorm_ppf 0.75 1.7 1.002 0.227) /\
    nth_error vec 1 = Some (Prior_inverse_sample_1
                              (param "radius" 12.0 4.0 16.0) 0.25).
Proof.
  destruct (inverse_sample_returns prior hypercube seed prior_samplable)
    as (((vec & self') & state') & E).
  exists vec, self', state'; split; [exact E |].
  destruct (inverse_sample_restores_cache _ _ _ _ _ _ E)
    as (_ & C & V & (i & u & I & N & D) & _ & K).
  repeat split; try assumption.
  - look I; look N; exact D.
  - destruct (K 1%nat (param "radius" 12.0 4.0 16.0) eq_refl)
      as (u1 & U & R).
    + cbn; intros O; decompose [or] O; try discriminate; contradiction.
    + look U; exact R.
Defined.

Lemma phase_shift_folded_witness :
  (exists out, transform prior (Subspace.vector ref) = Ok out /\
               exists compactness,
                 out = Subspace.vector ref ++ [compactness; 0.0; 0.0]) /\
  (-0.5 <? shifted 0.75) = true /\ (shifted 0.75 <=? 0.5) = true.
Proof.
  destruct (@phase_shift_folded xpsi) as (T & S & _).
  split; [| exact (S 0.75 eq_refl eq_refl)].
  eexists; split; [vm_compute; reflexivity |].
  destruct (T prior (Subspace.vector ref) _ eq_refl)
    as (c & p & s & P & Q & E).
  look P; look Q; exists c; exact E.
Defined.

(** C9, the counterexample: a phase of exactly 0.5 is appended unchanged,
    so the appended values do not all lie in [-0.5, 0.5). *)
Lemma phase_one_half_stays :
  ~ (forall v, (0.0 <=? v) = true -> (v <? 1.0) = true ->
               (-0.5 <=? shifted v) = true /\ (shifted v <? 0.5) = true).
Proof.
  intros A; destruct (A 0.5 eq_refl eq_refl) as (_ & B).
  vm_compute in B; discriminate.
Qed.

(** In doubles, 0.7 - 1.0 is not the double written -0.3. *)
Example phase_seven_tenths : (shifted 0.7 =? -0.3) = false.
Proof. vm_compute; reflexivity. Qed.

Lemma without_XTI_samplable :
  samplable (parameters (without "XTI__alpha" prior)) hypercube.
Proof. samplable_by_evaluation. Qed.

Lemma PN_alpha_without_XTI_alpha_witness :
  density (without "XTI__alpha" prior) (Subspace.vector ref)
  = Raise (KeyError "XTI__alpha") /\
  exists vec self' state',
    inverse_sample (without "XTI__alpha" prior) (Some hypercube) seed
    = Ok (vec, self', state') /\
    Subspace.getitem (parameters self') "PN__alpha"
    = Ok (truncnorm_ppf 0.35 (-5.0) 5.0 1.0 0.104).
Proof.
  destruct (PN_alpha_without_XTI_alpha (without "XTI__alpha" prior))
    as (D & S).
  - eexists; reflexivity.
  - intros (q & G); vm_compute in G; discriminate.
  - split.
    + destruct (D (Subspace.vector ref) 0.0 eq_refl eq_refl) as (key & E & K).
      rewrite E, K; [reflexivity | |]; eexists; reflexivity.
    + destruct (S hypercube seed without_XTI_samplable)
        as (vec & self' & state' & i & u & E & I & N & G & _).
      exists vec, self', state'; split; [exact E |].
      look I; look N; exact G.
Defined.

(** Without a hypercube the vector returned depends on the state of the
    random generator. *)
Example inverse_sample_draws :
  output (inverse_sample prior None seed)
  <> output (inverse_sample prior None seed').
Proof. vm_compute; discriminate. Qed.
(** ** The further properties at work *)

Lemma prior_numbers : forall c, numbers prior c.
Proof.
  intros c; destruct c; cbn [numbers]; try exact I.
  - intros b E; look E; split; reflexivity.
  - intros m E; look E; reflexivity.
  - intros x y X Y; look X; look Y; split; reflexivity.
  - intros a rp rs A P S; look A; look P; look S; split; reflexivity.
Qed.

Lemma call_verdict_witness :
  (exists c, unsatisfied outside c) /\ (forall c, satisfied prior c).
Proof.
  split.
  - assert (F : is_finite (Prior__call__ None (parameters outside)) = true)
      by (vm_compute; reflexivity).
    assert (C : __call__ outside None = Ok neg_infinity)
      by (vm_compute; reflexivity).
    exact (proj1 (call_verdict outside None neg_infinity F C) eq_refl).
  - assert (F : is_finite (Prior__call__ None (parameters prior)) = true)
      by (vm_compute; reflexivity).
    assert (C : __call__ prior None = Ok 0.0) by (vm_compute; reflexivity).
    destruct (call_verdict prior None 0.0 F C) as (_ & _ & N).
    exact (proj1 (proj2 (N prior_numbers)) eq_refl).
Defined.

(** The polar radius inside the photon sphere is reported as minus
    infinity although [mu], computed next, would raise. *)
Lemma call_first_violation_witness :
  __call__ (with_spacetime inside_photon_sphere prior) None
  = Ok neg_infinity /\
  mu inside_photon_sphere = Raise ValueError.
Proof.
  split; [| vm_compute; reflexivity].
  apply (call_first_violation (with_spacetime inside_photon_sphere prior)
           None PhotonSphere); [reflexivity | |].
  - cbn [violated]; evaluate.
  - intros c' L; destruct c'; cbn in L; try lia; cbn [holds]; evaluate.
Defined.

(** An angular separation that is NaN passes the overlap check. *)
Lemma call_nan_checks_witness :
  @__call__ blind prior None = Ok 0.0.
Proof.
  apply (@call_nan_checks blind prior None NoOverlap); [reflexivity | |].
  - cbn [on_nan]; do 3 eexists; repeat split; try reflexivity.
    left; reflexivity.
  - intros c' D; destruct c'; try (exfalso; apply D; reflexivity);
      cbn [holds]; evaluate.
Defined.

Lemma call_exceptions_witness :
  is_finite (Prior__call__ None (parameters (without "radius" prior))) = true
  /\
  ((exists key, In key call_keys /\ KeyError "radius" = KeyError key /\
                ~ present (parameters (without "radius" prior)) key) \/
   ((KeyError "radius" = ZeroDivisionError \/
     KeyError "radius" = ValueError) /\
    ~ spacetime_defined (spacetime (without "radius" prior)) /\
    holds (without "radius" prior) Distance /\
    holds (without "radius" prior) Radius)).
Proof.
  apply (call_exceptions (without "radius" prior) None (KeyError "radius")).
  vm_compute; reflexivity.
Defined.


Lemma inverse_sample_cos_inclination_witness :
  exists vec self' state',
    inverse_sample prior (Some hypercube) seed = Ok (vec, self', state') /\
    let mass := truncnorm_ppf 0.5 (-5.0) 5.0 _mu_m _std_m in
    let _loc := _mu_cosi + (_std_cosi / _std_m) * _corr * (mass - _mu_m) in
    nth_error vec 3
    = Some (truncnorm_ppf 0.5 (py_min (-10.0) ((0.0 - _loc) / _cond_std))
                          10.0 _loc _cond_std).
Proof.
  destruct (inverse_sample_returns prior hypercube seed prior_samplable)
    as (((vec & self') & state') & E).
  exists vec, self', state'; split; [exact E |].
  destruct (inverse_sample_cos_inclination _ _ _ _ _ _ E)
    as (im & um & ic & uc & q & Im & Nm & Ic & Nc & Q & _ & V).
  look Im; look Nm; look Ic; look Nc; look Q; exact V.
Defined.

Lemma inverse_sample_XTI_alpha_witness :
  exists vec self' state',
    inverse_sample prior (Some hypercube) seed = Ok (vec, self', state') /\
    nth_error vec 12 = Some (truncnorm_ppf 0.9 (-5.0) 5.0 1.0 0.104).
Proof.
  destruct (inverse_sample_returns prior hypercube seed prior_samplable)
    as (((vec & self') & state') & E).
  exists vec, self', state'; split; [exact E |].
  destruct (inverse_sample_XTI_alpha _ _ _ _ _ _ E)
    as (i & u & I & N & _ & V); [eexists; reflexivity |].
  look I; look N; exact V.
Defined.

Lemma inverse_sample_extra_coordinates_witness :
  inverse_sample prior (Some (hypercube ++ [0.5; 0.5])) seed
  = inverse_sample prior (Some hypercube) seed.
Proof.
  apply (inverse_sample_extra_coordinates prior hypercube [0.5; 0.5] seed).
  cbn; lia.
Defined.

Lemma inverse_sample_short_hypercube_witness :
  inverse_sample prior (Some [0.5; 0.25]) seed = Raise IndexError.
Proof.
  apply (inverse_sample_short_hypercube prior [0.5; 0.25] seed
           "distance" 2).
  - intros k K; cbn in K; decompose [or] K; subst; try contradiction;
      eexists; reflexivity.
  - cbn; auto.
  - reflexivity.
  - cbn; lia.
Defined.

Lemma fixture_default_by_bounds :
  forall q q' x, Subspace.shape q = Subspace.shape q' ->
                 Prior_inverse_sample_1 q x = Prior_inverse_sample_1 q' x.
Proof.
  intros q q' x S; unfold Subspace.shape in S; cbn.
  replace (bounds q') with (bounds q) by congruence; reflexivity.
Qed.

Lemma inverse_sample_memoryless_witness :
  output (inverse_sample {| parameters := moved; spacetime := beyond |}
            (Some hypercube) seed')
  = output (inverse_sample prior (Some hypercube) seed).
Proof.
  apply (inverse_sample_memoryless
           {| parameters := moved; spacetime := beyond |} prior
           hypercube seed' seed fixture_default_by_bounds).
  reflexivity.
Defined.

Lemma inverse_sample_again_witness :
  exists vec self' self'',
    inverse_sample prior (Some hypercube) seed = Ok (vec, self', seed) /\
    inverse_sample self' (Some hypercube) seed = Ok (vec, self'', seed) /\
    map cached (parameters self'') = map Some vec.
Proof.
  destruct (inverse_sample_returns prior hypercube seed prior_samplable)
    as (((vec & self') & state') & E).
  destruct (inverse_sample_sampled _ _ _ _ _ _ E) as (_ & _ & T).
  cbn in T; subst state'.
  destruct (inverse_sample_again prior self' hypercube vec seed seed
              fixture_default_by_bounds E) as (self'' & E2 & C).
  exists vec, self', self''; repeat split; assumption.
Defined.

Lemma fixture_names_distinct : NoDup (Subspace.names ref).
Proof.
  cbn; repeat constructor; cbn; intros I; decompose [or] I;
    try discriminate; contradiction.
Qed.

Lemma transform_by_name_witness :
  transform prior (Subspace.vector ref)
  = Ok (Subspace.vector ref
        ++ [gravradius 2.082 / 12.0; shifted 0.0; shifted 0.0]).
Proof.
  apply (transform_by_name prior (Subspace.vector ref) 0 1 4 8
           2.082 12.0 0.0 0.0 fixture_names_distinct);
    reflexivity.
Defined.

Lemma transform_short_vector_witness :
  transform prior [] = Raise (KeyError "mass").
Proof.
  apply (transform_short_vector prior []); intros i _; cbn; lia.
Defined.

Lemma phase_shift_unfolds_witness :
  (if shifted 0.75 <? 0.0 then shifted 0.75 + 1.0 else shifted 0.75) = 0.75.
Proof. apply (phase_shift_unfolds 0.75); reflexivity. Defined.

Lemma density_exceptions_witness :
  __call__ (without "mass" prior) (Some (Subspace.vector ref))
  = Raise (KeyError "mass") \/
  (__call__ (without "mass" prior) (Some (Subspace.vector ref)) = Ok 0.0 /\
   ((exists key, In key ["mass"; "cos_inclination"; "XTI__alpha"] /\
                 KeyError "mass" = KeyError key /\
                 ~ present (parameters (without "mass" prior)) key) \/
    (present (parameters (without "mass" prior)) "XTI__alpha" /\
     present (parameters (without "mass" prior)) "PN__alpha" /\
     (KeyError "mass" = ValueError \/ KeyError "mass" = OverflowError)))).
Proof.
  apply (density_exceptions (without "mass" prior) (Subspace.vector ref)
           (KeyError "mass")).
  vm_compute; reflexivity.
Defined.

Lemma inverse_sample_exceptions_witness :
  IndexError = IndexError \/ IndexError = ValueError \/
  exists key, In key sampled_keys /\ IndexError = KeyError key /\
              ~ present (parameters prior) key.
Proof.
  apply (inverse_sample_exceptions prior (Some [0.5; 0.25]) seed IndexError).
  vm_compute; reflexivity.
Defined.

Lemma transform_derived_names_witness :
  exists out,
    transform prior (Subspace.vector ref) = Ok out /\
    firstn 15 out = Subspace.vector ref /\
    combine __derived_names__ (skipn 15 out)
    = [("compactness", gravradius 2.082 / 12.0);
       ("p__phase_shift_shifted", 0.0);
       ("s__phase_shift_shifted", 0.0)].
Proof.
  eexists; split; [vm_compute; reflexivity |].
  destruct (transform_derived_names prior (Subspace.vector ref) _ eq_refl)
    as (m & r & ps & ss & M & R & Ps & Ss & F & _ & D).
  look M; look R; look Ps; look Ss.
  split; [exact F | exact D].
Defined.

